(** * SecondChance operational scripts: notification dispatcher and event classifier

    A shallow embedding of
    - [scripts/todo-generator.js]    ([TodoGenerator.determinePriority], [determineCategory]),
    - [scripts/email-bug-monitor.js] ([EmailBugMonitor.processEmail]),
    - [scripts/email-notifications.js] ([EmailNotificationService]),
    followed by the properties of the specification that concern them.

    Conventions.  Text is a [string] of one-byte characters; [toLowerCase]
    folds the letters A-Z.  A property that may be [undefined] is an
    [option]; a value only used for its truthiness is a [bool].  Values read
    from the environment (the clock, identifiers, the outcome of an awaited
    transport or file-system call) are arguments or event labels.  The
    fallback files are named by their POSIX path relative to the directory
    that holds [scripts]. *)

From Stdlib Require Import String Ascii List Bool Arith Lia Sorted.
From stdpp Require Import gmap strings list fin_maps.
Import ListNotations.

Local Open Scope string_scope.
Local Open Scope list_scope.

(** ** JavaScript built-ins used by the scripts *)

Module Js.

(** [String.prototype.toLowerCase] on the letters A-Z. *)
Definition lower_ascii (c : ascii) : ascii :=
  let n := nat_of_ascii c in
  if (65 <=? n)%nat && (n <=? 90)%nat then ascii_of_nat (n + 32) else c.

Fixpoint toLowerCase (s : string) : string :=
  match s with
  | EmptyString => EmptyString
  | String c s' => String (lower_ascii c) (toLowerCase s')
  end.

(** Template-literal interpolation [`${v}`] of a property that may be
    [undefined]. *)
Definition interpolate (v : option string) : string :=
  match v with
  | Some s => s
  | None => "undefined"
  end.

(** [a || b] on a string operand that may be [undefined]: the empty string
    and [undefined] are falsy. *)
Definition or_else (a : option string) (b : string) : string :=
  match a with
  | Some EmptyString | None => b
  | Some s => s
  end.

(** *** Regular expressions

    The fragment of the pattern language that the scripts use: literal
    characters, [.*], concatenation and alternation. *)
Inductive regex : Type :=
| Lit (s : string)
| DotStar
| Cat (r1 r2 : regex)
| Alt (r1 r2 : regex).

(** A [RegExp] object: its pattern, its flags, and the mutable [lastIndex]
    that [test] reads and writes when the [g] or [y] flag is set. *)
Record RegExp : Type := mkRegExp {
  source : regex;
  ignoreCase : bool;
  global : bool;
  sticky : bool;
  lastIndex : nat
}.

Definition set_lastIndex (R : RegExp) (i : nat) : RegExp :=
  {| source := source R; ignoreCase := ignoreCase R; global := global R;
     sticky := sticky R; lastIndex := i |}.

(** [.] matches any character except a line terminator. *)
Definition isLineTerminator (c : ascii) : bool :=
  let n := nat_of_ascii c in (n =? 10)%nat || (n =? 13)%nat.

Definition char_eqb (ic : bool) (a b : ascii) : bool :=
  if ic then Ascii.eqb (lower_ascii a) (lower_ascii b) else Ascii.eqb a b.

(** Match the literal [l] at the start of [s]; the rest of [s] on success. *)
Fixpoint lit_prefix (ic : bool) (l s : string) : option string :=
  match l, s with
  | EmptyString, _ => Some s
  | String a l', String b s' =>
      if char_eqb ic a b then lit_prefix ic l' s' else None
  | String _ _, EmptyString => None
  end.

(** Greedy [.*] with backtracking: the longest run first. *)
Fixpoint dotstar {A} (s : string) (k : string -> option A) : option A :=
  match s with
  | EmptyString => k EmptyString
  | String c s' =>
      if isLineTerminator c then k s
      else match dotstar s' k with
           | Some x => Some x
           | None => k s
           end
  end.

(** Backtracking matcher in continuation-passing style: [k] receives the
    unread rest of the input. *)
Fixpoint run {A} (ic : bool) (r : regex) (s : string)
    (k : string -> option A) : option A :=
  match r with
  | Lit l =>
      match lit_prefix ic l s with
      | Some rest => k rest
      | None => None
      end
  | DotStar => dotstar s k
  | Cat r1 r2 => run ic r1 s (fun s' => run ic r2 s' k)
  | Alt r1 r2 =>
      match run ic r1 s k with
      | Some x => Some x
      | None => run ic r2 s k
      end
  end.

Fixpoint drop_chars (n : nat) (s : string) : string :=
  match n, s with
  | O, _ => s
  | S n', String _ s' => drop_chars n' s'
  | S _, EmptyString => EmptyString
  end.

(** The match that starts exactly at index [i]: its end index. *)
Definition match_at (R : RegExp) (S : string) (i : nat) : option nat :=
  run (ignoreCase R) (source R) (drop_chars i S)
      (fun rest => Some (String.length S - String.length rest)).

(** Try the indices [i], [i+1], ..., [i+fuel]. *)
Fixpoint scan (R : RegExp) (S : string) (i fuel : nat) : option nat :=
  match match_at R S i with
  | Some e => Some e
  | None =>
      match fuel with
      | O => None
      | Datatypes.S fuel' => scan R S (Datatypes.S i) fuel'
      end
  end.

(** [RegExpBuiltinExec] reduced to what [test] observes: the start index
    is [lastIndex] under [g] or [y] and [0] otherwise; [y] tries that index
    only; [lastIndex] is written back only under [g] or [y]. *)
Definition RegExp_test (R : RegExp) (S : string) : bool * RegExp :=
  let stateful := global R || sticky R in
  let start := if stateful then lastIndex R else 0 in
  let found :=
    if (String.length S <? start)%nat then None
    else if sticky R then match_at R S start
    else scan R S start (String.length S - start) in
  match found with
  | Some e => (true, if stateful then set_lastIndex R e else R)
  | None => (false, if stateful then set_lastIndex R 0 else R)
  end.

(** What a regular expression literal [/r/i] evaluates to. *)
Definition literal_i (r : regex) : RegExp :=
  {| source := r; ignoreCase := true; global := false; sticky := false;
     lastIndex := 0 |}.

(** The stateless search that [test] performs without [g] and [y]. *)
Definition search (R : RegExp) (S : string) : bool :=
  match scan R S 0 (String.length S) with
  | Some _ => true
  | None => false
  end.

(** [a|b|c] and [a.*b] *)
Fixpoint alts (r : regex) (rs : list regex) : regex :=
  match rs with
  | [] => r
  | r' :: rs' => Alt r (alts r' rs')
  end.

Definition then_later (a b : string) : regex := Cat (Lit a) (Cat DotStar (Lit b)).

(** [t] occurs in [s] as a substring. *)
Definition occurs (t s : string) : Prop :=
  exists pre post, s = pre +:+ t +:+ post.

(** A [RegExp] object without the [g] and [y] flags. *)
Definition stateless (R : RegExp) : Prop := global R = false /\ sticky R = false.

(** *** Paths: POSIX [path.join]

    [path.join] puts a slash between its non-empty arguments and
    normalises the result: empty and [.] segments are dropped and a [..]
    segment removes the segment before it; a relative path keeps the [..]
    segments that have nothing to remove. *)

(** The text between the slashes of a path. *)
Fixpoint path_segments (p : string) : list string :=
  match p with
  | EmptyString => [EmptyString]
  | String c p' =>
      if Ascii.eqb c "/" then EmptyString :: path_segments p'
      else match path_segments p' with
           | seg :: rest => String c seg :: rest
           | [] => [String c EmptyString]
           end
  end.

(** What [normalizeString] does at the end of a segment; [res] holds the
    segments kept so far, the last one first. *)
Definition normalize_segment (allowAboveRoot : bool) (res : list string)
    (seg : string) : list string :=
  if string_dec seg "" then res
  else if string_dec seg "." then res
  else if string_dec seg ".." then
    match res with
    | last :: before =>
        if string_dec last ".."
        then (if allowAboveRoot then ".." :: res else res)
        else before
    | [] => if allowAboveRoot then [".."] else []
    end
  else seg :: res.

Fixpoint join_segments (segs : list string) : string :=
  match segs with
  | [] => ""
  | [seg] => seg
  | seg :: rest => seg +:+ "/" +:+ join_segments rest
  end.

Definition normalizeString (path : string) (allowAboveRoot : bool) : string :=
  join_segments
    (rev (foldl (normalize_segment allowAboveRoot) [] (path_segments path))).

Definition starts_with_slash (p : string) : bool :=
  match p with
  | String c _ => Ascii.eqb c "/"
  | EmptyString => false
  end.

Fixpoint ends_with_slash (p : string) : bool :=
  match p with
  | EmptyString => false
  | String c EmptyString => Ascii.eqb c "/"
  | String _ p' => ends_with_slash p'
  end.

(** [path.normalize]. *)
Definition path_normalize (path : string) : string :=
  match path with
  | EmptyString => "."
  | _ =>
      let isAbsolute := starts_with_slash path in
      let trailingSeparator := ends_with_slash path in
      match normalizeString path (negb isAbsolute) with
      | EmptyString =>
          if isAbsolute then "/" else if trailingSeparator then "./" else "."
      | res =>
          let res := if trailingSeparator then res +:+ "/" else res in
          if isAbsolute then "/" +:+ res else res
      end
  end.

(** [path.join(...args)]. *)
Definition path_join (args : list string) : string :=
  match List.filter (fun arg => negb (String.eqb arg "")) args with
  | [] => "."
  | arg :: rest => path_normalize (foldl (fun joined a => joined +:+ "/" +:+ a) arg rest)
  end.

End Js.

(** ** scripts/todo-generator.js *)

Module TodoGenerator.
Import Js.

(** [this.failurePatterns] (constructor, lines 13-19). *)
Record FailurePatterns : Type := {
  test : RegExp;
  build : RegExp;
  security : RegExp;
  performance : RegExp;
  crisis : RegExp
}.

Record t : Type := { todoDir : string; failurePatterns : FailurePatterns }.

Definition new : t :=
  {| todoDir := "todos";
     failurePatterns :=
       {| test := literal_i (alts (then_later "test" "fail")
                    [then_later "fail" "test"; then_later "error" "test";
                     then_later "test" "error"]);
          build := literal_i (alts (then_later "build" "fail")
                    [then_later "compilation" "error"; then_later "bundle" "fail"]);
          security := literal_i (alts (Lit "security")
                    [Lit "vulnerability"; Lit "exploit"; Lit "unsafe"]);
          performance := literal_i (alts (Lit "timeout")
                    [Lit "slow"; Lit "performance"; then_later "memory" "leak"]);
          crisis := literal_i (alts (Lit "crisis")
                    [Lit "988"; Lit "741741"; Lit "emergency"; Lit "hotline"]) |} |}.

(** The failure object as the two classifiers read it. *)
Record Failure : Type := {
  error : option string;
  message : option string;
  name : option string;
  severity : option string;
  blocking : bool
}.

(** Methods run against [this]: a state monad over the generator object,
    because [RegExp.prototype.test] may write [lastIndex]. *)
Definition M (A : Type) : Type := t -> A * t.
Definition ret {A} (a : A) : M A := fun this => (a, this).
Definition bind {A B} (m : M A) (f : A -> M B) : M B :=
  fun this => let (a, this') := m this in f a this'.

Inductive PatternName : Type := Test | Build | Security | Performance | Crisis.

Definition get_pattern (n : PatternName) (ps : FailurePatterns) : RegExp :=
  match n with
  | Test => test ps | Build => build ps | Security => security ps
  | Performance => performance ps | Crisis => crisis ps
  end.

Definition set_pattern (n : PatternName) (R : RegExp) (ps : FailurePatterns)
    : FailurePatterns :=
  match n with
  | Test => {| test := R; build := build ps; security := security ps;
               performance := performance ps; crisis := crisis ps |}
  | Build => {| test := test ps; build := R; security := security ps;
                performance := performance ps; crisis := crisis ps |}
  | Security => {| test := test ps; build := build ps; security := R;
                   performance := performance ps; crisis := crisis ps |}
  | Performance => {| test := test ps; build := build ps; security := security ps;
                      performance := R; crisis := crisis ps |}
  | Crisis => {| test := test ps; build := build ps; security := security ps;
                 performance := performance ps; crisis := R |}
  end.

(** [this.failurePatterns.<n>.test(text)] *)
Definition pattern_test (n : PatternName) (text : string) : M bool :=
  fun this =>
    let (b, R') := RegExp_test (get_pattern n (failurePatterns this)) text in
    (b, {| todoDir := todoDir this;
           failurePatterns := set_pattern n R' (failurePatterns this) |}).

Notation "'let!' x ':=' m 'in' k" := (bind m (fun x => k))
  (at level 10, x name, m at level 100, k at level 200, only parsing).

(** The text each classifier matches against (lines 206 and 227). *)
Definition priorityText (failure : Failure) : string :=
  toLowerCase (interpolate (error failure) +:+ " " +:+ interpolate (message failure)).

Definition categoryText (failure : Failure) : string :=
  toLowerCase (interpolate (error failure) +:+ " " +:+ interpolate (message failure)
               +:+ " " +:+ interpolate (name failure)).

(** [failure.severity === 'critical' || failure.blocking] *)
Definition flagged (failure : Failure) : bool :=
  match severity failure with
  | Some s => if string_dec s "critical" then true else blocking failure
  | None => blocking failure
  end.

(** Lines 205-221. *)
Definition determinePriority (failure : Failure) : M string :=
  let errorText := priorityText failure in
  let! c := pattern_test Crisis errorText in
  if c then ret "critical" else
  let! s := pattern_test Security errorText in
  if s then ret "critical" else
  if flagged failure then ret "high" else
  let! p := pattern_test Performance errorText in
  if p then ret "medium" else
  ret "low".

(** Lines 226-242. *)
Definition determineCategory (failure : Failure) : M string :=
  let errorText := categoryText failure in
  let! c := pattern_test Crisis errorText in
  if c then ret "crisis-system" else
  let! s := pattern_test Security errorText in
  if s then ret "security" else
  let! p := pattern_test Performance errorText in
  if p then ret "performance" else
  let! b := pattern_test Build errorText in
  if b then ret "build" else
  ret "general".

(** The pair that [generateFromTestFailure] computes for each failure
    (lines 39-40): priority first, then category, on the same object. *)
Definition classify (failure : Failure) : M (string * string) :=
  let! priority := determinePriority failure in
  let! category := determineCategory failure in
  ret (priority, category).

(** The terms of the [crisis] and [security] patterns. *)
Definition crisis_terms : list string :=
  ["crisis"; "988"; "741741"; "emergency"; "hotline"].
Definition security_terms : list string :=
  ["security"; "vulnerability"; "exploit"; "unsafe"].

Definition matches (n : PatternName) (text : string) : bool :=
  search (get_pattern n (failurePatterns new)) text.

(** A text field that is absent or empty. *)
Definition blank (v : option string) : Prop := v = None \/ v = Some "".

Definition with_empty_text (failure : Failure) : Failure :=
  {| error := Some ""; message := Some ""; name := Some "";
     severity := severity failure; blocking := blocking failure |}.

End TodoGenerator.

(** ** scripts/email-bug-monitor.js *)

Module EmailBugMonitor.
Import Js.

(** [MONITOR_CONFIG.patterns] (lines 26-31). *)
Record Patterns : Type := {
  bug : RegExp;
  critical : RegExp;
  security : RegExp;
  performance : RegExp
}.

Definition MONITOR_CONFIG_patterns : Patterns :=
  {| bug := literal_i (alts (Lit "bug")
              [Lit "issue"; Lit "problem"; Lit "error"; Lit "crash"; Lit "fail"]);
     critical := literal_i (alts (Lit "critical")
              [Lit "urgent"; Lit "emergency"; Lit "crisis"; Lit "down"]);
     security := literal_i (alts (Lit "security")
              [Lit "vulnerability"; Lit "exploit"; Lit "breach"]);
     performance := literal_i (alts (Lit "slow")
              [Lit "lag"; Lit "freeze"; Lit "performance"; Lit "timeout"]) |}.

(** The parsed mail as [processEmail] reads it. *)
Record Email : Type := {
  from_text : option string;          (* email.from?.text *)
  subject : option string;
  date : option string;
  text : option string;
  html : option string;
  attachments : option (list string)
}.

Record BugReport : Type := {
  br_id : string;
  br_from : string;
  br_subject : string;
  br_date : string;
  br_body : string;
  br_attachments : list string;
  br_priority : string;
  br_category : string;
  br_status : string
}.

Definition set_priority (p : string) (b : BugReport) : BugReport :=
  {| br_id := br_id b; br_from := br_from b; br_subject := br_subject b;
     br_date := br_date b; br_body := br_body b;
     br_attachments := br_attachments b; br_priority := p;
     br_category := br_category b; br_status := br_status b |}.

Definition set_category (c : string) (b : BugReport) : BugReport :=
  {| br_id := br_id b; br_from := br_from b; br_subject := br_subject b;
     br_date := br_date b; br_body := br_body b;
     br_attachments := br_attachments b; br_priority := br_priority b;
     br_category := c; br_status := br_status b |}.

(** The TODO record of [createTodoFromBug] (lines 245-256). *)
Record Todo : Type := {
  todo_id : string;
  todo_title : string;
  todo_description : string;
  todo_priority : string;
  todo_category : string;
  todo_status : string;
  todo_created : string;
  todo_bugReportId : string;
  todo_assignee : option string;
  todo_labels : list string
}.

(** The acknowledgment of [sendAcknowledgment] (lines 282-299); the body is
    the fixed text with the identifier, priority and category filled in. *)
Record Ack : Type := {
  ack_to : string;
  ack_subject : string;
  ack_body_id : string;
  ack_body_priority : string;
  ack_body_category : string
}.

Inductive FileContent : Type :=
| BugReportJson (b : BugReport)
| TodoJson (t : Todo)
| AckJson (a : Ack).

(** A call [emailService.sendNotification(type, data)]. *)
Record Notification : Type := {
  n_type : string;
  n_data : list (string * string)
}.

(** The awaited operations, and the environment that settles each of them:
    [true] when the promise resolves, [false] when it rejects. *)
Inductive Op : Type :=
| Mkdir (dir : string)
| WriteFile (path : string)
| SendNotification (type : string).

Definition Env : Type := Op -> bool.

(** The monitor object together with what it writes to. *)
Record World : Type := {
  patterns : Patterns;                     (* MONITOR_CONFIG.patterns *)
  bugReports : list BugReport;             (* this.bugReports *)
  files : gmap string FileContent;         (* the disk *)
  notifications : list Notification        (* handed to emailService *)
}.

(** State and exception: [None] is a thrown error (a rejected promise). *)
Definition M (A : Type) : Type := World -> option A * World.
Definition ret {A} (a : A) : M A := fun w => (Some a, w).
Definition bind {A B} (m : M A) (f : A -> M B) : M B :=
  fun w => match m w with
           | (Some a, w') => f a w'
           | (None, w') => (None, w')
           end.

Notation "'let!' x ':=' m 'in' k" := (bind m (fun x => k))
  (at level 10, x name, m at level 100, k at level 200, only parsing).
Notation "m ';;' k" := (bind m (fun _ => k))
  (at level 100, k at level 200, right associativity, only parsing).

Inductive PatternName : Type := Bug | Critical | Security | Performance.

Definition get_pattern (n : PatternName) (ps : Patterns) : RegExp :=
  match n with
  | Bug => bug ps | Critical => critical ps
  | Security => security ps | Performance => performance ps
  end.

Definition set_pattern (n : PatternName) (R : RegExp) (ps : Patterns) : Patterns :=
  match n with
  | Bug => {| bug := R; critical := critical ps; security := security ps;
              performance := performance ps |}
  | Critical => {| bug := bug ps; critical := R; security := security ps;
                   performance := performance ps |}
  | Security => {| bug := bug ps; critical := critical ps; security := R;
                   performance := performance ps |}
  | Performance => {| bug := bug ps; critical := critical ps;
                      security := security ps; performance := R |}
  end.

(** [MONITOR_CONFIG.patterns.<n>.test(content)] *)
Definition pattern_test (n : PatternName) (content : string) : M bool :=
  fun w =>
    let (b, R') := RegExp_test (get_pattern n (patterns w)) content in
    (Some b, {| patterns := set_pattern n R' (patterns w);
                bugReports := bugReports w; files := files w;
                notifications := notifications w |}).

Definition mkdir (env : Env) (dir : string) : M unit :=
  fun w => (if env (Mkdir dir) then Some tt else None, w).

Definition writeFile (env : Env) (path : string) (c : FileContent) : M unit :=
  fun w =>
    if env (WriteFile path)
    then (Some tt, {| patterns := patterns w; bugReports := bugReports w;
                      files := <[path := c]> (files w);
                      notifications := notifications w |})
    else (None, w).

Definition push_bugReport (b : BugReport) : M unit :=
  fun w => (Some tt, {| patterns := patterns w;
                        bugReports := bugReports w ++ [b];
                        files := files w;
                        notifications := notifications w |}).

(** The event is handed to the dispatcher; the awaited promise may reject. *)
Definition sendNotification (env : Env) (type : string)
    (data : list (string * string)) : M unit :=
  fun w =>
    (if env (SendNotification type) then Some tt else None,
     {| patterns := patterns w; bugReports := bugReports w; files := files w;
        notifications := notifications w ++ [{| n_type := type; n_data := data |}] |}).

Definition bugDir : string := "bug-reports".
Definition todoDir : string := "todos".
Definition ackDir : string := "bug-reports/acknowledgments".
Definition join (dir file : string) : string := dir +:+ "/" +:+ file.

Definition bugReportPath (id : string) : string := join bugDir (id +:+ ".json").
Definition todoPath (id : string) : string := join todoDir ("TODO-" +:+ id +:+ ".json").
Definition ackPath (id : string) : string := join ackDir (id +:+ "-ack.json").

(** Lines 224-236. *)
Definition saveBugReport (env : Env) (bugReport : BugReport) : M unit :=
  mkdir env bugDir ;;
  writeFile env (bugReportPath (br_id bugReport)) (BugReportJson bugReport) ;;
  push_bugReport bugReport.

Definition todoFromBug (bugReport : BugReport) (created : string) : Todo :=
  {| todo_id := "TODO-" +:+ br_id bugReport;
     todo_title := "Fix: " +:+ br_subject bugReport;
     todo_description := String.substring 0 500 (br_body bugReport);
     todo_priority := br_priority bugReport;
     todo_category := br_category bugReport;
     todo_status := "pending";
     todo_created := created;
     todo_bugReportId := br_id bugReport;
     todo_assignee := None;
     todo_labels := ["bug"; "auto-generated"; br_category bugReport] |}.

(** Lines 241-272. *)
Definition createTodoFromBug (env : Env) (created : string) (bugReport : BugReport)
    : M unit :=
  mkdir env todoDir ;;
  let todo := todoFromBug bugReport created in
  writeFile env (todoPath (br_id bugReport)) (TodoJson todo) ;;
  sendNotification env "bug_report"
    [("bugId", br_id bugReport); ("title", br_subject bugReport);
     ("priority", br_priority bugReport); ("todoId", todo_id todo)].

Definition ackFor (bugReport : BugReport) : Ack :=
  {| ack_to := br_from bugReport;
     ack_subject := "RE: " +:+ br_subject bugReport +:+ " - Bug Report Received";
     ack_body_id := br_id bugReport;
     ack_body_priority := br_priority bugReport;
     ack_body_category := br_category bugReport |}.

(** Lines 277-308. *)
Definition sendAcknowledgment (env : Env) (bugReport : BugReport) : M unit :=
  mkdir env ackDir ;;
  writeFile env (ackPath (br_id bugReport)) (AckJson (ackFor bugReport)).

(** The record built at lines 173-183; [id] is the value of
    [generateBugId()] and [now] the clock reading of line 177. *)
Definition newBugReport (id now : string) (email : Email) : BugReport :=
  {| br_id := id;
     br_from := or_else (from_text email) "Unknown";
     br_subject := or_else (subject email) "No subject";
     br_date := or_else (date email) now;
     br_body := or_else (text email) (or_else (html email) "");
     br_attachments := match attachments email with Some l => l | None => [] end;
     br_priority := "normal";
     br_category := "general";
     br_status := "new" |}.

(** Line 186. *)
Definition contentOf (bugReport : BugReport) : string :=
  toLowerCase (br_subject bugReport +:+ " " +:+ br_body bugReport).

(** Lines 188-195: the classified report. *)
Definition classify (bugReport : BugReport) : M BugReport :=
  let content := contentOf bugReport in
  let! c := pattern_test Critical content in
  if c then ret (set_priority "critical" bugReport) else
  let! s := pattern_test Security content in
  if s then ret (set_category "security" (set_priority "high" bugReport)) else
  let! p := pattern_test Performance content in
  if p then ret (set_category "performance" bugReport) else
  ret bugReport.

(** Lines 172-210; [created] is the clock reading of line 252. *)
Definition processEmail (env : Env) (id now created : string) (email : Email)
    : M unit :=
  let bugReport := newBugReport id now email in
  let content := contentOf bugReport in
  let! bugReport := classify bugReport in
  let! isBug := pattern_test Bug content in
  if isBug then
    saveBugReport env bugReport ;;
    createTodoFromBug env created bugReport ;;
    sendAcknowledgment env bugReport
  else ret tt.

Definition new_world : World :=
  {| patterns := MONITOR_CONFIG_patterns; bugReports := []; files := ∅;
     notifications := [] |}.

Definition critical_terms : list string :=
  ["critical"; "urgent"; "emergency"; "crisis"; "down"].
Definition security_terms : list string :=
  ["security"; "vulnerability"; "exploit"; "breach"].

Definition matches (n : PatternName) (content : string) : bool :=
  search (get_pattern n MONITOR_CONFIG_patterns) content.

(** The report as [classify] leaves it, read off lines 188-195. *)
Definition classified (bugReport : BugReport) : BugReport :=
  let content := contentOf bugReport in
  if matches Critical content then set_priority "critical" bugReport
  else if matches Security content
       then set_category "security" (set_priority "high" bugReport)
  else if matches Performance content then set_category "performance" bugReport
  else bugReport.

End EmailBugMonitor.

(** ** scripts/email-notifications.js *)

Module EmailNotifications.
Import Js.

(** *** Configuration and templates (lines 11-62) *)

Definition EMAIL_CONFIG_recipient : string := "exiledev8668@gmail.com".
Definition EMAIL_CONFIG_from : string := "secondchance.notifications@gmail.com".
Definition EMAIL_CONFIG_subject_prefix : string := "[Second Chance]".

Record Template : Type := { t_subject : string; t_priority : string }.

Definition bug_report : Template :=
  {| t_subject := "🐛 Bug Report Received"; t_priority := "normal" |}.

(** The own properties of the [TEMPLATES] object. *)
Definition TEMPLATES : gmap string Template :=
  list_to_map
    [("test_results", {| t_subject := "Test Results"; t_priority := "normal" |});
     ("test_failure", {| t_subject := "⚠️ Test Failure Detected"; t_priority := "high" |});
     ("build_success", {| t_subject := "✅ Build Successful"; t_priority := "normal" |});
     ("build_failure", {| t_subject := "❌ Build Failed"; t_priority := "high" |});
     ("security_alert", {| t_subject := "🚨 Security Alert"; t_priority := "urgent" |});
     ("performance_issue", {| t_subject := "⚡ Performance Issue Detected"; t_priority := "high" |});
     ("bug_report", bug_report);
     ("crisis_system_error", {| t_subject := "🆘 Crisis System Error"; t_priority := "urgent" |})].

(** [TEMPLATES] is an object literal, so a property that is not its own
    is looked up on [Object.prototype]; these are the names found there. *)
Definition Object_prototype : list string :=
  ["constructor"; "__defineGetter__"; "__defineSetter__"; "hasOwnProperty";
   "__lookupGetter__"; "__lookupSetter__"; "isPrototypeOf";
   "propertyIsEnumerable"; "toString"; "valueOf"; "__proto__"; "toLocaleString"].

(** The value of a property read [TEMPLATES[type]]. *)
Inductive Value : Type :=
| Own (t : Template)          (* one of the eight templates *)
| Inherited (name : string)   (* a built-in of Object.prototype: truthy *)
| Undefined.

Definition TEMPLATES_get (type : string) : Value :=
  match TEMPLATES !! type with
  | Some t => Own t
  | None => if bool_decide (type ∈ Object_prototype) then Inherited type else Undefined
  end.

(** [template.subject] and [template.priority]; a built-in has neither. *)
Definition get_subject (v : Value) : option string :=
  match v with Own t => Some (t_subject t) | _ => None end.

Definition get_priority (v : Value) : option string :=
  match v with Own t => Some (t_priority t) | _ => None end.

(** *** Messages *)

Record Headers : Type := {
  X_Priority : string;
  X_Second_Chance_Type : string;
  X_Second_Chance_Timestamp : string
}.

Record Email : Type := {
  from : string;
  to : string;
  subject : string;
  html : string;
  priority : option string;
  headers : Headers
}.

(** The object built at lines 96-109.  [body] is the string returned by
    [this.generateEmailBody(type, data)], [now] is [new Date().toISOString()]. *)
Definition emailData (type body now : string) : Email :=
  let template :=
    match TEMPLATES_get type with
    | Undefined => Own bug_report            (* || TEMPLATES.bug_report *)
    | v => v
    end in
  {| from := EMAIL_CONFIG_from;
     to := EMAIL_CONFIG_recipient;
     subject := EMAIL_CONFIG_subject_prefix +:+ " " +:+ interpolate (get_subject template);
     html := body;
     priority := get_priority template;
     headers :=
       {| X_Priority :=
            match get_priority template with
            | Some p => if string_dec p "urgent" then "1"
                        else if string_dec p "high" then "2" else "3"
            | None => "3"
            end;
          X_Second_Chance_Type := type;
          X_Second_Chance_Timestamp := now |} |}.

(** What [logToFile] serialises (lines 282-286). *)
Record LogEntry : Type := {
  le_email : Email;
  le_timestamp : string;
  le_status : string
}.

(** [__dirname]: a file is named by its path relative to the directory
    that holds [scripts]. *)
Definition dirname : string := "scripts".

(** Line 276. *)
Definition logDir : string := path_join [dirname; ".."; "logs"; "email-notifications"].

Fixpoint replace_colons (s : string) : string :=
  match s with
  | EmptyString => EmptyString
  | String c s' =>
      String (if Ascii.eqb c ":" then "-"%char else c) (replace_colons s')
  end.

(** Lines 279-280; [iso] is [new Date().toISOString()]. *)
Definition logPath (iso : string) (email : Email) : string :=
  let filename := replace_colons iso +:+ "_"
                  +:+ X_Second_Chance_Type (headers email) +:+ ".json" in
  path_join [logDir; filename].

Definition logEntry (email : Email) (iso : string) : LogEntry :=
  {| le_email := email; le_timestamp := iso; le_status := "queued_for_manual_send" |}.

(** *** The service and its pending activations

    One JavaScript thread runs the code between two [await]s without
    interruption.  A state holds the fields of the service object, the
    activations of [processQueue] that are suspended at an [await], and a
    record of what has happened.  Each queued message carries the number of
    the [sendNotification] call that produced it. *)

Record Msg : Type := { id : nat; mail : Email }.

(** The [await] an activation of [processQueue] is suspended at. *)
Inductive Await : Type :=
| SendMail                               (* line 133 *)
| LogMkdir (inCatch : bool)              (* line 277, called from 137 or 141 *)
| LogWrite (inCatch : bool) (path : string) (entry : LogEntry).  (* line 282 *)

Record Drain : Type := {
  caller : option nat;      (* the sendNotification call awaiting it, if any *)
  current : Msg;            (* the message shifted at line 129 *)
  awaiting : Await
}.

Inductive Outcome : Type :=
| Delivered                   (* sendMail resolved *)
| Persisted (path : string) (entry : LogEntry)   (* logToFile returned *)
| Dropped.                    (* logToFile threw inside the catch block *)

Record State : Type := mkState {
  transporter : bool;                     (* this.transporter is not null *)
  queue : list Msg;                       (* this.queue *)
  isProcessing : bool;                    (* this.isProcessing *)
  drains : list Drain;                    (* suspended processQueue activations *)
  files : gmap string LogEntry;           (* what logToFile has written, by path *)
  nextId : nat;                           (* calls of sendNotification so far *)
  history : list (Msg * Outcome);         (* messages the loop is done with *)
  attempts : list nat;                    (* messages passed to sendMail *)
  settled : list (nat * bool)             (* sendNotification promises: resolved or rejected *)
}.

(** [new EmailNotificationService()] (lines 65-69). *)
Definition new : State :=
  {| transporter := false; queue := []; isProcessing := false; drains := [];
     files := ∅; nextId := 0; history := []; attempts := []; settled := [] |}.

Definition set_transporter b s :=
  mkState b (queue s) (isProcessing s) (drains s) (files s) (nextId s)
          (history s) (attempts s) (settled s).
Definition set_queue q s :=
  mkState (transporter s) q (isProcessing s) (drains s) (files s) (nextId s)
          (history s) (attempts s) (settled s).
Definition set_isProcessing b s :=
  mkState (transporter s) (queue s) b (drains s) (files s) (nextId s)
          (history s) (attempts s) (settled s).
Definition set_drains ds s :=
  mkState (transporter s) (queue s) (isProcessing s) ds (files s) (nextId s)
          (history s) (attempts s) (settled s).
Definition set_files f s :=
  mkState (transporter s) (queue s) (isProcessing s) (drains s) f (nextId s)
          (history s) (attempts s) (settled s).
Definition set_nextId n s :=
  mkState (transporter s) (queue s) (isProcessing s) (drains s) (files s) n
          (history s) (attempts s) (settled s).
Definition set_history h s :=
  mkState (transporter s) (queue s) (isProcessing s) (drains s) (files s) (nextId s)
          h (attempts s) (settled s).
Definition set_attempts a s :=
  mkState (transporter s) (queue s) (isProcessing s) (drains s) (files s) (nextId s)
          (history s) a (settled s).
Definition set_settled r s :=
  mkState (transporter s) (queue s) (isProcessing s) (drains s) (files s) (nextId s)
          (history s) (attempts s) r.

Definition suspend (d : Drain) (s : State) : State := set_drains (drains s ++ [d]) s.
Definition record_outcome (m : Msg) (o : Outcome) (s : State) : State :=
  set_history (history s ++ [(m, o)]) s.

(** The promise of the awaiting [sendNotification] call settles. *)
Definition settle (c : option nat) (ok : bool) (s : State) : State :=
  match c with
  | Some n => set_settled (settled s ++ [(n, ok)]) s
  | None => s
  end.

(** The [while] test of line 128 and the code up to the next [await]:
    on an empty queue line 145 clears the flag and [processQueue] returns;
    otherwise the head is shifted and handed to the transport (line 133)
    or, without a transporter, to [logToFile] (line 137). *)
Definition loop (c : option nat) (s : State) : State :=
  match queue s with
  | [] => settle c true (set_isProcessing false s)
  | email :: rest =>
      let s := set_queue rest s in
      if transporter s
      then suspend {| caller := c; current := email; awaiting := SendMail |}
                   (set_attempts (attempts s ++ [id email]) s)
      else suspend {| caller := c; current := email; awaiting := LogMkdir false |} s
  end.

(** Lines 123-146, up to the first [await]. *)
Definition processQueue (c : option nat) (s : State) : State :=
  if (length (queue s) =? 0)%nat || isProcessing s then settle c true s
  else loop c (set_isProcessing true s).

(** Lines 95-118, up to the first [await]. *)
Definition sendNotification (type body now : string) (s : State) : State :=
  let n := nextId s in
  let emailData := {| id := n; mail := emailData type body now |} in
  let s := set_nextId (S n) (set_queue (queue s ++ [emailData]) s) in
  if negb (isProcessing s) then processQueue (Some n) s
  else settle (Some n) true s.

(** A call of [sendNotification] with the outcome of line 102: [body] is
    [None] when [generateEmailBody] throws.  The exception leaves the
    function before the push of line 112; the flag tells whether the call
    got as far as the push. *)
Definition call_sendNotification (type : string) (body : option string)
    (now : string) (s : State) : bool * State :=
  match body with
  | Some html => (true, sendNotification type html now s)
  | None => (false, s)
  end.

(** What the environment does to the service. *)
Inductive Event : Type :=
| Initialize                                  (* line 77 *)
| SendNotification (type body now : string)   (* a call of sendNotification *)
| ProcessQueue                                (* a direct call of processQueue *)
| SendMailResolved (i : nat)                  (* the await of drain i ... *)
| SendMailRejected (i : nat)
| MkdirResolved (i : nat) (now1 now2 : string)  (* ... and the two clock readings that follow *)
| WriteFileResolved (i : nat)
| FsRejected (i : nat).                       (* mkdir or writeFile rejects *)

(** Resume a suspended activation with the outcome of its [await]. *)
Definition resume (d : Drain) (ev : Event) (s : State) : option State :=
  let c := caller d in
  let email := current d in
  match awaiting d, ev with
  | SendMail, SendMailResolved _ =>
      Some (loop c (record_outcome email Delivered s))
  | SendMail, SendMailRejected _ =>
      Some (suspend {| caller := c; current := email; awaiting := LogMkdir true |} s)
  | LogMkdir inCatch, MkdirResolved _ now1 now2 =>
      Some (suspend {| caller := c; current := email;
                       awaiting := LogWrite inCatch (logPath now1 (mail email))
                                            (logEntry (mail email) now2) |} s)
  | LogWrite _ path entry, WriteFileResolved _ =>
      Some (loop c (record_outcome email (Persisted path entry)
                      (set_files (<[path := entry]> (files s)) s)))
  | LogMkdir false, FsRejected _ | LogWrite false _ _, FsRejected _ =>
      (* thrown inside the try block: caught at line 139 *)
      Some (suspend {| caller := c; current := email; awaiting := LogMkdir true |} s)
  | LogMkdir true, FsRejected _ | LogWrite true _ _, FsRejected _ =>
      (* thrown inside the catch block: processQueue rejects *)
      Some (settle c false (record_outcome email Dropped s))
  | _, _ => None
  end.

Definition step (s : State) (ev : Event) : option State :=
  match ev with
  | Initialize => Some (set_transporter true s)
  | SendNotification type body now => Some (sendNotification type body now s)
  | ProcessQueue => Some (processQueue None s)
  | SendMailResolved i | SendMailRejected i | MkdirResolved i _ _
  | WriteFileResolved i | FsRejected i =>
      match drains s !! i with
      | Some d => resume d ev (set_drains (delete i (drains s)) s)
      | None => None
      end
  end.

Fixpoint exec (s : State) (evs : list Event) : option State :=
  match evs with
  | [] => Some s
  | ev :: evs' =>
      match step s ev with
      | Some s' => exec s' evs'
      | None => None
      end
  end.

(** *** Vocabulary of the properties *)

(** The messages that the [sendNotification] calls of a trace create,
    the first of them numbered [n]. *)
Fixpoint submissions (n : nat) (evs : list Event) : list Msg :=
  match evs with
  | [] => []
  | SendNotification type body now :: evs' =>
      {| id := n; mail := emailData type body now |} :: submissions (S n) evs'
  | _ :: evs' => submissions n evs'
  end.

Definition is_FsRejected (ev : Event) : bool :=
  match ev with FsRejected _ => true | _ => false end.

Definition is_SendMailResolved (ev : Event) : bool :=
  match ev with SendMailResolved _ => true | _ => false end.

(** The settling of an awaited promise, as opposed to a call. *)
Definition is_completion (ev : Event) : bool :=
  match ev with
  | Initialize | SendNotification _ _ _ | ProcessQueue => false
  | _ => true
  end.

Definition is_Persisted (o : Outcome) : bool :=
  match o with Persisted _ _ => true | _ => false end.

Definition is_Delivered (o : Outcome) : bool :=
  match o with Delivered => true | _ => false end.

(** The fallback writes of a history, in order, and the directory they
    leave behind ([writeFile] replaces a file of the same name). *)
Definition writes (h : list (Msg * Outcome)) : list (string * LogEntry) :=
  flat_map (fun mo => match snd mo with
                      | Persisted path entry => [(path, entry)]
                      | _ => []
                      end) h.

Definition replay (ws : list (string * LogEntry)) : gmap string LogEntry :=
  foldl (fun fs w => <[fst w := snd w]> fs) ∅ ws.

(** A fallback write of message [m]: the file name is a clock reading with
    its colons replaced, then the type; the content is the message with a
    clock reading and the status marker. *)
Definition fallback_of (m : Msg) (path : string) (entry : LogEntry) : Prop :=
  exists now1 now2,
    path = logPath now1 (mail m) /\ entry = logEntry (mail m) now2.

(** The awaits that remain before the loop is done with everything that
    is in flight or queued: an upper bound. *)
Definition rank (a : Await) : nat :=
  match a with
  | SendMail => 3
  | LogMkdir false => 4
  | LogWrite false _ _ => 3
  | LogMkdir true => 2
  | LogWrite true _ _ => 1
  end.

Definition work (s : State) : nat :=
  4 * length (queue s) + list_sum (map (fun d => rank (awaiting d)) (drains s)).

(** The facts that every step preserves, stated for the list [ds] of
    suspended activations and the list [subs] of messages submitted so far. *)
Record Core (ds : list Drain) (s : State) (subs : list Msg) : Prop := {
  c_one : length ds <= 1;
  c_flag : ds <> [] -> isProcessing s = true;
  c_idle : isProcessing s = false -> queue s = [];
  c_account : map fst (history s) ++ map current ds ++ queue s = subs;
  c_ids : map id subs = seq 0 (nextId s);
  c_attempts_nodup : List.NoDup (attempts s);
  c_attempts_in :
    forall n, In n (attempts s) ->
              In n (map id (map fst (history s) ++ map current ds));
  c_files : files s = replay (writes (history s));
  c_writes :
    Forall (fun mo => match snd mo with
                      | Persisted path entry => fallback_of (fst mo) path entry
                      | _ => True
                      end) (history s);
  c_pending :
    Forall (fun d => match awaiting d with
                     | LogWrite _ path entry => fallback_of (current d) path entry
                     | _ => True
                     end) ds;
  c_callers :
    forall d n, In d ds -> caller d = Some n ->
                n < nextId s /\ ~ In n (map fst (settled s));
  c_settled : forall n, In n (map fst (settled s)) -> n < nextId s
}.

Definition Inv (s : State) (subs : list Msg) : Prop := Core (drains s) s subs.

(** What holds in addition as long as no file-system call has been
    rejected: the flag is set only while an activation is suspended, no
    message was dropped, and the deliveries are the resolved [sendMail]s. *)
Record Clean (s : State) (resolved : nat) : Prop := {
  k_flag : isProcessing s = true -> drains s <> [];
  k_kept : Forall (fun mo => snd mo <> Dropped) (history s);
  k_delivered :
    length (List.filter (fun mo => is_Delivered (snd mo)) (history s)) = resolved
}.

End EmailNotifications.

(** ** More vocabulary for the dispatcher *)

Module Dispatch.
Import EmailNotifications.

Definition is_Initialize (ev : Event) : bool :=
  match ev with Initialize => true | _ => false end.

(** The promises of the [sendNotification] calls of a trace, all resolved. *)
Definition resolved_calls (n : nat) (evs : list Event) : list (nat * bool) :=
  map (fun m => (id m, true)) (submissions n evs).

(** No colon among the characters of a string. *)
Fixpoint colon_free (s : string) : bool :=
  match s with
  | EmptyString => true
  | String c s' => negb (Ascii.eqb c ":") && colon_free s'
  end.

(** No slash among the characters of a string. *)
Fixpoint slash_free (s : string) : bool :=
  match s with
  | EmptyString => true
  | String c s' => negb (Ascii.eqb c "/") && slash_free s'
  end.

(** What is left of [s] behind the prefix [p]. *)
Fixpoint strip_prefix (p s : string) : option string :=
  match p, s with
  | EmptyString, _ => Some s
  | String a p', String b s' => if Ascii.eqb a b then strip_prefix p' s' else None
  | String _ _, EmptyString => None
  end.

(** The path names a file of the fallback directory itself. *)
Definition in_logDir (path : string) : bool :=
  match strip_prefix (logDir +:+ "/") path with
  | Some name => slash_free name
  | None => false
  end.

(** Without a transporter no activation waits for [sendMail] and nothing
    was delivered. *)
Definition offline (s : State) : Prop :=
  transporter s = false /\ attempts s = [] /\
  Forall (fun d => awaiting d <> SendMail) (drains s) /\
  Forall (fun mo => snd mo <> Delivered) (history s).

End Dispatch.


(** ** scripts/email-bug-monitor.js: identifiers and statistics *)

Module BugStatistics.
Import Js EmailBugMonitor.

(** Lines 215-219; [timestamp] is the decimal rendering of [Date.now()] and
    [random] the six base-36 digits drawn from [Math.random()]. *)
Definition generateBugId (timestamp random : string) : string :=
  "BUG-" +:+ timestamp +:+ "-" +:+ random.

(** A counter held in a property of the objects [byPriority] and
    [byCategory]: a number, or the string that [+ 1] produces when the
    property read found a built-in of [Object.prototype]. *)
Inductive Tally : Type :=
| Count (n : nat)
| Garbled.

(** [obj[k] = (obj[k] || 0) + 1] on an object literal whose own properties
    are held in [m].  A name inherited from [Object.prototype] reads as a
    truthy built-in, so the sum is a string; the assignment of a string to
    [__proto__] is ignored. *)
Definition tally (m : gmap string Tally) (k : string) : gmap string Tally :=
  match m !! k with
  | Some (Count n) => <[k := Count (n + 1)]> m
  | Some Garbled => <[k := Garbled]> m
  | None =>
      if bool_decide (k = "__proto__") then m
      else if bool_decide (k ∈ EmailNotifications.Object_prototype)
           then <[k := Garbled]> m
           else <[k := Count 1]> m
  end.

Record Statistics : Type := {
  total : nat;
  byPriority : gmap string Tally;
  byCategory : gmap string Tally;
  recent : list BugReport
}.

(** [array.slice(-n)] *)
Definition slice_last {A} (n : nat) (l : list A) : list A :=
  drop (length l - n) l.

(** Lines 334-348. *)
Definition getStatistics (w : World) : Statistics :=
  let counts :=
    foldl (fun acc bug =>
             (tally (fst acc) (br_priority bug), tally (snd acc) (br_category bug)))
          (∅, ∅) (bugReports w) in
  {| total := length (bugReports w);
     byPriority := fst counts;
     byCategory := snd counts;
     recent := slice_last 5 (bugReports w) |}.

(** A key that is not the name of a built-in of [Object.prototype]. *)
Definition ordinary (k : string) : Prop :=
  ~ In k EmailNotifications.Object_prototype.

(** What a counter shows after [n] increments. *)
Definition shown (n : nat) : option Tally :=
  match n with
  | O => None
  | S _ => Some (Count n)
  end.

(** An identifier as [generateBugId] makes them. *)
Definition generated (id : string) : Prop :=
  exists timestamp random, id = generateBugId timestamp random.

End BugStatistics.


(** ** scripts/todo-generator.js: TODO items *)

Module TodoItems.
Import Js TodoGenerator.

(** The failure object with the properties that [generateFromTestFailure]
    and its helpers read besides those of the classifiers. *)
Record TestFailure : Type := {
  text : Failure;                 (* error, message, name, severity, blocking *)
  test : option string;
  file : option string;
  line : option string;
  stack : option string;
  suite : option string;
  complexity : option string;
  dependencies : option Z
}.

(** [v === s] and [v > n] on properties that may be [undefined]. *)
Definition is_string (v : option string) (s : string) : bool :=
  match v with
  | Some x => if string_dec x s then true else false
  | None => false
  end.

Definition greater (v : option Z) (n : Z) : bool :=
  match v with
  | Some d => (n <? d)%Z
  | None => false
  end.

(** Lines 247-255. *)
Definition estimateEffort (failure : TestFailure) : string :=
  if is_string (complexity failure) "high" || greater (dependencies failure) 3
  then "high"
  else if is_string (complexity failure) "medium" || greater (dependencies failure) 1
  then "medium"
  else "low".

(** The table of [calculateDeadline], in milliseconds. *)
Definition deadlines : gmap string Z :=
  list_to_map [("critical", 3600000%Z); ("high", 86400000%Z);
               ("medium", 259200000%Z); ("low", 604800000%Z)].

(** Lines 260-269: the instant, in milliseconds, whose ISO rendering is
    returned; [now] is [Date.now()].  A severity that names a built-in of
    [Object.prototype] reads as that built-in, the sum is a string that is
    no date, and [toISOString] throws: [None]. *)
Definition calculateDeadline (now : Z) (severity : option string) : option Z :=
  match severity with
  | None => Some (now + 259200000)%Z
  | Some s =>
      match deadlines !! s with
      | Some ms => Some (now + ms)%Z
      | None =>
          if bool_decide (s ∈ EmailNotifications.Object_prototype) then None
          else Some (now + 259200000)%Z
      end
  end.

(** Lines 446-450; [timestamp] is the decimal rendering of [Date.now()] and
    [random] the four upper-cased base-36 digits. *)
Definition generateTodoId (prefix timestamp random : string) : string :=
  prefix +:+ "-" +:+ timestamp +:+ "-" +:+ random.

Record Todo : Type := {
  id : string;
  title : string;
  description : string;
  priority : string;
  category : string;
  status : string;
  created : string;
  source : string;
  metadata : list (string * option string);
  assignee : option string;
  labels : list string;
  estimatedEffort : string
}.

Definition newline : string := String (ascii_of_nat 10) EmptyString.

(** The lines of a text joined by line feeds. *)
Fixpoint unlines (ls : list string) : string :=
  match ls with
  | [] => ""
  | [l] => l
  | l :: ls' => l +:+ newline +:+ unlines ls'
  end.

(** Lines 274-303; the template starts and ends with a line feed that
    [trim] removes. *)
Definition formatFailureDescription (failure : TestFailure) : string :=
  unlines
    ["## Test Failure Details";
     "";
     "**Test**: " +:+ or_else (name (text failure)) "Unknown";
     "**File**: " +:+ or_else (file failure) "Unknown";
     "**Line**: " +:+ or_else (line failure) "Unknown";
     "";
     "### Error Message";
     "```";
     or_else (error (text failure))
       (or_else (message (text failure)) "No error message");
     "```";
     "";
     "### Stack Trace";
     "```";
     or_else (stack failure) "No stack trace available";
     "```";
     "";
     "### Reproduction Steps";
     "1. Run test suite: " +:+ or_else (suite failure) "Unknown";
     "2. Test will fail at: " +:+ interpolate (file failure) +:+ ":"
       +:+ interpolate (line failure);
     "3. Review error message and stack trace";
     "";
     "### Suggested Actions";
     "- Review recent code changes in affected file";
     "- Check test dependencies and mocks";
     "- Verify test data and fixtures";
     "- Run test in isolation to confirm failure"].

(** What [saveTodo] writes: the JSON and the Markdown rendering of a TODO. *)
Inductive TodoFile : Type :=
| TodoJson (todo : Todo)
| TodoMarkdown (todo : Todo).

(** The data of the [test_failure] notification (lines 70-75). *)
Record TestFailureData : Type := {
  d_suite : option string;
  d_failed : nat;
  d_highPriorityCount : nat;
  d_todos : list (string * string)
}.

Inductive Op : Type :=
| WriteFile (path : string)
| SendNotification (type : string).

(** [true] when the awaited promise resolves, [false] when it rejects. *)
Definition Env : Type := Op -> bool.

(** The three readings taken for the [i]-th failure: the timestamp and the
    random digits of its identifier, and its creation time. *)
Definition Clock : Type := nat -> string * string * string.

Record World : Type := {
  generator : TodoGenerator.t;
  files : gmap string TodoFile;
  notifications : list (string * TestFailureData)
}.

Definition M (A : Type) : Type := World -> option A * World.
Definition ret {A} (a : A) : M A := fun w => (Some a, w).
Definition bind {A B} (m : M A) (f : A -> M B) : M B :=
  fun w => match m w with
           | (Some a, w') => f a w'
           | (None, w') => (None, w')
           end.

Notation "'let!' x ':=' m 'in' k" := (bind m (fun x => k))
  (at level 10, x name, m at level 100, k at level 200, only parsing).
Notation "m ';;' k" := (bind m (fun _ => k))
  (at level 100, k at level 200, right associativity, only parsing).

(** A method of the generator object run in the world. *)
Definition lift {A} (m : TodoGenerator.M A) : M A :=
  fun w => let (a, this) := m (generator w) in
           (Some a, {| generator := this; files := files w;
                       notifications := notifications w |}).

Definition writeFile (env : Env) (path : string) (c : TodoFile) : M unit :=
  fun w =>
    if env (WriteFile path)
    then (Some tt, {| generator := generator w;
                      files := <[path := c]> (files w);
                      notifications := notifications w |})
    else (None, w).

Definition sendNotification (env : Env) (type : string) (data : TestFailureData)
    : M unit :=
  fun w =>
    (if env (SendNotification type) then Some tt else None,
     {| generator := generator w; files := files w;
        notifications := notifications w ++ [(type, data)] |}).

Definition jsonPath (this : TodoGenerator.t) (id : string) : string :=
  todoDir this +:+ "/" +:+ id +:+ ".json".
Definition mdPath (this : TodoGenerator.t) (id : string) : string :=
  todoDir this +:+ "/" +:+ id +:+ ".md".

(** Lines 455-466. *)
Definition saveTodo (env : Env) (todo : Todo) : M unit :=
  fun w =>
    (writeFile env (jsonPath (generator w) (id todo)) (TodoJson todo) ;;
     writeFile env (mdPath (generator w) (id todo)) (TodoMarkdown todo)) w.

Record TestResult : Type := {
  r_suite : option string;
  r_failures : option (list TestFailure)
}.

(** The object literal of lines 42-61. *)
Definition testTodo (testResult : TestResult) (reading : string * string * string)
    (failure : TestFailure) (priority category : string) : Todo :=
  let '(timestamp, random, now) := reading in
  {| id := generateTodoId "TEST" timestamp random;
     title := "Fix test: " +:+
              or_else (name (text failure)) (or_else (test failure) "Unknown test");
     description := formatFailureDescription failure;
     priority := priority;
     category := category;
     status := "pending";
     created := now;
     source := "test-failure";
     metadata := [("suite", r_suite testResult); ("file", file failure);
                  ("line", line failure); ("error", error (text failure));
                  ("stack", stack failure)];
     assignee := None;
     labels := ["auto-generated"; "test-failure"; category];
     estimatedEffort := estimateEffort failure |}.

(** The loop of lines 38-65, at its [i]-th failure, with the TODOs made
    so far. *)
Fixpoint eachFailure (env : Env) (clock : Clock) (testResult : TestResult)
    (i : nat) (failures : list TestFailure) (todos : list Todo) : M (list Todo) :=
  match failures with
  | [] => ret todos
  | failure :: rest =>
      let! priority := lift (determinePriority (text failure)) in
      let! category := lift (determineCategory (text failure)) in
      let todo := testTodo testResult (clock i) failure priority category in
      saveTodo env todo ;;
      eachFailure env clock testResult (S i) rest (todos ++ [todo])
  end.

Definition isHighPriority (t : Todo) : bool :=
  if string_dec (priority t) "critical" then true
  else if string_dec (priority t) "high" then true else false.

(** Lines 34-79. *)
Definition generateFromTestFailure (env : Env) (clock : Clock)
    (testResult : TestResult) : M (list Todo) :=
  let failures := match r_failures testResult with Some l => l | None => [] end in
  let! todos := eachFailure env clock testResult 0 failures [] in
  let highPriorityTodos := List.filter isHighPriority todos in
  if (0 <? length highPriorityTodos)%nat
  then
    sendNotification env "test_failure"
      {| d_suite := r_suite testResult;
         d_failed := length failures;
         d_highPriorityCount := length highPriorityTodos;
         d_todos := map (fun t => (id t, title t)) highPriorityTodos |} ;;
    ret todos
  else ret todos.

Definition new_world : World :=
  {| generator := TodoGenerator.new; files := ∅; notifications := [] |}.

(** *** Vocabulary of the properties *)

Definition effort_rank (e : string) : nat :=
  if string_dec e "high" then 2 else if string_dec e "medium" then 1 else 0.

(** The TODO of the [i]-th failure, with the classification made on the
    fresh generator object. *)
Definition todoOf (clock : Clock) (testResult : TestResult) (i : nat)
    (failure : TestFailure) : Todo :=
  testTodo testResult (clock i) failure
    (fst (determinePriority (text failure) TodoGenerator.new))
    (fst (determineCategory (text failure) TodoGenerator.new)).

Fixpoint todosFrom (clock : Clock) (testResult : TestResult) (i : nat)
    (failures : list TestFailure) : list Todo :=
  match failures with
  | [] => []
  | failure :: rest =>
      todoOf clock testResult i failure :: todosFrom clock testResult (S i) rest
  end.

(** The directory after the two files of each TODO have been written. *)
Definition saved (todos : list Todo) (fs : gmap string TodoFile)
    : gmap string TodoFile :=
  foldl (fun fs t =>
           <[mdPath TodoGenerator.new (id t) := TodoMarkdown t]>
             (<[jsonPath TodoGenerator.new (id t) := TodoJson t]> fs))
        fs todos.

End TodoItems.

(** * Properties *)

(** ** Regular expressions *)

Section RegExpFacts.
Import Js.

Lemma char_eqb_refl ic a : char_eqb ic a a = true.
Proof. unfold char_eqb. destruct ic; apply Ascii.eqb_refl. Qed.

Lemma lit_prefix_app ic t post : lit_prefix ic t (t +:+ post) = Some post.
Proof.
  induction t as [|a t IH]; simpl.
  - now destruct post.
  - now rewrite char_eqb_refl.
Qed.

Lemma drop_chars_app pre rest :
  drop_chars (String.length pre) (pre +:+ rest) = rest.
Proof. induction pre as [|a pre IH]; simpl; [now destruct rest | exact IH]. Qed.

(** An alternative that matches makes the alternation match. *)
Lemma run_alts {A} ic r rs r' s (k : string -> option A) :
  In r' (r :: rs) ->
  run ic r' s k <> None ->
  run ic (alts r rs) s k <> None.
Proof.
  revert r. induction rs as [|r1 rs IH]; intros r Hin Hm; simpl in *.
  - destruct Hin as [<-|[]]. exact Hm.
  - destruct (run ic r s k) eqn:E; [discriminate|].
    destruct Hin as [<-|Hin]; [exfalso; apply Hm; exact E|].
    apply IH; assumption.
Qed.

Lemma scan_finds R S i i0 fuel :
  match_at R S i <> None ->
  i0 <= i <= i0 + fuel ->
  scan R S i0 fuel <> None.
Proof.
  revert i0. induction fuel as [|fuel IH]; intros i0 Hm Hi; simpl.
  - assert (i = i0) as -> by lia. destruct (match_at R S i0); congruence.
  - destruct (match_at R S i0) eqn:E; [discriminate|].
    apply IH; [assumption|].
    destruct (Nat.eq_dec i i0) as [->|]; [congruence | lia].
Qed.

Lemma length_app_string a b :
  String.length (a +:+ b) = String.length a + String.length b.
Proof. induction a as [|c a IH]; simpl; [reflexivity | now rewrite IH]. Qed.

(** A text in which one of the literal alternatives occurs is matched. *)
Lemma search_literal r rs t s :
  In (Lit t) (r :: rs) ->
  occurs t s ->
  search (literal_i (alts r rs)) s = true.
Proof.
  intros Hin (pre & post & ->). unfold search.
  destruct (scan _ _ 0 _) eqn:E; [reflexivity|exfalso].
  revert E. apply scan_finds with (i := String.length pre).
  - unfold match_at. rewrite drop_chars_app. simpl.
    apply run_alts with (r' := Lit t); [assumption|].
    simpl. rewrite lit_prefix_app. discriminate.
  - rewrite length_app_string. lia.
Qed.

(** Without [g] and [y], [test] is the stateless search and leaves the
    object as it was. *)
Lemma RegExp_test_stateless R S :
  stateless R -> RegExp_test R S = (search R S, R).
Proof.
  intros [Hg Hs]. unfold RegExp_test, search. rewrite Hg, Hs. simpl.
  rewrite Nat.sub_0_r. now destruct (scan R S 0 (String.length S)).
Qed.

(** With [g] the same call on the same text can answer differently. *)
Lemma RegExp_test_global_not_idempotent :
  let R := {| source := Lit "a"; ignoreCase := true; global := true;
              sticky := false; lastIndex := 0 |} in
  fst (RegExp_test R "a") = true /\
  fst (RegExp_test (snd (RegExp_test R "a")) "a") = false.
Proof. split; reflexivity. Qed.

End RegExpFacts.

(** ** The TODO generator's classifier *)

Section TodoGeneratorFacts.
Import Js TodoGenerator.

Lemma set_get_pattern n ps : set_pattern n (get_pattern n ps) ps = ps.
Proof. destruct n, ps; reflexivity. Qed.

(** On an object whose patterns have neither [g] nor [y], a pattern test
    is a search and returns the object unchanged. *)
Lemma pattern_test_stateless n text this :
  stateless (get_pattern n (failurePatterns this)) ->
  pattern_test n text this =
    (search (get_pattern n (failurePatterns this)) text, this).
Proof.
  intros H. unfold pattern_test. rewrite (RegExp_test_stateless _ _ H).
  rewrite set_get_pattern. now destruct this.
Qed.

Lemma new_stateless n : stateless (get_pattern n (failurePatterns new)).
Proof. destruct n; split; reflexivity. Qed.

Lemma pattern_test_new n text : pattern_test n text new = (matches n text, new).
Proof. apply pattern_test_stateless, new_stateless. Qed.

Lemma determinePriority_new failure :
  determinePriority failure new =
    (if matches Crisis (priorityText failure) then "critical"
     else if matches Security (priorityText failure) then "critical"
     else if flagged failure then "high"
     else if matches Performance (priorityText failure) then "medium"
     else "low", new).
Proof.
  unfold determinePriority, bind, ret.
  rewrite pattern_test_new; cbv beta iota.
  destruct (matches Crisis _); [reflexivity|].
  rewrite pattern_test_new; cbv beta iota.
  destruct (matches Security _); [reflexivity|].
  destruct (flagged failure); [reflexivity|].
  rewrite pattern_test_new; cbv beta iota.
  now destruct (matches Performance _).
Qed.

Lemma determineCategory_new failure :
  determineCategory failure new =
    (if matches Crisis (categoryText failure) then "crisis-system"
     else if matches Security (categoryText failure) then "security"
     else if matches Performance (categoryText failure) then "performance"
     else if matches Build (categoryText failure) then "build"
     else "general", new).
Proof.
  unfold determineCategory, bind, ret.
  rewrite pattern_test_new; cbv beta iota.
  destruct (matches Crisis _); [reflexivity|].
  rewrite pattern_test_new; cbv beta iota.
  destruct (matches Security _); [reflexivity|].
  rewrite pattern_test_new; cbv beta iota.
  destruct (matches Performance _); [reflexivity|].
  rewrite pattern_test_new; cbv beta iota.
  now destruct (matches Build _).
Qed.

Lemma classify_new failure :
  classify failure new =
    ((fst (determinePriority failure new), fst (determineCategory failure new)), new).
Proof.
  unfold classify, bind, ret.
  rewrite determinePriority_new; cbv beta iota.
  rewrite determineCategory_new; cbv beta iota.
  reflexivity.
Qed.

Lemma crisis_term_matches c text :
  In c crisis_terms -> occurs c text -> matches Crisis text = true.
Proof.
  intros Hc Ho. unfold matches.
  apply (search_literal (Lit "crisis")
           [Lit "988"; Lit "741741"; Lit "emergency"; Lit "hotline"] c);
    [|assumption].
  simpl in Hc. simpl.
  repeat (destruct Hc as [<-|Hc]; [tauto|]). destruct Hc.
Qed.

End TodoGeneratorFacts.

(** ** The mail monitor's classifier *)

Section EmailBugMonitorFacts.
Import Js EmailBugMonitor.

Lemma monitor_set_get_pattern n ps : set_pattern n (get_pattern n ps) ps = ps.
Proof. destruct n, ps; reflexivity. Qed.

Lemma monitor_pattern_test n content w :
  patterns w = MONITOR_CONFIG_patterns ->
  pattern_test n content w = (Some (matches n content), w).
Proof.
  intros Hw. unfold pattern_test, matches. rewrite Hw.
  rewrite RegExp_test_stateless by (destruct n; split; reflexivity).
  rewrite monitor_set_get_pattern, <- Hw. now destruct w.
Qed.

Lemma classify_classified b w :
  patterns w = MONITOR_CONFIG_patterns ->
  classify b w = (Some (classified b), w).
Proof.
  intros Hw. unfold classify, classified, bind, ret.
  rewrite (monitor_pattern_test _ _ _ Hw).
  destruct (matches Critical _); [reflexivity|].
  rewrite (monitor_pattern_test _ _ _ Hw).
  destruct (matches Security _); [reflexivity|].
  rewrite (monitor_pattern_test _ _ _ Hw).
  now destruct (matches Performance _).
Qed.

Lemma critical_term_matches c content :
  In c critical_terms -> occurs c content -> matches Critical content = true.
Proof.
  intros Hc Ho. unfold matches.
  apply (search_literal (Lit "critical")
           [Lit "urgent"; Lit "emergency"; Lit "crisis"; Lit "down"] c);
    [|assumption].
  simpl in Hc. simpl.
  repeat (destruct Hc as [<-|Hc]; [tauto|]). destruct Hc.
Qed.

Lemma contentOf_set_priority p b : contentOf (set_priority p b) = contentOf b.
Proof. reflexivity. Qed.

(** What [processEmail] does once the report is classified. *)
Lemma processEmail_unfold env id now created email w :
  patterns w = MONITOR_CONFIG_patterns ->
  processEmail env id now created email w =
    let b := classified (newBugReport id now email) in
    if matches Bug (contentOf (newBugReport id now email))
    then bind (saveBugReport env b)
           (fun _ => bind (createTodoFromBug env created b)
                       (fun _ => sendAcknowledgment env b)) w
    else (Some tt, w).
Proof.
  intros Hw. unfold processEmail, bind at 1.
  rewrite (classify_classified _ _ Hw). unfold bind at 1.
  rewrite (monitor_pattern_test _ _ _ Hw).
  now destruct (matches Bug _).
Qed.

End EmailBugMonitorFacts.

(** ** Claims about the classifiers *)

(** The monitor's critical pattern lacks the terms 988, 741741 and hotline:
    a mail with one of them and a security term is categorised [security]. *)
Example mail_monitor_hotline_security :
  EmailBugMonitor.br_category
    (EmailBugMonitor.classified
       (EmailBugMonitor.newBugReport "BUG-1" "now"
          {| EmailBugMonitor.from_text := None;
             EmailBugMonitor.subject := Some "988 hotline";
             EmailBugMonitor.date := None;
             EmailBugMonitor.text := Some "security issue";
             EmailBugMonitor.html := None;
             EmailBugMonitor.attachments := None |})) = "security".
Proof. reflexivity. Qed.

(** C3, as stated, fails on the mail monitor: the mail with subject
    "Crisis line" and text "security issue" has the crisis term "crisis"
    and the security term "security", and its category is [general], not
    [crisis-system]. *)
Lemma mail_monitor_has_no_crisis_category :
  ~ (forall b : EmailBugMonitor.BugReport,
       (exists c, In c TodoGenerator.crisis_terms /\ Js.occurs c (EmailBugMonitor.contentOf b)) ->
       (exists s, In s EmailBugMonitor.security_terms /\ Js.occurs s (EmailBugMonitor.contentOf b)) ->
       forall w, EmailBugMonitor.patterns w = EmailBugMonitor.MONITOR_CONFIG_patterns ->
       option_map EmailBugMonitor.br_category (fst (EmailBugMonitor.classify b w))
         = Some "crisis-system").
Proof.
  intros H.
  specialize (H (EmailBugMonitor.newBugReport "BUG-1" "now"
                   {| EmailBugMonitor.from_text := None;
                      EmailBugMonitor.subject := Some "Crisis line";
                      EmailBugMonitor.date := None;
                      EmailBugMonitor.text := Some "security issue";
                      EmailBugMonitor.html := None;
                      EmailBugMonitor.attachments := None |})).
  assert (Hc : exists c, In c TodoGenerator.crisis_terms /\
             Js.occurs c "crisis line security issue").
  { exists "crisis". split; [simpl; tauto|]. exists "", " line security issue". reflexivity. }
  assert (Hs : exists s, In s EmailBugMonitor.security_terms /\
             Js.occurs s "crisis line security issue").
  { exists "security". split; [simpl; tauto|]. exists "crisis line ", " issue". reflexivity. }
  specialize (H Hc Hs EmailBugMonitor.new_world eq_refl).
  vm_compute in H. discriminate H.
Qed.

(** C3 (amended): the TODO generator checks crisis, security, performance,
    build for the category and crisis, security, the severity/blocking
    flags, performance for the priority, and the first match decides; so a
    text with a crisis term and a security term gets category
    [crisis-system].  The mail monitor checks its own patterns critical,
    security, performance; a mail whose text has one of the terms critical,
    urgent, emergency, crisis, down and a security term gets priority
    [critical] and keeps category [general], hence is never [security]. *)
Theorem classifier_precedence :
  (forall failure,
     TodoGenerator.determineCategory failure TodoGenerator.new =
       (if TodoGenerator.matches TodoGenerator.Crisis (TodoGenerator.categoryText failure)
        then "crisis-system"
        else if TodoGenerator.matches TodoGenerator.Security (TodoGenerator.categoryText failure)
        then "security"
        else if TodoGenerator.matches TodoGenerator.Performance (TodoGenerator.categoryText failure)
        then "performance"
        else if TodoGenerator.matches TodoGenerator.Build (TodoGenerator.categoryText failure)
        then "build"
        else "general", TodoGenerator.new)) /\
  (forall failure,
     TodoGenerator.determinePriority failure TodoGenerator.new =
       (if TodoGenerator.matches TodoGenerator.Crisis (TodoGenerator.priorityText failure)
        then "critical"
        else if TodoGenerator.matches TodoGenerator.Security (TodoGenerator.priorityText failure)
        then "critical"
        else if TodoGenerator.flagged failure then "high"
        else if TodoGenerator.matches TodoGenerator.Performance (TodoGenerator.priorityText failure)
        then "medium"
        else "low", TodoGenerator.new)) /\
  (forall failure c s,
     In c TodoGenerator.crisis_terms -> In s TodoGenerator.security_terms ->
     Js.occurs c (TodoGenerator.categoryText failure) ->
     Js.occurs s (TodoGenerator.categoryText failure) ->
     fst (TodoGenerator.determineCategory failure TodoGenerator.new) = "crisis-system") /\
  (forall b w,
     EmailBugMonitor.patterns w = EmailBugMonitor.MONITOR_CONFIG_patterns ->
     EmailBugMonitor.classify b w = (Some (EmailBugMonitor.classified b), w)) /\
  (forall id now email c s,
     let b := EmailBugMonitor.newBugReport id now email in
     In c EmailBugMonitor.critical_terms -> In s EmailBugMonitor.security_terms ->
     Js.occurs c (EmailBugMonitor.contentOf b) ->
     Js.occurs s (EmailBugMonitor.contentOf b) ->
     EmailBugMonitor.br_priority (EmailBugMonitor.classified b) = "critical" /\
     EmailBugMonitor.br_category (EmailBugMonitor.classified b) = "general").
Proof.
  split; [exact determineCategory_new|].
  split; [exact determinePriority_new|].
  split.
  { intros failure c s Hc _ Ho _. rewrite determineCategory_new.
    now rewrite (crisis_term_matches c _ Hc Ho). }
  split; [exact classify_classified|].
  intros id now email c s b Hc _ Ho _. unfold EmailBugMonitor.classified.
  rewrite (critical_term_matches c _ Hc Ho). split; reflexivity.
Qed.

Lemma classifier_precedence_witness :
  fst (TodoGenerator.determineCategory
         {| TodoGenerator.error := Some "Security breach on the CRISIS page";
            TodoGenerator.message := None; TodoGenerator.name := None;
            TodoGenerator.severity := None; TodoGenerator.blocking := false |}
         TodoGenerator.new) = "crisis-system".
Proof.
  apply (proj1 (proj2 (proj2 classifier_precedence)) _ "crisis" "security").
  - simpl; tauto.
  - simpl; tauto.
  - exists "security breach on the ", " page undefined undefined". reflexivity.
  - exists "", " breach on the crisis page undefined undefined". reflexivity.
Defined.

(** C7, as stated, fails: a failure whose text fields are all absent but
    whose severity is 'critical' gets priority [high], not [low]. *)
Lemma blank_text_flagged_is_not_low :
  ~ (forall failure,
       TodoGenerator.blank (TodoGenerator.error failure) ->
       TodoGenerator.blank (TodoGenerator.message failure) ->
       TodoGenerator.blank (TodoGenerator.name failure) ->
       fst (TodoGenerator.classify failure TodoGenerator.new) = ("low", "general")).
Proof.
  intros H.
  specialize (H {| TodoGenerator.error := None; TodoGenerator.message := None;
                   TodoGenerator.name := None;
                   TodoGenerator.severity := Some "critical";
                   TodoGenerator.blocking := false |}
                (or_introl eq_refl) (or_introl eq_refl) (or_introl eq_refl)).
  vm_compute in H. discriminate H.
Qed.

(** C7 (amended): for every failure whose text fields error, message and
    name are absent or empty, classification returns without error, the
    category is [general], and the priority is [low] unless the severity is
    'critical' or the blocking flag is set, in which case it is [high]; the
    result is the one obtained with the three fields set to the empty
    string. *)
Theorem blank_text_classification failure :
  TodoGenerator.blank (TodoGenerator.error failure) ->
  TodoGenerator.blank (TodoGenerator.message failure) ->
  TodoGenerator.blank (TodoGenerator.name failure) ->
  TodoGenerator.classify failure TodoGenerator.new =
    ((if TodoGenerator.flagged failure then "high" else "low", "general"),
     TodoGenerator.new) /\
  TodoGenerator.classify failure TodoGenerator.new =
    TodoGenerator.classify (TodoGenerator.with_empty_text failure) TodoGenerator.new.
Proof.
  intros He Hm Hn.
  assert (Hflag : TodoGenerator.flagged (TodoGenerator.with_empty_text failure)
                  = TodoGenerator.flagged failure) by reflexivity.
  rewrite !classify_new, !determinePriority_new, !determineCategory_new, Hflag.
  unfold TodoGenerator.priorityText, TodoGenerator.categoryText.
  destruct failure as [e m n sev blk]. simpl in He, Hm, Hn |- *.
  set (f := TodoGenerator.flagged _). clearbody f.
  destruct He as [-> | ->], Hm as [-> | ->], Hn as [-> | ->];
    vm_compute; destruct f; split; reflexivity.
Qed.

Lemma blank_text_classification_witness :
  TodoGenerator.classify
    {| TodoGenerator.error := None; TodoGenerator.message := Some "";
       TodoGenerator.name := None; TodoGenerator.severity := Some "minor";
       TodoGenerator.blocking := false |} TodoGenerator.new
  = (("low", "general"), TodoGenerator.new).
Proof.
  apply (proj1 (blank_text_classification
                  {| TodoGenerator.error := None; TodoGenerator.message := Some "";
                     TodoGenerator.name := None;
                     TodoGenerator.severity := Some "minor";
                     TodoGenerator.blocking := false |}
                  (or_introl eq_refl) (or_intror eq_refl) (or_introl eq_refl))).
Defined.

(** C8: classification is deterministic and has no side effect: on the
    generator object (whose patterns carry only the [i] flag) it returns the
    object unchanged, so a second evaluation on the same failure yields the
    same (priority, category). *)
Theorem classify_idempotent failure :
  snd (TodoGenerator.classify failure TodoGenerator.new) = TodoGenerator.new /\
  fst (TodoGenerator.classify failure
         (snd (TodoGenerator.classify failure TodoGenerator.new)))
  = fst (TodoGenerator.classify failure TodoGenerator.new).
Proof.
  pose proof (classify_new failure) as H.
  rewrite H. cbn [fst snd]. rewrite H. split; reflexivity.
Qed.

(** C10, as stated, fails: a mail that matches the bug pattern does not
    always get all three outputs.  When the notification awaited at line
    266 is rejected, [processEmail] is rejected there: the bug report and
    the TODO are on disk and no acknowledgment is written. *)
Lemma rejected_notification_leaves_no_acknowledgment :
  exists w',
    EmailBugMonitor.processEmail
      (fun op => match op with
                 | EmailBugMonitor.SendNotification _ => false
                 | _ => true
                 end)
      "BUG-1-abc" "2026-01-01T00:00:01.000Z" "2026-01-01T00:00:01.005Z"
      {| EmailBugMonitor.from_text := Some "test@example.com";
         EmailBugMonitor.subject := Some "Login error";
         EmailBugMonitor.date := None;
         EmailBugMonitor.text := Some "The page shows an error.";
         EmailBugMonitor.html := None;
         EmailBugMonitor.attachments := None |}
      EmailBugMonitor.new_world = (None, w') /\
    EmailBugMonitor.matches EmailBugMonitor.Bug "login error the page shows an error."
      = true /\
    EmailBugMonitor.files w' !! EmailBugMonitor.bugReportPath "BUG-1-abc" <> None /\
    EmailBugMonitor.files w' !! EmailBugMonitor.todoPath "BUG-1-abc" <> None /\
    EmailBugMonitor.files w' !! EmailBugMonitor.ackPath "BUG-1-abc" = None /\
    size (EmailBugMonitor.files w') = 2 /\
    length (EmailBugMonitor.bugReports w') = 1.
Proof.
  eexists. split; [vm_compute; reflexivity|].
  split; [vm_compute; reflexivity|].
  split; [vm_compute; discriminate|]. split; [vm_compute; discriminate|].
  split; [vm_compute; reflexivity|]. split; vm_compute; reflexivity.
Qed.

(** C10 (amended): [processEmail] writes nothing unless the lower-cased
    subject and body match the bug pattern: without a match the world is
    left as it was, whatever the other patterns say.  With a match the call
    resolves exactly when all seven awaited calls resolve (the three
    [mkdir]s, the three [writeFile]s and the notification), and then the
    bug report file, the TODO file and the acknowledgment file are written,
    the report is remembered and a [bug_report] notification is submitted;
    when one of them is rejected the call is rejected.  A mail that matches
    the critical pattern has priority [critical] and category [general]. *)
Theorem processEmail_outputs env id now created email w :
  EmailBugMonitor.patterns w = EmailBugMonitor.MONITOR_CONFIG_patterns ->
  let content := EmailBugMonitor.contentOf (EmailBugMonitor.newBugReport id now email) in
  let b := EmailBugMonitor.classified (EmailBugMonitor.newBugReport id now email) in
  let awaited := [EmailBugMonitor.Mkdir EmailBugMonitor.bugDir;
                  EmailBugMonitor.WriteFile (EmailBugMonitor.bugReportPath id);
                  EmailBugMonitor.Mkdir EmailBugMonitor.todoDir;
                  EmailBugMonitor.WriteFile (EmailBugMonitor.todoPath id);
                  EmailBugMonitor.SendNotification "bug_report";
                  EmailBugMonitor.Mkdir EmailBugMonitor.ackDir;
                  EmailBugMonitor.WriteFile (EmailBugMonitor.ackPath id)] in
  (EmailBugMonitor.matches EmailBugMonitor.Bug content = false ->
     EmailBugMonitor.processEmail env id now created email w = (Some tt, w)) /\
  (EmailBugMonitor.matches EmailBugMonitor.Bug content = true ->
   (fst (EmailBugMonitor.processEmail env id now created email w) = Some tt <->
    forallb env awaited = true) /\
   (forallb env awaited = true ->
     EmailBugMonitor.processEmail env id now created email w =
       (Some tt,
        {| EmailBugMonitor.patterns := EmailBugMonitor.patterns w;
           EmailBugMonitor.bugReports := EmailBugMonitor.bugReports w ++ [b];
           EmailBugMonitor.files :=
             <[EmailBugMonitor.ackPath id := EmailBugMonitor.AckJson (EmailBugMonitor.ackFor b)]>
               (<[EmailBugMonitor.todoPath id :=
                    EmailBugMonitor.TodoJson (EmailBugMonitor.todoFromBug b created)]>
                  (<[EmailBugMonitor.bugReportPath id := EmailBugMonitor.BugReportJson b]>
                     (EmailBugMonitor.files w)));
           EmailBugMonitor.notifications :=
             EmailBugMonitor.notifications w ++
               [{| EmailBugMonitor.n_type := "bug_report";
                   EmailBugMonitor.n_data :=
                     [("bugId", id);
                      ("title", EmailBugMonitor.br_subject b);
                      ("priority", EmailBugMonitor.br_priority b);
                      ("todoId", "TODO-" +:+ id)] |}] |}))) /\
  (EmailBugMonitor.matches EmailBugMonitor.Critical content = true ->
     EmailBugMonitor.br_priority b = "critical" /\
     EmailBugMonitor.br_category b = "general").
Proof.
  intros Hw content b awaited.
  assert (Hid : EmailBugMonitor.br_id b = id).
  { unfold b, EmailBugMonitor.classified.
    repeat match goal with |- context [if ?c then _ else _] => destruct c end;
      reflexivity. }
  split; [|split].
  - intros Hno. rewrite (processEmail_unfold _ _ _ _ _ _ Hw).
    fold content. now rewrite Hno.
  - intros Hyes. rewrite (processEmail_unfold _ _ _ _ _ _ Hw).
    fold content b. rewrite Hyes. cbv zeta.
    unfold EmailBugMonitor.saveBugReport, EmailBugMonitor.createTodoFromBug,
      EmailBugMonitor.sendAcknowledgment, EmailBugMonitor.bind,
      EmailBugMonitor.mkdir, EmailBugMonitor.writeFile,
      EmailBugMonitor.push_bugReport, EmailBugMonitor.sendNotification.
    rewrite !Hid. cbn [EmailBugMonitor.todo_id EmailBugMonitor.todoFromBug].
    rewrite ?Hid. unfold awaited. cbn [forallb].
    destruct (env (EmailBugMonitor.Mkdir EmailBugMonitor.bugDir));
      [|split; [split; discriminate | discriminate]].
    cbn [fst snd andb].
    destruct (env (EmailBugMonitor.WriteFile (EmailBugMonitor.bugReportPath id)));
      [|split; [split; discriminate | discriminate]].
    cbn [fst snd andb EmailBugMonitor.files EmailBugMonitor.patterns
         EmailBugMonitor.bugReports EmailBugMonitor.notifications].
    destruct (env (EmailBugMonitor.Mkdir EmailBugMonitor.todoDir));
      [|split; [split; discriminate | discriminate]].
    cbn [fst snd andb].
    destruct (env (EmailBugMonitor.WriteFile (EmailBugMonitor.todoPath id)));
      [|split; [split; discriminate | discriminate]].
    cbn [fst snd andb EmailBugMonitor.files EmailBugMonitor.patterns
         EmailBugMonitor.bugReports EmailBugMonitor.notifications].
    destruct (env (EmailBugMonitor.SendNotification "bug_report"));
      [|split; [split; discriminate | discriminate]].
    cbn [fst snd andb].
    destruct (env (EmailBugMonitor.Mkdir EmailBugMonitor.ackDir));
      [|split; [split; discriminate | discriminate]].
    cbn [fst snd andb].
    destruct (env (EmailBugMonitor.WriteFile (EmailBugMonitor.ackPath id)));
      [|split; [split; discriminate | discriminate]].
    cbn [fst snd andb EmailBugMonitor.files EmailBugMonitor.patterns
         EmailBugMonitor.bugReports EmailBugMonitor.notifications].
    split; [split; reflexivity|]. intros _. reflexivity.
  - intros Hc. unfold b, EmailBugMonitor.classified. fold content.
    rewrite Hc. split; reflexivity.
Qed.

Lemma processEmail_outputs_witness :
  exists w',
    EmailBugMonitor.processEmail (fun _ => true) "BUG-1-abc"
      "2026-01-01T00:00:01.000Z" "2026-01-01T00:00:01.005Z"
      {| EmailBugMonitor.from_text := Some "test@example.com";
         EmailBugMonitor.subject := Some "Critical bug in login system";
         EmailBugMonitor.date := Some "2026-01-01T00:00:00.000Z";
         EmailBugMonitor.text :=
           Some "Users cannot login. This is critical and needs urgent attention.";
         EmailBugMonitor.html := None;
         EmailBugMonitor.attachments := None |}
      EmailBugMonitor.new_world = (Some tt, w') /\
    size (EmailBugMonitor.files w') = 3 /\
    EmailBugMonitor.files w' !! "bug-reports/acknowledgments/BUG-1-abc-ack.json"
      <> None /\
    map EmailBugMonitor.br_priority (EmailBugMonitor.bugReports w') = ["critical"] /\
    map EmailBugMonitor.br_category (EmailBugMonitor.bugReports w') = ["general"].
Proof.
  match goal with
  | |- exists w', EmailBugMonitor.processEmail ?env ?id ?now ?created ?email ?w = _ /\ _ =>
      destruct (processEmail_outputs env id now created email w eq_refl)
        as (_ & Hyes & _);
      destruct (Hyes ltac:(vm_compute; reflexivity)) as [_ Hrun];
      eexists; split; [exact (Hrun eq_refl)|]
  end.
  split; [vm_compute; reflexivity|].
  split; [vm_compute; discriminate|].
  split; vm_compute; reflexivity.
Defined.

(** ** The dispatcher: invariants of every run *)

Section DispatcherInvariants.
Import Js EmailNotifications.

Ltac core_auto :=
  simpl; rewrite ?app_nil_r; try assumption; try (intros; congruence);
  try easy; try (intros _; assumption);
  try (intros _; match goal with
                 | H : _ <> [] -> _ |- _ => apply H; discriminate
                 end);
  try (repeat constructor; fail).

Lemma replay_snoc ws path entry :
  replay (ws ++ [(path, entry)]) = <[path := entry]> (replay ws).
Proof. unfold replay. now rewrite foldl_app. Qed.

Lemma writes_snoc h m o :
  writes (h ++ [(m, o)]) =
    writes h ++ match o with Persisted path entry => [(path, entry)] | _ => [] end.
Proof. unfold writes. rewrite flat_map_app. simpl. now rewrite app_nil_r. Qed.

Lemma Core_new : Core [] new [].
Proof.
  constructor; simpl; auto; try easy.
  - constructor.
Qed.

(** Only the fields a step touches matter: [Core] does not read the
    activations or the transporter of the state. *)
Lemma Core_set_drains ds ds' s subs :
  Core ds s subs -> Core ds (set_drains ds' s) subs.
Proof. intros []; constructor; assumption. Qed.

Lemma Core_set_transporter ds b s subs :
  Core ds s subs -> Core ds (set_transporter b s) subs.
Proof. intros []; constructor; assumption. Qed.

(** In a state that satisfies [Core], the identifiers of the messages
    still queued are neither in the history nor in flight. *)
Lemma queued_not_consumed ds s subs m rest :
  Core ds s subs -> queue s = m :: rest ->
  ~ In (id m) (map id (map fst (history s) ++ map current ds)) /\
  ~ In (id m) (map id rest).
Proof.
  intros H Hq.
  pose proof (c_account _ _ _ H) as Hacc. pose proof (c_ids _ _ _ H) as Hids.
  rewrite Hq in Hacc. rewrite <- Hacc in Hids.
  assert (Hnd : List.NoDup (map id ((map fst (history s) ++ map current ds) ++ m :: rest))).
  { rewrite <- app_assoc, Hids. apply List.seq_NoDup. }
  rewrite map_app in Hnd. simpl in Hnd.
  apply List.NoDup_remove in Hnd. destruct Hnd as [_ Hnot].
  split; intros Hin; apply Hnot; apply in_or_app; auto.
Qed.

Lemma settle_fields c ok s :
  transporter (settle c ok s) = transporter s /\
  queue (settle c ok s) = queue s /\
  isProcessing (settle c ok s) = isProcessing s /\
  drains (settle c ok s) = drains s /\
  files (settle c ok s) = files s /\
  nextId (settle c ok s) = nextId s /\
  history (settle c ok s) = history s /\
  attempts (settle c ok s) = attempts s.
Proof. destruct c; simpl; repeat split. Qed.

(** Settling the promise of a call that is below [nextId] keeps [Core]
    when that call no longer awaits an activation of [ds]. *)
Lemma Core_settle ds c ok s subs :
  Core ds s subs ->
  (forall n, c = Some n -> n < nextId s) ->
  (forall d n, In d ds -> caller d = Some n -> c <> Some n) ->
  Core ds (settle c ok s) subs.
Proof.
  intros H Hc Hother. destruct c as [n0|]; [|exact H].
  destruct H. constructor; simpl; try assumption.
  - intros d n Hd Hn. destruct (c_callers0 d n Hd Hn) as [Hlt Hnot].
    split; [assumption|]. rewrite map_app, in_app_iff. simpl.
    intros [Hin | [-> | []]]; [contradiction|].
    now apply (Hother d n Hd Hn).
  - intros n. rewrite map_app, in_app_iff. simpl.
    intros [Hin | [<- | []]]; auto.
Qed.

(** The loop test, entered with the flag set and nothing suspended. *)
Lemma loop_Inv c s subs :
  Core [] s subs ->
  drains s = [] ->
  isProcessing s = true ->
  (forall n, c = Some n -> n < nextId s /\ ~ In n (map fst (settled s))) ->
  Inv (loop c s) subs.
Proof.
  intros H Hdr Hflag Hc. unfold loop, Inv.
  destruct (queue s) as [|m rest] eqn:Hq.
  - destruct (settle_fields c true (set_isProcessing false s)) as (_&_&_&->&_).
    simpl. rewrite Hdr. apply Core_settle.
    + destruct H. rewrite Hq in c_account0.
      constructor; simpl; rewrite ?Hq; try assumption; easy.
    + intros n Hn. now apply Hc.
    + intros d n [].
  - destruct (queued_not_consumed _ _ _ _ _ H Hq) as [Hfresh Hrest].
    simpl in Hfresh. rewrite app_nil_r in Hfresh.
    destruct H. rewrite Hq in c_account0. simpl in c_account0.
    destruct (transporter (set_queue rest s)); simpl; rewrite Hdr; simpl.
    + constructor; core_auto.
      * apply List.NoDup_app; [assumption | repeat constructor; simpl; tauto |].
        intros n Hn [<-|[]]. apply Hfresh.
        apply c_attempts_in0 in Hn. simpl in Hn. now rewrite app_nil_r in Hn.
      * intros n. rewrite in_app_iff, map_app, in_app_iff. simpl.
        intros [Hn | [<-|[]]]; [left|right; left; reflexivity].
        apply c_attempts_in0 in Hn. simpl in Hn. now rewrite app_nil_r in Hn.
      * intros d n [<-|[]] Hn. simpl in Hn. now apply Hc.
    + constructor; core_auto.
      * intros n Hn. apply c_attempts_in0 in Hn. simpl in Hn.
        rewrite app_nil_r in Hn. rewrite map_app, in_app_iff. now left.
      * intros d n [<-|[]] Hn. simpl in Hn. now apply Hc.
Qed.

(** The activation moves on to another [await] with the same message. *)
Lemma Core_retarget d a s subs :
  Core [d] s subs ->
  match a with
  | LogWrite _ path entry => fallback_of (current d) path entry
  | _ => True
  end ->
  Core [{| caller := caller d; current := current d; awaiting := a |}] s subs.
Proof.
  intros [] Ha. constructor; core_auto.
  - repeat constructor. exact Ha.
  - intros d' n [<-|[]] Hn. simpl in Hn. apply (c_callers0 d n); simpl; auto.
Qed.

(** The loop is done with the message of the activation. *)
Lemma Core_consume d o s subs :
  Core [d] s subs ->
  match o with
  | Persisted path entry =>
      awaiting d = LogWrite true path entry \/ awaiting d = LogWrite false path entry
  | _ => True
  end ->
  Core [] (record_outcome (current d) o
             (match o with
              | Persisted path entry => set_files (<[path := entry]> (files s)) s
              | _ => s
              end)) subs.
Proof.
  intros [] Ho.
  assert (Hfall : match o with
                  | Persisted path entry => fallback_of (current d) path entry
                  | _ => True
                  end).
  { destruct o; auto. inversion c_pending0 as [|? ? Hd _]; subst.
    destruct Ho as [Ho|Ho]; rewrite Ho in Hd; exact Hd. }
  simpl in c_account0, c_attempts_in0.
  constructor; destruct o; core_auto;
    try (rewrite map_app; simpl; rewrite <- app_assoc; exact c_account0);
    try (intros n Hn; apply c_attempts_in0 in Hn;
         rewrite map_app; simpl; exact Hn);
    try (rewrite writes_snoc, ?app_nil_r; assumption);
    try (apply Forall_app; split; [assumption | repeat constructor; assumption]).
  rewrite writes_snoc, replay_snoc. now rewrite c_files0.
Qed.

Lemma Inv_one_drain s subs i d :
  Inv s subs -> drains s !! i = Some d -> drains s = [d] /\ i = 0.
Proof.
  intros H Hi. pose proof (c_one _ _ _ H) as Hlen.
  destruct (drains s) as [|d0 [|d1 ds]]; simpl in Hlen; [discriminate| |lia].
  destruct i as [|i]; simpl in Hi; [|discriminate].
  split; congruence.
Qed.

(** A message enters the queue while the flag is, or is being, set. *)
Lemma Core_enqueue ds s subs m :
  Core ds s subs ->
  id m = nextId s ->
  Core ds (set_isProcessing true
             (set_nextId (S (nextId s)) (set_queue (queue s ++ [m]) s)))
       (subs ++ [m]).
Proof.
  intros [] Hm.
  assert (Hids : map id (subs ++ [m]) = seq 0 (S (nextId s))).
  { rewrite map_app, c_ids0, seq_S, <- Hm. reflexivity. }
  constructor; core_auto.
  - rewrite <- c_account0. now rewrite <- !app_assoc.
  - intros d n Hd Hn. destruct (c_callers0 d n Hd Hn). split; [lia|assumption].
  - intros n Hn. apply c_settled0 in Hn. lia.
Qed.

Lemma set_isProcessing_same s :
  set_isProcessing (isProcessing s) s = s.
Proof. now destruct s. Qed.

(** Every step preserves the invariant; a call of [sendNotification] adds
    its message to the submissions. *)
Lemma step_Inv s ev s' subs :
  Inv s subs ->
  step s ev = Some s' ->
  Inv s' (subs ++ submissions (nextId s) [ev]).
Proof.
  intros H Hstep.
  destruct ev as [|type body now| |i|i|i now1 now2|i|i]; simpl in Hstep;
    simpl submissions; rewrite ?app_nil_r.
  - (* Initialize *)
    injection Hstep as <-. now apply Core_set_transporter.
  - (* SendNotification *)
    injection Hstep as <-. unfold sendNotification.
    set (m := {| id := nextId s; mail := emailData type body now |}).
    pose proof (Core_enqueue _ _ _ m H eq_refl) as Hq.
    simpl isProcessing. destruct (isProcessing s) eqn:Hflag; simpl negb; cbv iota.
    + (* a drain is in progress *)
      set (s1 := set_nextId (S (nextId s)) (set_queue (queue s ++ [m]) s)) in *.
      assert (Hsame : set_isProcessing true s1 = s1).
      { unfold s1, set_isProcessing, set_nextId, set_queue. simpl.
        now rewrite Hflag. }
      rewrite Hsame in Hq. unfold Inv.
      change (drains (settle (Some (nextId s)) true s1)) with (drains s).
      apply Core_settle.
      * exact Hq.
      * intros n [= <-]. simpl. lia.
      * intros d n Hd Hn [= <-].
        destruct (c_callers _ _ _ H d _ Hd Hn). lia.
    + (* no drain: this call starts one *)
      assert (Hdr : drains s = []).
      { destruct (drains s) eqn:E; [reflexivity|].
        assert (isProcessing s = true); [|congruence].
        apply (c_flag _ _ _ H). rewrite E. discriminate. }
      rewrite (c_idle _ _ _ H Hflag) in *. unfold processQueue. simpl.
      rewrite Hflag. simpl.
      change (Inv (loop (Some (nextId s))
                     (set_isProcessing true
                        (set_nextId (S (nextId s)) (set_queue ([] ++ [m]) s))))
                  (subs ++ [m])).
      apply loop_Inv; simpl; auto.
      * rewrite Hdr in Hq. exact Hq.
      * intros n [= <-]. split; [lia|].
        intros Hin. apply (c_settled _ _ _ H) in Hin. lia.
  - (* ProcessQueue *)
    injection Hstep as <-. unfold processQueue.
    destruct (isProcessing s) eqn:Hflag.
    + rewrite orb_true_r. exact H.
    + rewrite (c_idle _ _ _ H Hflag). exact H.
  - (* SendMailResolved *)
    destruct (drains s !! i) as [d|] eqn:Hi; [|discriminate].
    destruct (Inv_one_drain _ _ _ _ H Hi) as [Hdr ->].
    unfold Inv in H. rewrite Hdr in *. simpl in Hstep.
    unfold resume in Hstep.
    destruct (awaiting d) as [|[|]|[|] path entry] eqn:Ha;
      simpl in Hstep; try discriminate.
    injection Hstep as <-.
    apply loop_Inv; simpl; auto.
    + apply (Core_consume d Delivered (set_drains [] s));
        [apply Core_set_drains; exact H | exact I].
    + apply (c_flag _ _ _ H). discriminate.
    + intros n Hn. apply (c_callers _ _ _ H d n); simpl; auto.
  - (* SendMailRejected *)
    destruct (drains s !! i) as [d|] eqn:Hi; [|discriminate].
    destruct (Inv_one_drain _ _ _ _ H Hi) as [Hdr ->].
    unfold Inv in H. rewrite Hdr in *. simpl in Hstep.
    unfold resume in Hstep.
    destruct (awaiting d) as [|[|]|[|] path entry] eqn:Ha;
      simpl in Hstep; try discriminate.
    injection Hstep as <-.
    apply Core_set_drains, (Core_retarget d (LogMkdir true));
      [apply Core_set_drains; exact H | exact I].
  - (* MkdirResolved *)
    destruct (drains s !! i) as [d|] eqn:Hi; [|discriminate].
    destruct (Inv_one_drain _ _ _ _ H Hi) as [Hdr ->].
    unfold Inv in H. rewrite Hdr in *. simpl in Hstep.
    unfold resume in Hstep.
    destruct (awaiting d) as [|inCatch|[|] path entry] eqn:Ha;
      simpl in Hstep; try discriminate.
    assert (s' = suspend {| caller := caller d; current := current d;
                            awaiting := LogWrite inCatch
                                          (logPath now1 (mail (current d)))
                                          (logEntry (mail (current d)) now2) |}
                         (set_drains [] s)) as ->
      by (destruct inCatch; injection Hstep as <-; reflexivity).
    apply Core_set_drains,
      (Core_retarget d (LogWrite inCatch (logPath now1 (mail (current d)))
                          (logEntry (mail (current d)) now2)));
      [apply Core_set_drains; exact H | now exists now1, now2].
  - (* WriteFileResolved *)
    destruct (drains s !! i) as [d|] eqn:Hi; [|discriminate].
    destruct (Inv_one_drain _ _ _ _ H Hi) as [Hdr ->].
    unfold Inv in H. rewrite Hdr in *. simpl in Hstep.
    unfold resume in Hstep.
    destruct (awaiting d) as [|[|]|inCatch path entry] eqn:Ha;
      simpl in Hstep; try discriminate.
    assert (s' = loop (caller d)
                   (record_outcome (current d) (Persisted path entry)
                      (set_files (<[path := entry]> (files (set_drains [] s)))
                                 (set_drains [] s)))) as ->
      by (destruct inCatch; injection Hstep as <-; reflexivity).
    apply loop_Inv; simpl; auto.
    + apply (Core_consume d (Persisted path entry) (set_drains [] s)).
      * apply Core_set_drains; auto.
      * destruct inCatch; auto.
    + apply (c_flag _ _ _ H). discriminate.
    + intros n Hn. apply (c_callers _ _ _ H d n); simpl; auto.
  - (* FsRejected *)
    destruct (drains s !! i) as [d|] eqn:Hi; [|discriminate].
    destruct (Inv_one_drain _ _ _ _ H Hi) as [Hdr ->].
    unfold Inv in H. rewrite Hdr in *. simpl in Hstep.
    unfold resume in Hstep.
    destruct (awaiting d) as [|[|]|[|] path entry] eqn:Ha; simpl in Hstep;
      try discriminate; injection Hstep as <-.
    + (* logToFile threw inside the catch block *)
      unfold Inv.
      destruct (settle_fields (caller d) false
                  (record_outcome (current d) Dropped (set_drains [] s)))
        as (_&_&_&->&_).
      simpl drains. apply Core_settle.
      * apply (Core_consume d Dropped (set_drains [] s));
          [apply Core_set_drains; exact H | exact I].
      * intros n Hn. apply (c_callers _ _ _ H d n); simpl; auto.
      * intros d' n [].
    + apply Core_set_drains, (Core_retarget d (LogMkdir true));
        [apply Core_set_drains; exact H | exact I].
    + unfold Inv.
      destruct (settle_fields (caller d) false
                  (record_outcome (current d) Dropped (set_drains [] s)))
        as (_&_&_&->&_).
      simpl drains. apply Core_settle.
      * apply (Core_consume d Dropped (set_drains [] s));
          [apply Core_set_drains; exact H | exact I].
      * intros n Hn. apply (c_callers _ _ _ H d n); simpl; auto.
      * intros d' n [].
    + apply Core_set_drains, (Core_retarget d (LogMkdir true));
        [apply Core_set_drains; exact H | exact I].
Qed.

Lemma Inv_nextId s subs : Inv s subs -> nextId s = length subs.
Proof.
  intros H. pose proof (c_ids _ _ _ H) as Hids.
  apply (f_equal (@length nat)) in Hids.
  now rewrite length_map, length_seq in Hids.
Qed.

Lemma exec_Inv evs : forall s s' subs,
  Inv s subs ->
  exec s evs = Some s' ->
  Inv s' (subs ++ submissions (nextId s) evs).
Proof.
  induction evs as [|ev evs IH]; intros s s' subs H Hexec; simpl in Hexec.
  - injection Hexec as <-. simpl. now rewrite app_nil_r.
  - destruct (step s ev) as [s1|] eqn:Hstep; [|discriminate].
    pose proof (step_Inv _ _ _ _ H Hstep) as H1.
    pose proof (IH _ _ _ H1 Hexec) as H'.
    assert (Hsplit : submissions (nextId s) (ev :: evs) =
                     submissions (nextId s) [ev] ++ submissions (nextId s1) evs).
    { rewrite (Inv_nextId _ _ H1), length_app, <- (Inv_nextId _ _ H).
      destruct ev; simpl; rewrite ?Nat.add_0_r, ?Nat.add_1_r; reflexivity. }
    rewrite Hsplit, app_assoc. exact H'.
Qed.

(** The invariant holds in every state reached from a fresh service. *)
Lemma reachable_Inv evs s :
  exec new evs = Some s -> Inv s (submissions 0 evs).
Proof. intros H. exact (exec_Inv evs new s [] Core_new H). Qed.

(** On a reachable state a direct call of [processQueue] changes nothing. *)
Lemma processQueue_noop s subs : Inv s subs -> processQueue None s = s.
Proof.
  intros H. unfold processQueue. destruct (isProcessing s) eqn:Hflag.
  - now rewrite orb_true_r.
  - now rewrite (c_idle _ _ _ H Hflag).
Qed.

Lemma loop_history c s : history (loop c s) = history s.
Proof.
  unfold loop. destruct (queue s); [|destruct (transporter _)]; simpl;
    [|reflexivity|reflexivity].
  now destruct (settle_fields c true (set_isProcessing false s))
    as (_&_&_&_&_&_&->&_).
Qed.

Lemma loop_flag c s :
  isProcessing (loop c s) = true -> drains (loop c s) <> [].
Proof.
  unfold loop. destruct (queue s); [|destruct (transporter _)]; simpl.
  - destruct (settle_fields c true (set_isProcessing false s))
      as (_&_&->&_). simpl. discriminate.
  - intros _ E. now apply app_eq_nil in E as [_ ?].
  - intros _ E. now apply app_eq_nil in E as [_ ?].
Qed.

(** Without a rejected file-system call the run stays clean. *)
Lemma step_Clean s ev s' subs k :
  Inv s subs -> Clean s k ->
  is_FsRejected ev = false ->
  step s ev = Some s' ->
  Clean s' (k + length (List.filter is_SendMailResolved [ev])).
Proof.
  intros H [Hflag Hkept Hdel] Hev Hstep.
  destruct ev as [|type body now| |i|i|i now1 now2|i|i]; simpl in Hstep;
    simpl length; rewrite ?Nat.add_0_r; try discriminate Hev.
  - injection Hstep as <-. constructor; assumption.
  - injection Hstep as <-. unfold sendNotification. simpl isProcessing.
    destruct (isProcessing s) eqn:E; simpl negb; cbv iota.
    + constructor; simpl; auto.
    + unfold processQueue. simpl. rewrite E, (c_idle _ _ _ H E). simpl.
      match goal with |- Clean (loop ?c ?s0) _ =>
        constructor; [apply loop_flag | rewrite loop_history; exact Hkept
                     | rewrite loop_history; exact Hdel] end.
  - injection Hstep as <-. rewrite (processQueue_noop _ _ H).
    constructor; assumption.
  - destruct (drains s !! i) as [d|] eqn:Hi; [|discriminate].
    destruct (Inv_one_drain _ _ _ _ H Hi) as [Hdr ->].
    rewrite Hdr in Hstep. simpl in Hstep. unfold resume in Hstep.
    destruct (awaiting d) as [|[|]|[|] path entry] eqn:Ha;
      simpl in Hstep; try discriminate.
    injection Hstep as <-.
    constructor; [apply loop_flag | rewrite loop_history | rewrite loop_history];
      simpl.
    + apply Forall_app; split; [assumption | repeat constructor; discriminate].
    + rewrite List.filter_app, length_app, Hdel. reflexivity.
  - destruct (drains s !! i) as [d|] eqn:Hi; [|discriminate].
    destruct (Inv_one_drain _ _ _ _ H Hi) as [Hdr ->].
    rewrite Hdr in Hstep. simpl in Hstep. unfold resume in Hstep.
    destruct (awaiting d) as [|[|]|[|] path entry] eqn:Ha;
      simpl in Hstep; try discriminate.
    injection Hstep as <-. constructor; simpl; auto; discriminate.
  - destruct (drains s !! i) as [d|] eqn:Hi; [|discriminate].
    destruct (Inv_one_drain _ _ _ _ H Hi) as [Hdr ->].
    rewrite Hdr in Hstep. simpl in Hstep. unfold resume in Hstep.
    destruct (awaiting d) as [|[|]|[|] path entry] eqn:Ha;
      simpl in Hstep; try discriminate;
      injection Hstep as <-; constructor; simpl; auto; discriminate.
  - destruct (drains s !! i) as [d|] eqn:Hi; [|discriminate].
    destruct (Inv_one_drain _ _ _ _ H Hi) as [Hdr ->].
    rewrite Hdr in Hstep. simpl in Hstep. unfold resume in Hstep.
    destruct (awaiting d) as [|[|]|[|] path entry] eqn:Ha;
      simpl in Hstep; try discriminate;
      injection Hstep as <-;
      (constructor; [apply loop_flag | rewrite loop_history | rewrite loop_history];
       simpl;
       [apply Forall_app; split; [assumption | repeat constructor; discriminate]
       |rewrite List.filter_app, length_app, Hdel; simpl; lia]).
Qed.

Lemma Clean_new : Clean new 0.
Proof. constructor; simpl; [discriminate | constructor | reflexivity]. Qed.

Lemma exec_Clean evs : forall s s' subs k,
  Inv s subs -> Clean s k ->
  forallb (fun ev => negb (is_FsRejected ev)) evs = true ->
  exec s evs = Some s' ->
  Clean s' (k + length (List.filter is_SendMailResolved evs)).
Proof.
  induction evs as [|ev evs IH]; intros s s' subs k H Hk Hevs Hexec;
    simpl in Hexec.
  - injection Hexec as <-. simpl. now rewrite Nat.add_0_r.
  - destruct (step s ev) as [s1|] eqn:Hstep; [|discriminate].
    simpl in Hevs. apply andb_prop in Hevs as [Hev Hevs].
    apply negb_true_iff in Hev.
    pose proof (step_Clean _ _ _ _ _ H Hk Hev Hstep) as Hk1.
    pose proof (IH _ _ _ _ (step_Inv _ _ _ _ H Hstep) Hk1 Hevs Hexec) as Hk'.
    replace (k + length (List.filter is_SendMailResolved (ev :: evs)))
      with (k + length (List.filter is_SendMailResolved [ev])
            + length (List.filter is_SendMailResolved evs)); [exact Hk'|].
    simpl. destruct (is_SendMailResolved ev); simpl; lia.
Qed.

Lemma reachable_Clean evs s :
  forallb (fun ev => negb (is_FsRejected ev)) evs = true ->
  exec new evs = Some s ->
  Clean s (length (List.filter is_SendMailResolved evs)).
Proof.
  intros Hevs Hexec.
  exact (exec_Clean evs new s [] 0 Core_new Clean_new Hevs Hexec).
Qed.

(** Each settled [await] brings the activation closer to its end. *)
Lemma work_decreases s ev s' subs :
  Inv s subs ->
  is_completion ev = true ->
  step s ev = Some s' ->
  work s' < work s.
Proof.
  intros H Hev Hstep.
  destruct ev as [|type body now| |i|i|i now1 now2|i|i]; simpl in Hstep;
    try discriminate Hev;
    (destruct (drains s !! i) as [d|] eqn:Hi; [|discriminate]);
    destruct (Inv_one_drain _ _ _ _ H Hi) as [Hdr ->];
    rewrite Hdr in Hstep; simpl in Hstep; unfold resume in Hstep;
    unfold work at 2; rewrite Hdr;
    destruct (awaiting d) as [|[|]|[|] path entry] eqn:Ha;
    simpl in Hstep; try discriminate; injection Hstep as <-;
    unfold work, loop; simpl;
    try (destruct (queue s) as [|m rest] eqn:Hq; [|destruct (transporter s)]);
    simpl;
    try match goal with
        | |- context [settle ?c ?ok ?s0] =>
            destruct (settle_fields c ok s0) as (_&->&_&->&_); simpl
        end;
    rewrite ?Hdr, ?Hq, ?Ha; simpl; lia.
Qed.

End DispatcherInvariants.

(** ** The fallback directory *)

Section FallbackFiles.
Import Js EmailNotifications.

Lemma replay_lookup_None ws path :
  ~ In path (map fst ws) -> replay ws !! path = None.
Proof.
  induction ws as [|[p e] ws IH] using rev_ind; intros Hnot.
  - apply lookup_empty.
  - rewrite replay_snoc. rewrite map_app, in_app_iff in Hnot. simpl in Hnot.
    rewrite lookup_insert_ne by tauto. apply IH. tauto.
Qed.

(** Writes to pairwise distinct names leave one file each. *)
Lemma replay_distinct ws :
  List.NoDup (map fst ws) ->
  size (replay ws) = length ws /\
  forall path entry, In (path, entry) ws -> replay ws !! path = Some entry.
Proof.
  induction ws as [|[p e] ws IH] using rev_ind; intros Hnd.
  - split; [apply map_size_empty | intros ? ? []].
  - rewrite map_app in Hnd. simpl in Hnd.
    apply List.NoDup_remove in Hnd. rewrite app_nil_r in Hnd.
    destruct Hnd as [Hnd Hp]. destruct (IH Hnd) as [Hsize Hget].
    rewrite replay_snoc. split.
    + rewrite map_size_insert_None by now apply replay_lookup_None.
      rewrite length_app, Hsize. simpl. lia.
    + intros path entry Hin. apply in_app_iff in Hin.
      destruct Hin as [Hin | [[= <- <-] | []]].
      * rewrite lookup_insert_ne; [now apply Hget|].
        intros <-. apply Hp. now apply (in_map fst) in Hin.
      * apply lookup_insert_eq.
Qed.

(** In a history without dropped messages every message was either
    delivered or written to the fallback directory. *)
Lemma writes_count h :
  Forall (fun mo => snd mo <> Dropped) h ->
  length (writes h) + length (List.filter (fun mo => is_Delivered (snd mo)) h)
    = length h.
Proof.
  induction 1 as [|[m o] h Ho _ IH]; [reflexivity|].
  simpl in *. destruct o; simpl; try lia. congruence.
Qed.

(** A clean run that has come to rest has consumed every submission. *)
Lemma clean_rest evs s :
  exec new evs = Some s ->
  forallb (fun ev => negb (is_FsRejected ev)) evs = true ->
  drains s = [] ->
  queue s = [] /\ map fst (history s) = submissions 0 evs.
Proof.
  intros Hexec Hclean Hidle.
  pose proof (reachable_Inv _ _ Hexec) as H.
  destruct (reachable_Clean _ _ Hclean Hexec) as [Hflag _ _].
  assert (Hq : queue s = []).
  { apply (c_idle _ _ _ H).
    destruct (isProcessing s); [|reflexivity]. now destruct (Hflag eq_refl). }
  split; [exact Hq|].
  pose proof (c_account _ _ _ H) as Hacc.
  rewrite Hidle, Hq in Hacc. simpl in Hacc. now rewrite app_nil_r in Hacc.
Qed.

(** When [logToFile] is rejected inside the catch block the activation
    ends with the flag still set: later messages are queued and stay. *)
Example rejected_fallback_write_leaves_flag_set :
  exists s,
    exec new
      [Initialize;
       SendNotification "test_failure" "a" "2026-01-01T00:00:00.000Z";
       SendNotification "build_failure" "b" "2026-01-01T00:00:00.010Z";
       SendMailRejected 0;
       FsRejected 0;
       SendNotification "bug_report" "c" "2026-01-01T00:00:01.000Z"] = Some s /\
    drains s = [] /\ isProcessing s = true /\
    map id (queue s) = [1; 2] /\
    map (fun mo => (id (fst mo), snd mo)) (history s) = [(0, Dropped)] /\
    settled s = [(1, true); (0, false); (2, true)].
Proof. eexists. split; [vm_compute; reflexivity|]. repeat split. Qed.

End FallbackFiles.

(** ** Claims about the dispatcher *)

(** C1: in every state reached by any sequence of calls and completions at
    most one activation of [processQueue] is suspended, and then the busy
    flag is set; a [sendNotification] that arrives while one is suspended is
    accepted, appends its message to the queue and starts no second one. *)
Theorem at_most_one_drain evs s :
  EmailNotifications.exec EmailNotifications.new evs = Some s ->
  length (EmailNotifications.drains s) <= 1 /\
  (EmailNotifications.drains s <> [] -> EmailNotifications.isProcessing s = true) /\
  (forall type body now,
     EmailNotifications.drains s <> [] ->
     let s' := EmailNotifications.sendNotification type body now s in
     EmailNotifications.step s (EmailNotifications.SendNotification type body now) = Some s' /\
     EmailNotifications.queue s' =
       EmailNotifications.queue s ++
         [{| EmailNotifications.id := EmailNotifications.nextId s;
             EmailNotifications.mail := EmailNotifications.emailData type body now |}] /\
     EmailNotifications.drains s' = EmailNotifications.drains s).
Proof.
  intros Hexec. pose proof (reachable_Inv _ _ Hexec) as H.
  split; [exact (EmailNotifications.c_one _ _ _ H)|].
  split; [exact (EmailNotifications.c_flag _ _ _ H)|].
  intros type body now Hbusy s'. split; [reflexivity|].
  unfold s', EmailNotifications.sendNotification. simpl.
  rewrite (EmailNotifications.c_flag _ _ _ H Hbusy). simpl. split; reflexivity.
Qed.

Lemma at_most_one_drain_witness :
  exists s,
    EmailNotifications.exec EmailNotifications.new
      [EmailNotifications.Initialize;
       EmailNotifications.SendNotification "test_failure" "<p>2 failed</p>"
         "2026-01-01T00:00:00.000Z";
       EmailNotifications.SendNotification "build_failure" "<p>tsc</p>"
         "2026-01-01T00:00:00.010Z"] = Some s /\
    length (EmailNotifications.drains s) <= 1.
Proof.
  match goal with
  | |- exists s, EmailNotifications.exec _ ?evs = _ /\ _ =>
      eexists; split;
      [vm_compute; reflexivity
      |exact (proj1 (at_most_one_drain evs _ ltac:(vm_compute; reflexivity)))]
  end.
Defined.

Section WrittenFiles.
Import EmailNotifications.

(** A path that was written to holds what was written there last. *)
Lemma replay_lookup_Some ws path :
  In path (map fst ws) ->
  exists last, replay ws !! path = Some last /\ In (path, last) ws.
Proof.
  induction ws as [|[p e] ws IH] using rev_ind; intros Hin; [destruct Hin|].
  rewrite replay_snoc. rewrite map_app, in_app_iff in Hin. simpl in Hin.
  destruct (string_dec p path) as [->|Hne].
  - exists e. rewrite lookup_insert_eq. split; [reflexivity|].
    apply in_or_app. right. now left.
  - destruct Hin as [Hin|[Heq|[]]]; [|contradiction].
    destruct (IH Hin) as (last & Hl & Hw). exists last.
    rewrite lookup_insert_ne by exact Hne. split; [exact Hl|].
    apply in_or_app. now left.
Qed.

Lemma persisted_in_writes h m path entry :
  In (m, Persisted path entry) h -> In (path, entry) (writes h).
Proof.
  intros Hin. unfold writes. apply in_flat_map.
  exists (m, Persisted path entry). split; [exact Hin | now left].
Qed.

End WrittenFiles.

(** C2, as stated, fails: two events are submitted while the drain of a
    first message is in progress; the transport rejects that message and
    the fallback write is rejected too.  The first message is neither
    delivered nor persisted, the activation ends with the flag set, and the
    two messages submitted during the drain stay queued: no completion is
    pending that could consume them. *)
Lemma rejected_fallback_write_loses_messages :
  exists s,
    EmailNotifications.exec EmailNotifications.new
      [EmailNotifications.Initialize;
       EmailNotifications.SendNotification "test_failure" "a" "2026-01-01T00:00:00.000Z";
       EmailNotifications.SendNotification "build_failure" "b" "2026-01-01T00:00:00.010Z";
       EmailNotifications.SendNotification "security_alert" "c" "2026-01-01T00:00:00.020Z";
       EmailNotifications.SendMailRejected 0;
       EmailNotifications.FsRejected 0] = Some s /\
    map (fun mo => (EmailNotifications.id (fst mo), snd mo))
        (EmailNotifications.history s) = [(0, EmailNotifications.Dropped)] /\
    EmailNotifications.files s = ∅ /\
    map EmailNotifications.id (EmailNotifications.queue s) = [1; 2] /\
    EmailNotifications.drains s = [] /\
    EmailNotifications.isProcessing s = true /\
    (forall ev, EmailNotifications.is_completion ev = true ->
                EmailNotifications.step s ev = None).
Proof.
  eexists. split; [vm_compute; reflexivity|].
  split; [reflexivity|]. split; [reflexivity|]. split; [reflexivity|].
  split; [reflexivity|]. split; [reflexivity|].
  intros [| | | | | | |]; simpl; intros; try discriminate; reflexivity.
Qed.

(** C2 (amended): whatever the interleaving of [sendNotification] calls
    with the completions of a drain, the messages the loop is done with,
    the one in flight and the ones still queued are, in this order, exactly
    the submitted messages, each once; every completion brings the drain
    closer to its end; the fallback directory is the result of the writes
    made for the persisted messages, each to the path and with the record
    of its message.  As long as no file-system call is rejected, every
    message the loop is done with was delivered or persisted, and when no
    activation is left the flag is clear, the queue is empty and every
    submitted message has been consumed. *)
Theorem drained_exactly_once evs s :
  EmailNotifications.exec EmailNotifications.new evs = Some s ->
  let consumed := map fst (EmailNotifications.history s) in
  let in_flight := map EmailNotifications.current (EmailNotifications.drains s) in
  let ws := EmailNotifications.writes (EmailNotifications.history s) in
  consumed ++ in_flight ++ EmailNotifications.queue s
    = EmailNotifications.submissions 0 evs /\
  List.NoDup (map EmailNotifications.id
                (consumed ++ in_flight ++ EmailNotifications.queue s)) /\
  (forall ev s',
     EmailNotifications.is_completion ev = true ->
     EmailNotifications.step s ev = Some s' ->
     EmailNotifications.work s' < EmailNotifications.work s) /\
  EmailNotifications.files s = EmailNotifications.replay ws /\
  Forall (fun mo =>
            match snd mo with
            | EmailNotifications.Persisted path entry =>
                (exists now1 now2,
                   path = EmailNotifications.logPath now1
                            (EmailNotifications.mail (fst mo)) /\
                   entry =
                     {| EmailNotifications.le_email := EmailNotifications.mail (fst mo);
                        EmailNotifications.le_timestamp := now2;
                        EmailNotifications.le_status := "queued_for_manual_send" |}) /\
                In (path, entry) ws /\
                exists last,
                  EmailNotifications.files s !! path = Some last /\
                  In (path, last) ws
            | _ => True
            end) (EmailNotifications.history s) /\
  (forallb (fun ev => negb (EmailNotifications.is_FsRejected ev)) evs = true ->
   Forall (fun mo => EmailNotifications.is_Delivered (snd mo) = true \/
                     EmailNotifications.is_Persisted (snd mo) = true)
          (EmailNotifications.history s) /\
   (EmailNotifications.drains s = [] ->
      EmailNotifications.isProcessing s = false /\
      EmailNotifications.queue s = [] /\
      consumed = EmailNotifications.submissions 0 evs)).
Proof.
  intros Hexec consumed in_flight ws.
  pose proof (reachable_Inv _ _ Hexec) as H.
  pose proof (EmailNotifications.c_account _ _ _ H) as Hacc.
  pose proof (EmailNotifications.c_files _ _ _ H) as Hfiles.
  fold consumed in_flight in Hacc. fold ws in Hfiles.
  split; [exact Hacc|]. split.
  { rewrite Hacc, (EmailNotifications.c_ids _ _ _ H). apply List.seq_NoDup. }
  split; [intros ev s'; apply (work_decreases _ _ _ _ H)|].
  split; [exact Hfiles|]. split.
  { pose proof (EmailNotifications.c_writes _ _ _ H) as Hw.
    rewrite List.Forall_forall in Hw |- *.
    intros [m o] Hin. specialize (Hw _ Hin).
    destruct o as [|path entry|]; simpl in *; auto.
    destruct Hw as (now1 & now2 & -> & ->).
    split; [exists now1, now2; split; reflexivity|].
    pose proof (persisted_in_writes _ _ _ _ Hin) as Hwr. fold ws in Hwr.
    split; [exact Hwr|].
    rewrite Hfiles. apply replay_lookup_Some.
    now apply (in_map fst) in Hwr. }
  intros Hclean.
  destruct (reachable_Clean _ _ Hclean Hexec) as [Hflag Hkept _].
  split.
  - eapply Forall_impl; [exact Hkept|].
    intros [m o] Ho. destruct o; simpl in *; auto; congruence.
  - intros Hidle. split.
    + destruct (EmailNotifications.isProcessing s); [|reflexivity].
      now destruct (Hflag eq_refl).
    + exact (clean_rest _ _ Hexec Hclean Hidle).
Qed.

Lemma drained_exactly_once_witness :
  exists s,
    EmailNotifications.exec EmailNotifications.new
      [EmailNotifications.Initialize;
       EmailNotifications.SendNotification "test_failure" "a" "2026-01-01T00:00:00.000Z";
       EmailNotifications.SendNotification "build_failure" "b" "2026-01-01T00:00:00.010Z";
       EmailNotifications.SendMailResolved 0;
       EmailNotifications.SendNotification "security_alert" "c" "2026-01-01T00:00:00.020Z";
       EmailNotifications.SendMailRejected 0;
       EmailNotifications.MkdirResolved 0 "2026-01-01T00:00:00.030Z"
         "2026-01-01T00:00:00.031Z";
       EmailNotifications.WriteFileResolved 0;
       EmailNotifications.SendMailResolved 0] = Some s /\
    EmailNotifications.isProcessing s = false /\
    EmailNotifications.queue s = [] /\
    map (fun mo => (EmailNotifications.id (fst mo),
                    EmailNotifications.is_Delivered (snd mo)))
        (EmailNotifications.history s) = [(0, true); (1, false); (2, true)] /\
    map fst (map_to_list (EmailNotifications.files s)) =
      ["logs/email-notifications/2026-01-01T00-00-00.030Z_build_failure.json"].
Proof.
  match goal with
  | |- exists s, EmailNotifications.exec _ ?evs = _ /\ _ =>
      eexists; split;
      [vm_compute; reflexivity
      |split;
       [exact (proj1 (proj2 (proj2 (proj2 (proj2 (proj2 (proj2
                 (drained_exactly_once evs _ ltac:(vm_compute; reflexivity))))))
                 eq_refl) eq_refl))
       |split; [reflexivity|]; split; vm_compute; reflexivity]]
  end.
Defined.

Section Paths.
Import Js EmailNotifications Dispatch.

Lemma string_app_cons c a b : String c a +:+ b = String c (a +:+ b).
Proof. reflexivity. Qed.

Lemma string_app_assoc a b c : (a +:+ b) +:+ c = a +:+ (b +:+ c).
Proof.
  induction a as [|x a IH]; [reflexivity|]. now rewrite !string_app_cons, IH.
Qed.

Lemma path_segments_not_nil p : path_segments p <> [].
Proof.
  destruct p as [|c p]; simpl; [discriminate|].
  destruct (Ascii.eqb c "/"); [discriminate|].
  destruct (path_segments p); discriminate.
Qed.

(** A slash between two texts separates the segments of the first from
    those of the second. *)
Lemma path_segments_app a b :
  path_segments (a +:+ "/" +:+ b) = path_segments a ++ path_segments b.
Proof.
  induction a as [|c a IH]; [reflexivity|].
  rewrite string_app_cons. simpl. rewrite IH.
  destruct (Ascii.eqb c "/"); [reflexivity|].
  pose proof (path_segments_not_nil a).
  destruct (path_segments a); [contradiction | reflexivity].
Qed.

Lemma path_segments_slash_free s : slash_free s = true -> path_segments s = [s].
Proof.
  induction s as [|c s IH]; simpl; [reflexivity|].
  intros H. apply andb_prop in H as [Hc Hs]. apply negb_true_iff in Hc.
  now rewrite Hc, (IH Hs).
Qed.

Lemma slash_free_app a b : slash_free (a +:+ b) = slash_free a && slash_free b.
Proof.
  induction a as [|c a IH]; simpl; [reflexivity|].
  now rewrite IH, andb_assoc.
Qed.

Lemma slash_free_replace_colons s : slash_free (replace_colons s) = slash_free s.
Proof.
  induction s as [|c s IH]; simpl; [reflexivity|]. rewrite IH.
  destruct (Ascii.eqb c ":") eqn:E; [|reflexivity].
  apply Ascii.eqb_eq in E. now subst c.
Qed.

Lemma ends_with_slash_app a : forall b,
  b <> "" -> ends_with_slash (a +:+ b) = ends_with_slash b.
Proof.
  induction a as [|c a IH]; intros b Hb; [reflexivity|].
  rewrite string_app_cons. simpl.
  destruct (a +:+ b) eqn:E.
  - destruct a; [simpl in E; contradiction | discriminate E].
  - rewrite <- E. now apply IH.
Qed.

Lemma ends_with_slash_free s : slash_free s = true -> ends_with_slash s = false.
Proof.
  induction s as [|c s IH]; simpl; [reflexivity|].
  intros H. apply andb_prop in H as [Hc Hs]. apply negb_true_iff in Hc.
  destruct s; [exact Hc | now apply IH].
Qed.

Lemma logDir_eq : logDir = "logs/email-notifications".
Proof. vm_compute. reflexivity. Qed.

Lemma path_normalize_fixed p :
  p <> "" -> starts_with_slash p = false -> ends_with_slash p = false ->
  normalizeString p true = p -> path_normalize p = p.
Proof.
  intros Hp Habs Htrail Hnorm. unfold path_normalize.
  destruct p as [|c p]; [contradiction|].
  cbv zeta. rewrite Habs, Htrail. simpl negb. rewrite Hnorm. reflexivity.
Qed.

(** A file name without slash that is neither empty nor [.] nor [..] is
    put behind the directory as it is. *)
Lemma path_join_file name :
  slash_free name = true -> name <> "" -> name <> "." -> name <> ".." ->
  path_join [logDir; name] = logDir +:+ "/" +:+ name.
Proof.
  intros Hfree H0 H1 H2. rewrite logDir_eq. unfold path_join. simpl List.filter.
  destruct (String.eqb name "") eqn:E; [apply String.eqb_eq in E; contradiction|].
  simpl foldl. apply path_normalize_fixed.
  - discriminate.
  - reflexivity.
  - rewrite <- string_app_assoc.
    rewrite ends_with_slash_app by exact H0. now apply ends_with_slash_free.
  - unfold normalizeString. rewrite path_segments_app.
    rewrite (path_segments_slash_free name Hfree).
    change (path_segments "logs/email-notifications")
      with ["logs"; "email-notifications"].
    simpl foldl. unfold normalize_segment at 1.
    destruct (string_dec name ""); [contradiction|].
    destruct (string_dec name "."); [contradiction|].
    destruct (string_dec name ".."); [contradiction|].
    reflexivity.
Qed.

Lemma logPath_plain iso email :
  slash_free iso = true ->
  slash_free (X_Second_Chance_Type (headers email)) = true ->
  logPath iso email =
    "logs/email-notifications/" +:+ replace_colons iso +:+ "_"
      +:+ X_Second_Chance_Type (headers email) +:+ ".json".
Proof.
  intros Hiso Hty. unfold logPath. cbv zeta.
  set (name := replace_colons iso +:+ "_"
               +:+ X_Second_Chance_Type (headers email) +:+ ".json").
  assert (Hlen : 6 <= String.length name).
  { unfold name. rewrite !length_app_string. simpl. lia. }
  rewrite path_join_file.
  - rewrite logDir_eq. reflexivity.
  - unfold name. rewrite !slash_free_app, slash_free_replace_colons, Hiso, Hty.
    reflexivity.
  - intros E. rewrite E in Hlen. simpl in Hlen. lia.
  - intros E. rewrite E in Hlen. simpl in Hlen. lia.
  - intros E. rewrite E in Hlen. simpl in Hlen. lia.
Qed.

Lemma strip_prefix_app p s : strip_prefix p (p +:+ s) = Some s.
Proof.
  induction p as [|c p IH]; [reflexivity|].
  rewrite string_app_cons. simpl. now rewrite Ascii.eqb_refl.
Qed.

End Paths.

(** C4, as stated, fails: two [bug_report] events submitted without a
    transporter whose fallback writes read the same clock value get the
    same file name, so two events leave one fallback file. *)
Lemma same_millisecond_fallbacks_collide :
  exists s,
    EmailNotifications.exec EmailNotifications.new
      [EmailNotifications.SendNotification "bug_report" "first"
         "2026-01-01T00:00:00.000Z";
       EmailNotifications.SendNotification "bug_report" "second"
         "2026-01-01T00:00:00.000Z";
       EmailNotifications.MkdirResolved 0 "2026-01-01T00:00:00.000Z"
         "2026-01-01T00:00:00.000Z";
       EmailNotifications.WriteFileResolved 0;
       EmailNotifications.MkdirResolved 0 "2026-01-01T00:00:00.000Z"
         "2026-01-01T00:00:00.000Z";
       EmailNotifications.WriteFileResolved 0] = Some s /\
    EmailNotifications.drains s = [] /\
    EmailNotifications.queue s = [] /\
    map (fun mo => EmailNotifications.id (fst mo)) (EmailNotifications.history s)
      = [0; 1] /\
    length (EmailNotifications.writes (EmailNotifications.history s)) = 2 /\
    size (EmailNotifications.files s) = 1.
Proof.
  eexists. split; [vm_compute; reflexivity|].
  repeat split; vm_compute; reflexivity.
Qed.

(** A type with a slash names a file elsewhere: [path.join] takes the
    slash for a separator and resolves the [..] behind it. *)
Example slash_in_type_moves_the_file :
  EmailNotifications.logPath "2026-01-01T10:20:30.000Z"
    (EmailNotifications.emailData "a:b/../c" "" "2026-01-01T10:20:29.000Z")
  = "logs/email-notifications/c.json".
Proof. vm_compute. reflexivity. Qed.

(** C4 (amended): in a run without a rejected file-system call that has
    come to rest, every submitted event whose delivery did not succeed (no
    transporter, or [sendMail] rejected) caused exactly one fallback write.
    The write goes to [path.join] of the fallback directory and the file
    name made of a clock reading with its colons replaced, then [_], the
    event type and [.json]; when neither the reading nor the type has a
    slash this is that file in [logs/email-notifications].  It stores the
    message (recipient, subject, body, ...) with a timestamp and the status
    [queued_for_manual_send].  The directory holds the result of these
    writes, so there are as many files as such events when the files lie in
    the fallback directory itself and their paths are pairwise distinct. *)
Theorem fallback_files evs s :
  EmailNotifications.exec EmailNotifications.new evs = Some s ->
  forallb (fun ev => negb (EmailNotifications.is_FsRejected ev)) evs = true ->
  EmailNotifications.drains s = [] ->
  let ws := EmailNotifications.writes (EmailNotifications.history s) in
  length ws + length (List.filter EmailNotifications.is_SendMailResolved evs)
    = length (EmailNotifications.submissions 0 evs) /\
  Forall (fun mo =>
            match snd mo with
            | EmailNotifications.Persisted path entry =>
                exists now1 now2,
                  let type := EmailNotifications.X_Second_Chance_Type
                                (EmailNotifications.headers
                                   (EmailNotifications.mail (fst mo))) in
                  path = EmailNotifications.logPath now1
                           (EmailNotifications.mail (fst mo)) /\
                  (Dispatch.slash_free now1 = true ->
                   Dispatch.slash_free type = true ->
                   path = "logs/email-notifications/"
                            +:+ EmailNotifications.replace_colons now1
                            +:+ "_" +:+ type +:+ ".json") /\
                  entry =
                    {| EmailNotifications.le_email := EmailNotifications.mail (fst mo);
                       EmailNotifications.le_timestamp := now2;
                       EmailNotifications.le_status := "queued_for_manual_send" |}
            | EmailNotifications.Delivered => True
            | EmailNotifications.Dropped => False
            end) (EmailNotifications.history s) /\
  EmailNotifications.files s = EmailNotifications.replay ws /\
  (List.NoDup (map fst ws) ->
   Forall (fun w => Dispatch.in_logDir (fst w) = true) ws ->
     size (EmailNotifications.files s) = length ws /\
     forall path entry,
       In (path, entry) ws -> EmailNotifications.files s !! path = Some entry).
Proof.
  intros Hexec Hclean Hidle ws.
  pose proof (reachable_Inv _ _ Hexec) as H.
  destruct (reachable_Clean _ _ Hclean Hexec) as [Hflag Hkept Hdel].
  destruct (clean_rest _ _ Hexec Hclean Hidle) as [_ Hall].
  split; [|split; [|split]].
  - rewrite <- Hdel, <- Hall, length_map. now apply writes_count.
  - pose proof (EmailNotifications.c_writes _ _ _ H) as Hw.
    rewrite Forall_forall in Hw, Hkept |- *.
    intros [m o] Hin. specialize (Hw _ Hin). specialize (Hkept _ Hin).
    destruct o as [|path entry|]; simpl in *; auto.
    destruct Hw as (now1 & now2 & -> & ->). exists now1, now2. cbv zeta.
    split; [reflexivity|]. split; [|reflexivity].
    intros H1 H2. now apply logPath_plain.
  - exact (EmailNotifications.c_files _ _ _ H).
  - intros Hnd _. rewrite (EmailNotifications.c_files _ _ _ H).
    now apply replay_distinct.
Qed.

Lemma fallback_files_witness :
  exists s,
    EmailNotifications.exec EmailNotifications.new
      [EmailNotifications.SendNotification "security_alert" "SQL injection"
         "2026-01-01T00:00:00.000Z";
       EmailNotifications.MkdirResolved 0 "2026-01-01T00:00:00.005Z"
         "2026-01-01T00:00:00.005Z";
       EmailNotifications.WriteFileResolved 0] = Some s /\
    size (EmailNotifications.files s) = 1 /\
    map fst (EmailNotifications.writes (EmailNotifications.history s)) =
      ["logs/email-notifications/2026-01-01T00-00-00.005Z_security_alert.json"].
Proof.
  match goal with
  | |- exists s, EmailNotifications.exec _ ?evs = _ /\ _ =>
      eexists; split; [vm_compute; reflexivity|]; split; [|vm_compute; reflexivity];
      apply (proj2 (proj2 (proj2 (fallback_files evs _
                                    ltac:(vm_compute; reflexivity)
                                    eq_refl eq_refl))))
  end.
  - vm_compute. repeat constructor. intros [].
  - vm_compute. repeat constructor.
Defined.


Lemma NoDup_app_disjoint {A} (l1 l2 : list A) x :
  List.NoDup (l1 ++ l2) -> In x l1 -> In x l2 -> False.
Proof.
  induction l1 as [|a l1 IH]; simpl; intros Hnd H1 H2; [contradiction|].
  inversion Hnd as [|? ? Ha Hnd']; subst.
  destruct H1 as [->|H1]; [|now apply IH].
  apply Ha, in_or_app. now right.
Qed.

(** C5, as stated, fails: the catch block of line 139 writes the failed
    message with [logToFile], and a rejection of that write is not caught.
    Here the transport rejects the first message and [writeFile] is
    rejected: the message is not stored, the activation ends with the flag
    set, and the second message and every later one stay queued. *)
Lemma rejected_fallback_write_blocks_the_queue :
  exists s s',
    EmailNotifications.exec EmailNotifications.new
      [EmailNotifications.Initialize;
       EmailNotifications.SendNotification "test_failure" "a" "2026-01-01T00:00:00.000Z";
       EmailNotifications.SendNotification "build_failure" "b" "2026-01-01T00:00:00.010Z";
       EmailNotifications.SendMailRejected 0;
       EmailNotifications.MkdirResolved 0 "2026-01-01T00:00:00.030Z"
         "2026-01-01T00:00:00.031Z";
       EmailNotifications.FsRejected 0] = Some s /\
    EmailNotifications.files s = ∅ /\
    map (fun mo => (EmailNotifications.id (fst mo), snd mo))
        (EmailNotifications.history s) = [(0, EmailNotifications.Dropped)] /\
    map EmailNotifications.id (EmailNotifications.queue s) = [1] /\
    EmailNotifications.drains s = [] /\
    EmailNotifications.isProcessing s = true /\
    EmailNotifications.step s
      (EmailNotifications.SendNotification "bug_report" "c" "2026-01-01T00:00:01.000Z")
      = Some s' /\
    map EmailNotifications.id (EmailNotifications.queue s') = [1; 2] /\
    EmailNotifications.drains s' = [] /\
    EmailNotifications.attempts s' = [0].
Proof.
  eexists. eexists. split; [vm_compute; reflexivity|].
  split; [reflexivity|]. split; [reflexivity|]. split; [reflexivity|].
  split; [reflexivity|]. split; [reflexivity|].
  split; [vm_compute; reflexivity|]. repeat split.
Qed.

(** C5 (amended): a rejected [sendMail] is caught for the message at hand:
    nothing is put back on the queue and nothing is handed to the transport
    again, and the activation goes on to write the message to the fallback
    directory.  When [mkdir] and [writeFile] return, the file holds the
    message with a timestamp and the status [queued_for_manual_send], and
    the loop takes the next queued message (or ends, clearing the flag,
    when there is none).  When one of them is rejected the message is
    dropped and the activation ends without clearing the flag.  In every
    reachable state no message has been handed to the transport twice and
    no queued message has been attempted, consumed or is in flight; and in
    a run without a rejected file-system call the flag is set only while
    an activation is suspended, no message is dropped, and at rest every
    submitted message has been consumed, however many deliveries failed. *)
Theorem transport_error_is_isolated :
  (forall s i d,
     EmailNotifications.drains s !! i = Some d ->
     EmailNotifications.awaiting d = EmailNotifications.SendMail ->
     exists s1,
       EmailNotifications.step s (EmailNotifications.SendMailRejected i) = Some s1 /\
       EmailNotifications.queue s1 = EmailNotifications.queue s /\
       EmailNotifications.attempts s1 = EmailNotifications.attempts s /\
       EmailNotifications.history s1 = EmailNotifications.history s /\
       EmailNotifications.isProcessing s1 = EmailNotifications.isProcessing s /\
       EmailNotifications.drains s1 =
         delete i (EmailNotifications.drains s) ++
           [{| EmailNotifications.caller := EmailNotifications.caller d;
               EmailNotifications.current := EmailNotifications.current d;
               EmailNotifications.awaiting := EmailNotifications.LogMkdir true |}]) /\
  (forall s i d now1 now2,
     EmailNotifications.drains s !! i = Some d ->
     EmailNotifications.awaiting d = EmailNotifications.LogMkdir true ->
     let m := EmailNotifications.current d in
     let path := EmailNotifications.logPath now1 (EmailNotifications.mail m) in
     let entry :=
       {| EmailNotifications.le_email := EmailNotifications.mail m;
          EmailNotifications.le_timestamp := now2;
          EmailNotifications.le_status := "queued_for_manual_send" |} in
     let others := delete i (EmailNotifications.drains s) in
     exists s2 s3,
       EmailNotifications.step s (EmailNotifications.MkdirResolved i now1 now2) = Some s2 /\
       EmailNotifications.step s2 (EmailNotifications.WriteFileResolved (length others))
         = Some s3 /\
       EmailNotifications.files s3 = <[path := entry]> (EmailNotifications.files s) /\
       EmailNotifications.history s3 =
         EmailNotifications.history s ++ [(m, EmailNotifications.Persisted path entry)] /\
       match EmailNotifications.queue s with
       | [] =>
           EmailNotifications.drains s3 = others /\
           EmailNotifications.isProcessing s3 = false /\
           EmailNotifications.attempts s3 = EmailNotifications.attempts s
       | next :: rest =>
           EmailNotifications.queue s3 = rest /\
           EmailNotifications.isProcessing s3 = EmailNotifications.isProcessing s /\
           EmailNotifications.drains s3 =
             others ++
               [{| EmailNotifications.caller := EmailNotifications.caller d;
                   EmailNotifications.current := next;
                   EmailNotifications.awaiting :=
                     if EmailNotifications.transporter s
                     then EmailNotifications.SendMail
                     else EmailNotifications.LogMkdir false |}] /\
           EmailNotifications.attempts s3 =
             EmailNotifications.attempts s ++
               (if EmailNotifications.transporter s
                then [EmailNotifications.id next] else [])
       end) /\
  (forall s i d,
     EmailNotifications.drains s !! i = Some d ->
     (EmailNotifications.awaiting d = EmailNotifications.LogMkdir true \/
      exists path entry,
        EmailNotifications.awaiting d = EmailNotifications.LogWrite true path entry) ->
     exists s',
       EmailNotifications.step s (EmailNotifications.FsRejected i) = Some s' /\
       EmailNotifications.history s' =
         EmailNotifications.history s
           ++ [(EmailNotifications.current d, EmailNotifications.Dropped)] /\
       EmailNotifications.files s' = EmailNotifications.files s /\
       EmailNotifications.queue s' = EmailNotifications.queue s /\
       EmailNotifications.attempts s' = EmailNotifications.attempts s /\
       EmailNotifications.isProcessing s' = EmailNotifications.isProcessing s /\
       EmailNotifications.drains s' = delete i (EmailNotifications.drains s)) /\
  (forall evs s,
     EmailNotifications.exec EmailNotifications.new evs = Some s ->
     (List.NoDup (EmailNotifications.attempts s) /\
      forall m, In m (EmailNotifications.queue s) ->
        ~ In (EmailNotifications.id m) (EmailNotifications.attempts s) /\
        ~ In (EmailNotifications.id m)
             (map EmailNotifications.id
                (map fst (EmailNotifications.history s) ++
                 map EmailNotifications.current (EmailNotifications.drains s)))) /\
     (forallb (fun ev => negb (EmailNotifications.is_FsRejected ev)) evs = true ->
      (EmailNotifications.isProcessing s = true -> EmailNotifications.drains s <> []) /\
      Forall (fun mo => snd mo <> EmailNotifications.Dropped)
             (EmailNotifications.history s) /\
      (EmailNotifications.drains s = [] ->
         EmailNotifications.isProcessing s = false /\
         EmailNotifications.queue s = [] /\
         map fst (EmailNotifications.history s)
           = EmailNotifications.submissions 0 evs))).
Proof.
  split; [|split; [|split]].
  - intros s i d Hi Ha. eexists. split.
    + simpl. rewrite Hi. unfold EmailNotifications.resume. rewrite Ha. reflexivity.
    + repeat split.
  - intros s i d now1 now2 Hi Ha m path entry others.
    assert (Hlast : forall d',
              (others ++ [d']) !! length others = Some d').
    { intros d'. rewrite lookup_app_r by lia. now rewrite Nat.sub_diag. }
    assert (Hdel : forall d', delete (length others) (others ++ [d']) = others).
    { intros d'. induction others as [|x l IH]; simpl; [reflexivity|].
      now rewrite IH. }
    eexists. eexists. split; [|split].
    + simpl. rewrite Hi. unfold EmailNotifications.resume. rewrite Ha. reflexivity.
    + simpl. fold others. rewrite Hlast. unfold EmailNotifications.resume.
      simpl. rewrite Hdel. reflexivity.
    + unfold EmailNotifications.loop. simpl.
      destruct (EmailNotifications.queue s) as [|next rest];
        [|destruct (EmailNotifications.transporter s)]; simpl.
      * destruct (EmailNotifications.caller d); simpl; repeat split.
      * repeat split.
      * repeat split. now rewrite app_nil_r.
  - intros s i d Hi Ha. eexists. split.
    + simpl. rewrite Hi. unfold EmailNotifications.resume.
      destruct Ha as [Ha | (path & entry & Ha)]; rewrite Ha; reflexivity.
    + destruct (EmailNotifications.caller d); simpl; repeat split.
  - intros evs s Hexec. pose proof (reachable_Inv _ _ Hexec) as H.
    split.
    + split; [exact (EmailNotifications.c_attempts_nodup _ _ _ H)|].
      intros m Hm.
      assert (Hfresh : ~ In (EmailNotifications.id m)
                (map EmailNotifications.id
                   (map fst (EmailNotifications.history s) ++
                    map EmailNotifications.current (EmailNotifications.drains s)))).
      { pose proof (EmailNotifications.c_account _ _ _ H) as Hacc.
        pose proof (EmailNotifications.c_ids _ _ _ H) as Hids.
        rewrite <- Hacc, app_assoc, map_app in Hids.
        pose proof (List.seq_NoDup (EmailNotifications.nextId s) 0) as Hnd.
        rewrite <- Hids in Hnd.
        intros Hin. apply (NoDup_app_disjoint _ _ _ Hnd Hin).
        now apply in_map. }
      split; [|exact Hfresh].
      intros Hin. apply Hfresh. exact (EmailNotifications.c_attempts_in _ _ _ H _ Hin).
    + intros Hclean.
      destruct (reachable_Clean _ _ Hclean Hexec) as [Hflag Hkept _].
      split; [exact Hflag|]. split; [exact Hkept|].
      intros Hidle. split.
      * destruct (EmailNotifications.isProcessing s); [|reflexivity].
        now destruct (Hflag eq_refl).
      * exact (clean_rest _ _ Hexec Hclean Hidle).
Qed.

Lemma transport_error_is_isolated_witness :
  exists s,
    EmailNotifications.exec EmailNotifications.new
      [EmailNotifications.Initialize;
       EmailNotifications.SendNotification "test_failure" "a" "2026-01-01T00:00:00.000Z";
       EmailNotifications.SendNotification "build_failure" "b" "2026-01-01T00:00:00.010Z";
       EmailNotifications.SendMailRejected 0;
       EmailNotifications.MkdirResolved 0 "2026-01-01T00:00:00.030Z"
         "2026-01-01T00:00:00.031Z";
       EmailNotifications.WriteFileResolved 0;
       EmailNotifications.SendMailResolved 0] = Some s /\
    List.NoDup (EmailNotifications.attempts s) /\
    EmailNotifications.isProcessing s = false /\
    EmailNotifications.queue s = [] /\
    map (fun mo => (EmailNotifications.id (fst mo),
                    EmailNotifications.is_Persisted (snd mo)))
        (EmailNotifications.history s) = [(0, true); (1, false)].
Proof.
  match goal with
  | |- exists s, EmailNotifications.exec _ ?evs = _ /\ _ =>
      eexists; split;
      [vm_compute; reflexivity
      |split;
       [exact (proj1 (proj1 (proj2 (proj2 (proj2 transport_error_is_isolated)) evs _
                               ltac:(vm_compute; reflexivity))))
       |split;
        [exact (proj1 (proj2 (proj2 (proj2 (proj2 (proj2 (proj2
                  transport_error_is_isolated)) evs _
                  ltac:(vm_compute; reflexivity)) eq_refl)) eq_refl))
        |split; [reflexivity | vm_compute; reflexivity]]]]
  end.
Defined.

Section Promises.
Import EmailNotifications.

(** The loop resolves the promise of its caller only when it finds the
    queue empty and ends. *)
Lemma loop_settles c s n :
  In (n, true) (settled (loop c s)) ->
  ~ In (n, true) (settled s) ->
  queue (loop c s) = [] /\ drains (loop c s) = drains s /\
  isProcessing (loop c s) = false.
Proof.
  unfold loop. destruct (queue s) as [|m rest] eqn:Hq.
  - intros _ _.
    destruct (settle_fields c true (set_isProcessing false s))
      as (_&->&->&->&_). simpl. now rewrite Hq.
  - destruct (transporter (set_queue rest s)); simpl; intros; contradiction.
Qed.

End Promises.

(** The completion of an [await] resolves a promise only through the loop
    that finds the queue empty. *)
Ltac settles_at_drain_end H Hstep Hin Hold :=
  match type of Hstep with
  | context [EmailNotifications.drains ?s !! ?i] =>
      let d := fresh "d" in
      let Hi := fresh "Hi" in
      let Hdr := fresh "Hdr" in
      let Ha := fresh "Ha" in
      destruct (EmailNotifications.drains s !! i) as [d|] eqn:Hi;
        [|discriminate];
      destruct (Inv_one_drain _ _ _ _ H Hi) as [Hdr ->];
      rewrite Hdr in Hstep; simpl in Hstep;
      unfold EmailNotifications.resume in Hstep;
      destruct (EmailNotifications.awaiting d) as [|[|]|[|] ? ?] eqn:Ha;
      simpl in Hstep; try discriminate; injection Hstep as <-;
      try (simpl in Hin; contradiction);
      try (right; split; [reflexivity|];
           apply loop_settles in Hin; [exact Hin | exact Hold]);
      try (exfalso; destruct (EmailNotifications.caller d); simpl in Hin;
           [|contradiction];
           apply in_app_iff in Hin; destruct Hin as [Hin | [[=] | []]];
           contradiction)
  end.

(** C6, as stated, fails: the first [sendNotification] on an idle service
    starts the drain and awaits it, so after the call its promise is still
    pending while its own message is being sent; it resolves only when
    [sendMail] has resolved. *)
Lemma first_submit_awaits_its_delivery :
  exists s s',
    EmailNotifications.exec EmailNotifications.new
      [EmailNotifications.Initialize;
       EmailNotifications.SendNotification "test_results" "<p>ok</p>"
         "2026-01-01T00:00:00.000Z"] = Some s /\
    EmailNotifications.settled s = [] /\
    map (fun d => (EmailNotifications.caller d, EmailNotifications.awaiting d))
        (EmailNotifications.drains s) = [(Some 0, EmailNotifications.SendMail)] /\
    EmailNotifications.step s (EmailNotifications.SendMailResolved 0) = Some s' /\
    EmailNotifications.settled s' = [(0, true)].
Proof.
  eexists. eexists.
  split; [vm_compute; reflexivity|]. split; [reflexivity|].
  split; [reflexivity|]. split; [vm_compute; reflexivity | reflexivity].
Qed.

Section Rejections.
Import EmailNotifications.

(** The loop rejects no promise. *)
Lemma loop_rejects_nothing c s n :
  In (n, false) (settled (loop c s)) -> In (n, false) (settled s).
Proof.
  unfold loop. destruct (queue s) as [|m rest].
  - destruct c as [k|]; simpl; [|trivial].
    intros Hin. apply in_app_iff in Hin.
    destruct Hin as [Hin | [[=] | []]]. exact Hin.
  - destruct (transporter (set_queue rest s)); simpl; trivial.
Qed.

End Rejections.

(** The completion of an [await] rejects a promise only when it is a
    rejected file-system call of the catch block. *)
Ltac rejected_in_catch H Hstep Hin Hold :=
  match type of Hstep with
  | context [EmailNotifications.drains ?s !! ?i] =>
      let d := fresh "d" in
      let Hi := fresh "Hi" in
      let Hdr := fresh "Hdr" in
      let Ha := fresh "Ha" in
      destruct (EmailNotifications.drains s !! i) as [d|] eqn:Hi;
        [|discriminate];
      destruct (Inv_one_drain _ _ _ _ H Hi) as [Hdr ->];
      pose proof (EmailNotifications.c_flag _ _ _ H
                    ltac:(rewrite Hdr; discriminate)) as Hflag;
      rewrite Hdr in Hstep; simpl in Hstep;
      unfold EmailNotifications.resume in Hstep;
      destruct (EmailNotifications.awaiting d) as [|[|]|[|] ? ?] eqn:Ha;
      simpl in Hstep; try discriminate; injection Hstep as <-;
      try (simpl in Hin; contradiction);
      try (exfalso; apply loop_rejects_nothing in Hin; simpl in Hin; contradiction);
      try (split; [reflexivity|];
           destruct (settle_fields (EmailNotifications.caller d) false
                       (EmailNotifications.record_outcome
                          (EmailNotifications.current d) EmailNotifications.Dropped
                          (EmailNotifications.set_drains [] s)))
             as (_ & -> & -> & -> & _);
           simpl; repeat split; exact Hflag)
  end.

(** C6 (amended): [sendNotification] accepts every event whose body is
    rendered, whatever the length of the queue: the message goes behind
    everything that is in flight or queued; a call whose
    [generateEmailBody] throws is rejected before the push and leaves the
    service as it was.  When [isProcessing] is set the call resolves right
    after the push and starts nothing, whether or not an activation is
    running.  When the flag is clear the call starts the drain and awaits
    it: its promise is pending as long as that activation is suspended.  A
    promise resolves only in a call made while the flag is set, or when an
    activation finds the queue empty and clears the flag; it is rejected
    only when a file-system call of the catch block is rejected, which ends
    the activation with the flag still set. *)
Theorem sendNotification_accepts :
  (forall s type now,
     EmailNotifications.call_sendNotification type None now s = (false, s) /\
     forall body,
       EmailNotifications.call_sendNotification type (Some body) now s
       = (true, EmailNotifications.sendNotification type body now s)) /\
  (forall s type body now,
     let m := {| EmailNotifications.id := EmailNotifications.nextId s;
                 EmailNotifications.mail := EmailNotifications.emailData type body now |} in
     let s' := EmailNotifications.sendNotification type body now s in
     EmailNotifications.step s (EmailNotifications.SendNotification type body now)
       = Some s' /\
     map EmailNotifications.current (EmailNotifications.drains s')
       ++ EmailNotifications.queue s'
     = map EmailNotifications.current (EmailNotifications.drains s)
         ++ EmailNotifications.queue s ++ [m] /\
     (EmailNotifications.isProcessing s = true ->
        EmailNotifications.drains s' = EmailNotifications.drains s /\
        EmailNotifications.queue s' = EmailNotifications.queue s ++ [m] /\
        EmailNotifications.settled s' =
          EmailNotifications.settled s ++ [(EmailNotifications.nextId s, true)]) /\
     (EmailNotifications.isProcessing s = false ->
        EmailNotifications.isProcessing s' = true /\
        EmailNotifications.settled s' = EmailNotifications.settled s /\
        exists d,
          EmailNotifications.drains s' = EmailNotifications.drains s ++ [d] /\
          EmailNotifications.caller d = Some (EmailNotifications.nextId s))) /\
  (forall evs s,
     EmailNotifications.exec EmailNotifications.new evs = Some s ->
     (forall d n,
        In d (EmailNotifications.drains s) ->
        EmailNotifications.caller d = Some n ->
        ~ In n (map fst (EmailNotifications.settled s))) /\
     (forall ev s' n,
        EmailNotifications.step s ev = Some s' ->
        In (n, true) (EmailNotifications.settled s') ->
        ~ In n (map fst (EmailNotifications.settled s)) ->
        (EmailNotifications.is_completion ev = false /\
         EmailNotifications.isProcessing s = true /\
         n = EmailNotifications.nextId s) \/
        (EmailNotifications.is_completion ev = true /\
         EmailNotifications.queue s' = [] /\
         EmailNotifications.drains s' = [] /\
         EmailNotifications.isProcessing s' = false)) /\
     (forall ev s' n,
        EmailNotifications.step s ev = Some s' ->
        In (n, false) (EmailNotifications.settled s') ->
        ~ In n (map fst (EmailNotifications.settled s)) ->
        EmailNotifications.is_FsRejected ev = true /\
        EmailNotifications.drains s' = [] /\
        EmailNotifications.isProcessing s' = true /\
        EmailNotifications.queue s' = EmailNotifications.queue s)).
Proof.
  split; [|split].
  - intros s type now. split; reflexivity.
  - intros s type body now m s'. split; [reflexivity|].
    unfold s', EmailNotifications.sendNotification. fold m. simpl.
    destruct (EmailNotifications.isProcessing s) eqn:Hflag; simpl.
    + split; [reflexivity|]. split; [auto | discriminate].
    + unfold EmailNotifications.processQueue. simpl. rewrite Hflag.
      replace (length (EmailNotifications.queue s ++ [m]) =? 0)%nat with false
        by (rewrite length_app; simpl; symmetry; apply Nat.eqb_neq; lia).
      simpl. unfold EmailNotifications.loop. simpl.
      destruct (EmailNotifications.queue s ++ [m]) as [|head rest] eqn:Hq;
        [now destruct (EmailNotifications.queue s)|].
      split; [|split; [discriminate|]].
      * destruct (EmailNotifications.transporter s); simpl;
          rewrite map_app, <- app_assoc; reflexivity.
      * intros _. destruct (EmailNotifications.transporter s); simpl;
          (split; [reflexivity|]; split; [reflexivity | eexists; split; reflexivity]).
  - intros evs s Hexec. pose proof (reachable_Inv _ _ Hexec) as H.
    split; [|split].
    + intros d n Hd Hn. now destruct (EmailNotifications.c_callers _ _ _ H d n Hd Hn).
    + intros ev s' n Hstep Hin Hnew.
      assert (Hold : ~ In (n, true) (EmailNotifications.settled s)).
      { intros Hc. apply Hnew. now apply (in_map fst) in Hc. }
      destruct ev as [|type body now| |i|i|i now1 now2|i|i]; simpl in Hstep.
      * injection Hstep as <-. contradiction.
      * injection Hstep as <-. left. split; [reflexivity|].
        unfold EmailNotifications.sendNotification in Hin. simpl in Hin.
        destruct (EmailNotifications.isProcessing s) eqn:Hflag; simpl in Hin.
        -- split; [reflexivity|]. apply in_app_iff in Hin.
           destruct Hin as [Hin | [[= <-] | []]]; [contradiction | reflexivity].
        -- exfalso. unfold EmailNotifications.processQueue in Hin. simpl in Hin.
           rewrite Hflag, (EmailNotifications.c_idle _ _ _ H Hflag) in Hin.
           simpl in Hin. unfold EmailNotifications.loop in Hin. simpl in Hin.
           destruct (EmailNotifications.transporter s); simpl in Hin; contradiction.
      * injection Hstep as <-. rewrite (processQueue_noop _ _ H) in Hin.
        contradiction.
      * settles_at_drain_end H Hstep Hin Hold.
      * settles_at_drain_end H Hstep Hin Hold.
      * settles_at_drain_end H Hstep Hin Hold.
      * settles_at_drain_end H Hstep Hin Hold.
      * settles_at_drain_end H Hstep Hin Hold.
    + intros ev s' n Hstep Hin Hnew.
      assert (Hold : ~ In (n, false) (EmailNotifications.settled s)).
      { intros Hc. apply Hnew. now apply (in_map fst) in Hc. }
      destruct ev as [|type body now| |i|i|i now1 now2|i|i]; simpl in Hstep.
      * injection Hstep as <-. contradiction.
      * injection Hstep as <-. exfalso.
        unfold EmailNotifications.sendNotification in Hin. simpl in Hin.
        destruct (EmailNotifications.isProcessing s) eqn:Hflag; simpl in Hin.
        -- apply in_app_iff in Hin.
           destruct Hin as [Hin | [[=] | []]]. contradiction.
        -- unfold EmailNotifications.processQueue in Hin. simpl in Hin.
           rewrite Hflag, (EmailNotifications.c_idle _ _ _ H Hflag) in Hin.
           simpl in Hin. unfold EmailNotifications.loop in Hin. simpl in Hin.
           destruct (EmailNotifications.transporter s); simpl in Hin; contradiction.
      * injection Hstep as <-. rewrite (processQueue_noop _ _ H) in Hin.
        contradiction.
      * rejected_in_catch H Hstep Hin Hold.
      * rejected_in_catch H Hstep Hin Hold.
      * rejected_in_catch H Hstep Hin Hold.
      * rejected_in_catch H Hstep Hin Hold.
      * rejected_in_catch H Hstep Hin Hold.
Qed.

Lemma sendNotification_accepts_witness :
  exists s,
    EmailNotifications.exec EmailNotifications.new
      [EmailNotifications.Initialize;
       EmailNotifications.SendNotification "test_failure" "a" "2026-01-01T00:00:00.000Z";
       EmailNotifications.SendNotification "build_failure" "b" "2026-01-01T00:00:00.010Z"]
      = Some s /\
    EmailNotifications.settled s = [(1, true)] /\
    ~ In 0 (map fst (EmailNotifications.settled s)).
Proof.
  match goal with
  | |- exists s, EmailNotifications.exec _ ?evs = _ /\ _ =>
      eexists; split; [vm_compute; reflexivity|]; split; [reflexivity|];
      eapply (proj1 (proj2 (proj2 sendNotification_accepts) evs _
                       ltac:(vm_compute; reflexivity)));
      [left; reflexivity | reflexivity]
  end.
Defined.

(** ** Templates *)

(** A type that is neither a template name nor a name inherited from
    [Object.prototype] gets the [bug_report] template. *)
Lemma unknown_type_falls_back type body now :
  EmailNotifications.TEMPLATES !! type = None ->
  ~ In type EmailNotifications.Object_prototype ->
  let email := EmailNotifications.emailData type body now in
  EmailNotifications.subject email = "[Second Chance] 🐛 Bug Report Received" /\
  EmailNotifications.priority email = Some "normal" /\
  EmailNotifications.X_Priority (EmailNotifications.headers email) = "3".
Proof.
  intros Hown Hproto email. unfold email, EmailNotifications.emailData,
    EmailNotifications.TEMPLATES_get.
  rewrite Hown. rewrite bool_decide_eq_false_2.
  - repeat split.
  - intros Hin. apply Hproto. now apply list_elem_of_In.
Qed.

(** The header follows the priority: urgent is 1, high is 2, anything else
    (also no priority at all) is 3. *)
Lemma priority_header type body now :
  let email := EmailNotifications.emailData type body now in
  EmailNotifications.X_Priority (EmailNotifications.headers email) =
    match EmailNotifications.priority email with
    | Some p => if string_dec p "urgent" then "1"
                else if string_dec p "high" then "2" else "3"
    | None => "3"
    end.
Proof. reflexivity. Qed.

(** C9: the fallback to [bug_report] is missed for a type that names a
    built-in property of [Object.prototype].  "constructor" is not a key of
    [TEMPLATES], yet the lookup finds the inherited value, which is truthy
    and has neither subject nor priority: the subject is rendered from
    [undefined] and the message carries no priority. *)
Theorem inherited_name_defeats_fallback body now :
  EmailNotifications.TEMPLATES !! "constructor" = None /\
  let email := EmailNotifications.emailData "constructor" body now in
  EmailNotifications.subject email = "[Second Chance] undefined" /\
  EmailNotifications.priority email = None /\
  EmailNotifications.X_Priority (EmailNotifications.headers email) = "3".
Proof. repeat split. Qed.

(** ** Further properties of the dispatcher *)

(** X1: on every reachable state a direct call of [processQueue] returns at
    its guard (line 124) and changes nothing: the queue is non-empty only
    while the flag is set. *)
Theorem direct_processQueue_is_noop evs s :
  EmailNotifications.exec EmailNotifications.new evs = Some s ->
  EmailNotifications.step s EmailNotifications.ProcessQueue = Some s /\
  (EmailNotifications.isProcessing s = false -> EmailNotifications.queue s = []).
Proof.
  intros Hexec. pose proof (reachable_Inv _ _ Hexec) as H. split.
  - simpl. now rewrite (processQueue_noop _ _ H).
  - exact (EmailNotifications.c_idle _ _ _ H).
Qed.

Lemma direct_processQueue_is_noop_witness :
  exists s,
    EmailNotifications.exec EmailNotifications.new
      [EmailNotifications.SendNotification "bug_report" "a" "t0";
       EmailNotifications.SendNotification "bug_report" "b" "t1"] = Some s /\
    EmailNotifications.step s EmailNotifications.ProcessQueue = Some s.
Proof.
  match goal with
  | |- exists s, EmailNotifications.exec _ ?evs = _ /\ _ =>
      eexists; split;
      [vm_compute; reflexivity
      |exact (proj1 (direct_processQueue_is_noop evs _
                       ltac:(vm_compute; reflexivity)))]
  end.
Defined.

(** X2: [isProcessing] is cleared only at the end of the loop (line 145),
    so once an activation has ended by an exception the flag stays set with
    nothing suspended; from then on no event handles a message: every call
    is queued and resolves at once, and history, files and transport
    attempts never change again. *)
Theorem set_flag_without_drain_blocks_service evs : forall s s',
  EmailNotifications.isProcessing s = true ->
  EmailNotifications.drains s = [] ->
  EmailNotifications.exec s evs = Some s' ->
  EmailNotifications.isProcessing s' = true /\
  EmailNotifications.drains s' = [] /\
  EmailNotifications.history s' = EmailNotifications.history s /\
  EmailNotifications.files s' = EmailNotifications.files s /\
  EmailNotifications.attempts s' = EmailNotifications.attempts s /\
  EmailNotifications.queue s' =
    EmailNotifications.queue s
      ++ EmailNotifications.submissions (EmailNotifications.nextId s) evs /\
  EmailNotifications.settled s' =
    EmailNotifications.settled s
      ++ Dispatch.resolved_calls (EmailNotifications.nextId s) evs.
Proof.
  induction evs as [|ev evs IH]; intros s s' Hflag Hdr Hexec; simpl in Hexec.
  - injection Hexec as <-. unfold Dispatch.resolved_calls. simpl.
    rewrite !app_nil_r. repeat split; assumption.
  - destruct (EmailNotifications.step s ev) as [s1|] eqn:Hstep; [|discriminate].
    assert (Hs1 : EmailNotifications.isProcessing s1 = true /\
                  EmailNotifications.drains s1 = [] /\
                  EmailNotifications.history s1 = EmailNotifications.history s /\
                  EmailNotifications.files s1 = EmailNotifications.files s /\
                  EmailNotifications.attempts s1 = EmailNotifications.attempts s /\
                  EmailNotifications.queue s1 =
                    EmailNotifications.queue s
                      ++ EmailNotifications.submissions (EmailNotifications.nextId s) [ev] /\
                  EmailNotifications.settled s1 =
                    EmailNotifications.settled s
                      ++ Dispatch.resolved_calls (EmailNotifications.nextId s) [ev] /\
                  EmailNotifications.nextId s1 =
                    EmailNotifications.nextId s
                      + length (EmailNotifications.submissions
                                  (EmailNotifications.nextId s) [ev])).
    { unfold Dispatch.resolved_calls.
      destruct ev as [|type body now| |i|i|i now1 now2|i|i]; simpl in Hstep;
        try (rewrite Hdr in Hstep; simpl in Hstep; discriminate);
        injection Hstep as <-.
      - simpl. rewrite !app_nil_r, Nat.add_0_r. repeat split; assumption.
      - unfold EmailNotifications.sendNotification. simpl. rewrite Hflag. simpl.
        repeat split; try assumption. lia.
      - unfold EmailNotifications.processQueue. rewrite Hflag, orb_true_r.
        simpl. rewrite !app_nil_r, Nat.add_0_r. repeat split; assumption. }
    destruct Hs1 as (Hf1 & Hd1 & Hh1 & Hfi1 & Ha1 & Hq1 & Hse1 & Hn1).
    destruct (IH _ _ Hf1 Hd1 Hexec) as (Hf & Hd & Hh & Hfi & Ha & Hq & Hse).
    assert (Hsub : EmailNotifications.submissions (EmailNotifications.nextId s) (ev :: evs)
                   = EmailNotifications.submissions (EmailNotifications.nextId s) [ev]
                     ++ EmailNotifications.submissions (EmailNotifications.nextId s1) evs).
    { rewrite Hn1. destruct ev; simpl; rewrite ?Nat.add_0_r, ?Nat.add_1_r; reflexivity. }
    repeat split; try congruence.
    + rewrite Hq, Hq1, Hsub. now rewrite app_assoc.
    + rewrite Hse, Hse1. unfold Dispatch.resolved_calls.
      rewrite Hsub, map_app. now rewrite app_assoc.
Qed.

Lemma set_flag_without_drain_blocks_service_witness :
  exists s s',
    EmailNotifications.exec EmailNotifications.new
      [EmailNotifications.Initialize;
       EmailNotifications.SendNotification "test_failure" "a" "t0";
       EmailNotifications.SendMailRejected 0;
       EmailNotifications.FsRejected 0] = Some s /\
    EmailNotifications.exec s
      [EmailNotifications.SendNotification "bug_report" "b" "t1";
       EmailNotifications.ProcessQueue] = Some s' /\
    EmailNotifications.history s' = EmailNotifications.history s /\
    map EmailNotifications.id (EmailNotifications.queue s') = [1].
Proof.
  eexists. eexists. split; [vm_compute; reflexivity|].
  split; [vm_compute; reflexivity|]. split; [|reflexivity].
  match goal with
  | |- EmailNotifications.history ?s' = EmailNotifications.history ?s =>
      exact (proj1 (proj2 (proj2
               (set_flag_without_drain_blocks_service
                  [EmailNotifications.SendNotification "bug_report" "b" "t1";
                   EmailNotifications.ProcessQueue] s s'
                  eq_refl eq_refl ltac:(vm_compute; reflexivity)))))
  end.
Defined.

Section NoTransporter.
Import EmailNotifications Dispatch.

Lemma offline_loop c s :
  offline s -> offline (loop c s).
Proof.
  intros (Ht & Ha & Hd & Hh). unfold loop.
  destruct (queue s) as [|m rest].
  - destruct c; repeat split; assumption.
  - simpl. rewrite Ht. repeat split; simpl; try assumption.
    apply Forall_app. split; [assumption|]. repeat constructor. discriminate.
Qed.

Lemma offline_step s ev s' :
  offline s -> Dispatch.is_Initialize ev = false ->
  step s ev = Some s' -> offline s'.
Proof.
  intros Hoff Hev Hstep. pose proof Hoff as (Ht & Ha & Hd & Hh).
  destruct ev as [|type body now| |i|i|i now1 now2|i|i]; simpl in Hstep;
    try discriminate Hev.
  - injection Hstep as <-. unfold sendNotification. simpl.
    destruct (isProcessing s) eqn:Hflag; simpl.
    + repeat split; assumption.
    + unfold processQueue. simpl. rewrite Hflag.
      destruct (length (queue s ++ _) =? 0)%nat; simpl.
      * repeat split; assumption.
      * apply offline_loop. repeat split; assumption.
  - injection Hstep as <-. unfold processQueue.
    destruct ((length (queue s) =? 0)%nat || isProcessing s).
    + exact Hoff.
    + apply offline_loop. repeat split; assumption.
  - destruct (drains s !! i) as [d|] eqn:Hi; [|discriminate].
    exfalso. rewrite Forall_forall in Hd.
    apply list_elem_of_lookup_2 in Hi.
    unfold resume in Hstep. destruct (awaiting d) as [|[|]|[|] ? ?] eqn:Ha';
      simpl in Hstep; try discriminate. now apply (Hd d Hi).
  - destruct (drains s !! i) as [d|] eqn:Hi; [|discriminate].
    exfalso. rewrite Forall_forall in Hd.
    apply list_elem_of_lookup_2 in Hi.
    unfold resume in Hstep. destruct (awaiting d) as [|[|]|[|] ? ?] eqn:Ha';
      simpl in Hstep; try discriminate. now apply (Hd d Hi).
  - destruct (drains s !! i) as [d|] eqn:Hi; [|discriminate].
    assert (Hrest : Forall (fun d => awaiting d <> SendMail) (delete i (drains s))).
    { rewrite Forall_forall in Hd |- *. intros x Hx. apply Hd.
      exact (list_elem_of_delete_inv _ _ _ Hx). }
    unfold resume in Hstep. destruct (awaiting d) as [|[|]|[|] ? ?] eqn:Ha';
      simpl in Hstep; try discriminate; injection Hstep as <-;
      (repeat split; simpl; try assumption;
       apply Forall_app; split; [assumption | repeat constructor; discriminate]).
  - destruct (drains s !! i) as [d|] eqn:Hi; [|discriminate].
    assert (Hrest : Forall (fun d => awaiting d <> SendMail) (delete i (drains s))).
    { rewrite Forall_forall in Hd |- *. intros x Hx. apply Hd.
      exact (list_elem_of_delete_inv _ _ _ Hx). }
    unfold resume in Hstep. destruct (awaiting d) as [|[|]|[|] ? ?] eqn:Ha';
      simpl in Hstep; try discriminate; injection Hstep as <-;
      (apply offline_loop; repeat split; simpl; try assumption;
       apply Forall_app; split; [assumption | repeat constructor; discriminate]).
  - destruct (drains s !! i) as [d|] eqn:Hi; [|discriminate].
    assert (Hrest : Forall (fun d => awaiting d <> SendMail) (delete i (drains s))).
    { rewrite Forall_forall in Hd |- *. intros x Hx. apply Hd.
      exact (list_elem_of_delete_inv _ _ _ Hx). }
    assert (Hcaught : offline
              (suspend {| caller := caller d; current := current d;
                          awaiting := LogMkdir true |}
                       (set_drains (delete i (drains s)) s))).
    { repeat split; simpl; try assumption.
      apply Forall_app; split; [assumption | repeat constructor; discriminate]. }
    assert (Hthrown : offline
              (settle (caller d) false
                 (record_outcome (current d) Dropped
                    (set_drains (delete i (drains s)) s)))).
    { destruct (caller d); repeat split; simpl; try assumption;
        (apply Forall_app; split; [assumption | repeat constructor; discriminate]). }
    unfold resume in Hstep. destruct (awaiting d) as [|[|]|[|] ? ?] eqn:Ha';
      simpl in Hstep; try discriminate; injection Hstep as <-; assumption.
Qed.

End NoTransporter.

(** X3: as long as [initialize] has not been called the transporter is
    null (line 66), so no message is ever handed to [sendMail] and none is
    recorded as delivered: every message the loop is done with went to
    [logToFile]. *)
Theorem uninitialized_service_sends_nothing evs : forall s,
  forallb (fun ev => negb (Dispatch.is_Initialize ev)) evs = true ->
  EmailNotifications.exec EmailNotifications.new evs = Some s ->
  EmailNotifications.transporter s = false /\
  EmailNotifications.attempts s = [] /\
  Forall (fun mo => snd mo <> EmailNotifications.Delivered)
         (EmailNotifications.history s).
Proof.
  assert (Hgen : forall s0 s,
            Dispatch.offline s0 ->
            forallb (fun ev => negb (Dispatch.is_Initialize ev)) evs = true ->
            EmailNotifications.exec s0 evs = Some s -> Dispatch.offline s).
  { induction evs as [|ev evs IH]; intros s0 s Hoff Hevs Hexec; simpl in Hexec.
    - now injection Hexec as <-.
    - destruct (EmailNotifications.step s0 ev) as [s1|] eqn:Hstep; [|discriminate].
      simpl in Hevs. apply andb_prop in Hevs as [Hev Hevs].
      apply negb_true_iff in Hev.
      exact (IH s1 s (offline_step _ _ _ Hoff Hev Hstep) Hevs Hexec). }
  intros s Hevs Hexec.
  destruct (Hgen EmailNotifications.new s) as (Ht & Ha & _ & Hh); auto.
  repeat split; constructor.
Qed.

Lemma uninitialized_service_sends_nothing_witness :
  exists s,
    EmailNotifications.exec EmailNotifications.new
      [EmailNotifications.SendNotification "bug_report" "a" "t0";
       EmailNotifications.MkdirResolved 0 "t1" "t2";
       EmailNotifications.WriteFileResolved 0] = Some s /\
    EmailNotifications.attempts s = [].
Proof.
  match goal with
  | |- exists s, EmailNotifications.exec _ ?evs = _ /\ _ =>
      eexists; split;
      [vm_compute; reflexivity
      |exact (proj1 (proj2 (uninitialized_service_sends_nothing evs _ eq_refl
                              ltac:(vm_compute; reflexivity))))]
  end.
Defined.

Section SendOrder.
Import EmailNotifications.

Lemma app_eq_seq (l1 l2 : list nat) : forall a n,
  l1 ++ l2 = seq a n ->
  l1 = seq a (length l1) /\ l2 = seq (a + length l1) (length l2).
Proof.
  induction l1 as [|x l1 IH]; intros a n H; simpl in *.
  - rewrite Nat.add_0_r. split; [reflexivity|].
    rewrite H. now rewrite length_seq.
  - destruct n as [|n]; [discriminate|]. simpl in H.
    injection H as -> H. destruct (IH _ _ H) as [H1 H2].
    rewrite <- H1. split; [reflexivity|].
    now rewrite <- Nat.add_succ_comm.
Qed.

(** The next message of the queue was submitted after everything that has
    been handed to the transport. *)
Lemma attempts_before_head s subs m rest :
  Core [] s subs -> queue s = m :: rest ->
  forall n, In n (attempts s) -> n < id m.
Proof.
  intros H Hq n Hn.
  apply (c_attempts_in _ _ _ H) in Hn. simpl in Hn. rewrite app_nil_r in Hn.
  pose proof (c_account _ _ _ H) as Hacc. pose proof (c_ids _ _ _ H) as Hids.
  simpl in Hacc. rewrite Hq in Hacc. rewrite <- Hacc, map_app in Hids.
  simpl in Hids. destruct (app_eq_seq _ _ _ _ Hids) as [H1 H2].
  rewrite length_map in H1, H2. simpl in H2. injection H2 as Hm _.
  rewrite H1 in Hn. apply in_seq in Hn. lia.
Qed.

Lemma loop_sorted c s subs :
  Core [] s subs ->
  StronglySorted lt (attempts s) ->
  StronglySorted lt (attempts (loop c s)).
Proof.
  intros H Hs. unfold loop. destruct (queue s) as [|m rest] eqn:Hq.
  - now destruct c.
  - destruct (transporter (set_queue rest s)); simpl; [|exact Hs].
    pose proof (attempts_before_head _ _ _ _ H Hq) as Hlt.
    clear - Hs Hlt. induction Hs as [|x l Hl IH Hx]; simpl.
    + repeat constructor.
    + constructor.
      * apply IH. intros n Hn. apply Hlt. now right.
      * apply Forall_app. split; [exact Hx|].
        repeat constructor. apply Hlt. now left.
Qed.

Lemma step_sorted s ev s' subs :
  Inv s subs ->
  StronglySorted lt (attempts s) ->
  step s ev = Some s' ->
  StronglySorted lt (attempts s').
Proof.
  intros H Hs Hstep.
  destruct ev as [|type body now| |i|i|i now1 now2|i|i]; simpl in Hstep.
  - now injection Hstep as <-.
  - injection Hstep as <-. unfold sendNotification. simpl isProcessing.
    set (m := {| id := nextId s; mail := emailData type body now |}).
    destruct (isProcessing s) eqn:Hflag; simpl negb; cbv iota.
    + exact Hs.
    + assert (Hdr : drains s = []).
      { destruct (drains s) eqn:E; [reflexivity|].
        assert (isProcessing s = true); [|congruence].
        apply (c_flag _ _ _ H). rewrite E. discriminate. }
      unfold processQueue. simpl. rewrite Hflag, (c_idle _ _ _ H Hflag). simpl.
      pose proof (Core_enqueue _ _ _ m H eq_refl) as Hq.
      rewrite Hdr, (c_idle _ _ _ H Hflag) in Hq.
      exact (loop_sorted _ _ _ Hq Hs).
  - injection Hstep as <-. now rewrite (processQueue_noop _ _ H).
  - destruct (drains s !! i) as [d|] eqn:Hi; [|discriminate].
    destruct (Inv_one_drain _ _ _ _ H Hi) as [Hdr ->].
    unfold Inv in H. rewrite Hdr in *. simpl in Hstep. unfold resume in Hstep.
    destruct (awaiting d) as [|[|]|[|] path entry] eqn:Ha;
      simpl in Hstep; try discriminate. injection Hstep as <-.
    apply (loop_sorted _ _ subs); [|exact Hs].
    apply (Core_consume d Delivered (set_drains [] s));
      [apply Core_set_drains; exact H | exact I].
  - destruct (drains s !! i) as [d|] eqn:Hi; [|discriminate].
    unfold resume in Hstep.
    destruct (awaiting d) as [|[|]|[|] path entry] eqn:Ha;
      simpl in Hstep; try discriminate. now injection Hstep as <-.
  - destruct (drains s !! i) as [d|] eqn:Hi; [|discriminate].
    unfold resume in Hstep.
    destruct (awaiting d) as [|[|]|[|] path entry] eqn:Ha;
      simpl in Hstep; try discriminate; now injection Hstep as <-.
  - destruct (drains s !! i) as [d|] eqn:Hi; [|discriminate].
    destruct (Inv_one_drain _ _ _ _ H Hi) as [Hdr ->].
    unfold Inv in H. rewrite Hdr in *. simpl in Hstep. unfold resume in Hstep.
    destruct (awaiting d) as [|[|]|[|] path entry] eqn:Ha;
      simpl in Hstep; try discriminate; injection Hstep as <-;
      (apply (loop_sorted _ _ subs); [|exact Hs];
       apply (Core_consume d (Persisted path entry) (set_drains [] s));
       [apply Core_set_drains; exact H | auto]).
  - destruct (drains s !! i) as [d|] eqn:Hi; [|discriminate].
    unfold resume in Hstep.
    destruct (awaiting d) as [|[|]|[|] path entry] eqn:Ha;
      simpl in Hstep; try discriminate; injection Hstep as <-;
      try exact Hs; now destruct (caller d).
Qed.

End SendOrder.

(** X4: messages are handed to the transport in the order of the
    [sendNotification] calls that produced them (push at line 112, shift at
    line 129): the call numbers in [attempts] are strictly increasing in
    every reachable state. *)
Theorem transport_attempts_in_submission_order evs : forall s,
  EmailNotifications.exec EmailNotifications.new evs = Some s ->
  StronglySorted lt (EmailNotifications.attempts s).
Proof.
  assert (Hgen : forall s0 s subs,
            EmailNotifications.Inv s0 subs ->
            StronglySorted lt (EmailNotifications.attempts s0) ->
            EmailNotifications.exec s0 evs = Some s ->
            StronglySorted lt (EmailNotifications.attempts s)).
  { induction evs as [|ev evs IH]; intros s0 s subs H Hs Hexec; simpl in Hexec.
    - now injection Hexec as <-.
    - destruct (EmailNotifications.step s0 ev) as [s1|] eqn:Hstep; [|discriminate].
      exact (IH s1 s _ (step_Inv _ _ _ _ H Hstep)
                (step_sorted _ _ _ _ H Hs Hstep) Hexec). }
  intros s Hexec.
  apply (Hgen EmailNotifications.new s [] Core_new); [constructor | exact Hexec].
Qed.

Lemma transport_attempts_in_submission_order_witness :
  exists s,
    EmailNotifications.exec EmailNotifications.new
      [EmailNotifications.Initialize;
       EmailNotifications.SendNotification "bug_report" "a" "t0";
       EmailNotifications.SendNotification "test_results" "b" "t1";
       EmailNotifications.SendMailResolved 0] = Some s /\
    EmailNotifications.attempts s = [0; 1] /\
    StronglySorted lt (EmailNotifications.attempts s).
Proof.
  match goal with
  | |- exists s, EmailNotifications.exec _ ?evs = _ /\ _ =>
      eexists; split; [vm_compute; reflexivity|]; split; [reflexivity|];
      exact (transport_attempts_in_submission_order evs _
               ltac:(vm_compute; reflexivity))
  end.
Defined.

(** ** Headers and file names *)

Lemma TEMPLATES_own type t :
  EmailNotifications.TEMPLATES !! type = Some t ->
  In (type, EmailNotifications.t_priority t)
     [("test_results", "normal"); ("test_failure", "high");
      ("build_success", "normal"); ("build_failure", "high");
      ("security_alert", "urgent"); ("performance_issue", "high");
      ("bug_report", "normal"); ("crisis_system_error", "urgent")].
Proof.
  intros H. unfold EmailNotifications.TEMPLATES in H.
  apply elem_of_list_to_map_2 in H.
  repeat (apply elem_of_cons in H as [[= -> ->]|H]; [simpl; tauto|]).
  now apply elem_of_nil in H.
Qed.

(** X5: the [X-Priority] header is "1" exactly for the types
    [security_alert] and [crisis_system_error], "2" exactly for
    [test_failure], [build_failure] and [performance_issue], and "3" for
    every other type, known or not (lines 29-62 and 105). *)
Theorem X_Priority_by_type type body now :
  let header := EmailNotifications.X_Priority
                  (EmailNotifications.headers
                     (EmailNotifications.emailData type body now)) in
  (header = "1" <-> type = "security_alert" \/ type = "crisis_system_error") /\
  (header = "2" <->
     type = "test_failure" \/ type = "build_failure" \/ type = "performance_issue") /\
  (header = "1" \/ header = "2" \/ header = "3").
Proof.
  unfold EmailNotifications.emailData, EmailNotifications.TEMPLATES_get. simpl.
  destruct (EmailNotifications.TEMPLATES !! type) as [t|] eqn:E.
  - pose proof (TEMPLATES_own _ _ E) as Hin. simpl in Hin |- *.
    destruct Hin as [[= <- <-]|[[= <- <-]|[[= <- <-]|[[= <- <-]|[[= <- <-]|
                    [[= <- <-]|[[= <- <-]|[[= <- <-]|[]]]]]]]]];
      simpl; (repeat split; try tauto; try discriminate;
              intuition discriminate).
  - assert (Hne : forall k t, EmailNotifications.TEMPLATES !! k = Some t -> type <> k)
      by (intros k t Hk ->; congruence).
    assert (H3 : EmailNotifications.X_Priority
                   (EmailNotifications.headers
                      (EmailNotifications.emailData type body now)) = "3").
    { unfold EmailNotifications.emailData, EmailNotifications.TEMPLATES_get.
      rewrite E. now destruct (bool_decide _). }
    unfold EmailNotifications.emailData, EmailNotifications.TEMPLATES_get in H3.
    rewrite E in H3. simpl in H3. rewrite H3.
    repeat split; try discriminate; try tauto;
      intros Hk; exfalso;
      repeat (destruct Hk as [Hk|Hk]); subst type; vm_compute in E; discriminate.
Qed.

Section FileNames.
Import EmailNotifications Dispatch.

Lemma colon_free_app a b :
  colon_free (a +:+ b) = colon_free a && colon_free b.
Proof.
  induction a as [|c a IH]; simpl; [reflexivity|].
  now rewrite IH, andb_assoc.
Qed.

Lemma replace_colons_colon_free s : colon_free (replace_colons s) = true.
Proof.
  induction s as [|c s IH]; simpl; [reflexivity|].
  rewrite IH, andb_true_r.
  destruct (Ascii.eqb c ":") eqn:E; [reflexivity|]. now rewrite E.
Qed.

End FileNames.

Section FileNamePaths.
Import EmailNotifications Dispatch.

Lemma in_logDir_file name :
  slash_free name = true -> in_logDir ("logs/email-notifications/" +:+ name) = true.
Proof.
  intros H. unfold in_logDir. rewrite logDir_eq.
  change ("logs/email-notifications" +:+ "/") with "logs/email-notifications/".
  now rewrite strip_prefix_app.
Qed.

End FileNamePaths.

(** X6: in the name of a fallback file every colon of the timestamp is
    replaced (line 279): the replaced timestamp has the same length, has no
    colon, and is the timestamp itself when that had none.  The event type
    is appended as it is and the name is joined to the directory (line
    280): for a timestamp and a type without slash the file lies in
    [logs/email-notifications] itself, and its path is free of colons
    exactly when the type is. *)
Theorem fallback_path_colons iso email :
  let type := EmailNotifications.X_Second_Chance_Type (EmailNotifications.headers email) in
  String.length (EmailNotifications.replace_colons iso) = String.length iso /\
  Dispatch.colon_free (EmailNotifications.replace_colons iso) = true /\
  (Dispatch.colon_free iso = true -> EmailNotifications.replace_colons iso = iso) /\
  (Dispatch.slash_free iso = true -> Dispatch.slash_free type = true ->
     EmailNotifications.logPath iso email =
       "logs/email-notifications/" +:+ EmailNotifications.replace_colons iso
         +:+ "_" +:+ type +:+ ".json" /\
     Dispatch.in_logDir (EmailNotifications.logPath iso email) = true /\
     Dispatch.colon_free (EmailNotifications.logPath iso email) =
       Dispatch.colon_free type).
Proof.
  intros type. split; [|split; [|split]].
  - induction iso as [|c s IH]; simpl; congruence.
  - apply replace_colons_colon_free.
  - induction iso as [|c s IH]; simpl; [reflexivity|].
    intros H. apply andb_prop in H as [Hc Hs]. apply negb_true_iff in Hc.
    now rewrite Hc, IH.
  - intros Hiso Hty. rewrite (logPath_plain iso email Hiso Hty). fold type.
    split; [reflexivity|]. split.
    + apply in_logDir_file.
      rewrite !slash_free_app, slash_free_replace_colons, Hiso, Hty. reflexivity.
    + rewrite !colon_free_app, replace_colons_colon_free. simpl.
      now rewrite andb_true_r.
Qed.

Lemma fallback_path_colons_witness :
  EmailNotifications.replace_colons "2026-01-01" = "2026-01-01" /\
  EmailNotifications.logPath "2026-01-01T10:20:30.000Z"
    (EmailNotifications.emailData "bug_report" "" "2026-01-01T10:20:29.000Z")
  = "logs/email-notifications/2026-01-01T10-20-30.000Z_bug_report.json".
Proof.
  split.
  - exact (proj1 (proj2 (proj2 (fallback_path_colons "2026-01-01"
             (EmailNotifications.emailData "bug_report" "" ""))))
             eq_refl).
  - exact (proj1 (proj2 (proj2 (proj2 (fallback_path_colons "2026-01-01T10:20:30.000Z"
             (EmailNotifications.emailData "bug_report" "" "2026-01-01T10:20:29.000Z"))))
             eq_refl eq_refl)).
Defined.

(** ** Matching survives more text *)

Section SearchMonotone.
Import Js.

Lemma append_cons c a b : String c a +:+ b = String c (a +:+ b).
Proof. reflexivity. Qed.

Lemma append_nil_r s : s +:+ "" = s.
Proof.
  induction s as [|c s IH]; [reflexivity|]. now rewrite append_cons, IH.
Qed.

Lemma append_assoc a b c : (a +:+ b) +:+ c = a +:+ (b +:+ c).
Proof.
  induction a as [|x a IH]; [reflexivity|]. now rewrite !append_cons, IH.
Qed.

Lemma toLowerCase_app a b : toLowerCase (a +:+ b) = toLowerCase a +:+ toLowerCase b.
Proof.
  induction a as [|x a IH]; [reflexivity|].
  rewrite append_cons. simpl. now rewrite IH.
Qed.

Lemma lit_prefix_suffix ic l s rest u :
  lit_prefix ic l s = Some rest ->
  lit_prefix ic l (s +:+ u) = Some (rest +:+ u).
Proof.
  revert s. induction l as [|a l IH]; intros s H; simpl in *.
  - now injection H as ->.
  - destruct s as [|b s]; [discriminate|]. simpl.
    destruct (char_eqb ic a b); [now apply IH | discriminate].
Qed.

(** [.*] can always stop where it stands. *)
Lemma dotstar_stop {A} s (k : string -> option A) :
  k s <> None -> dotstar s k <> None.
Proof.
  intros H. destruct s as [|c s]; simpl; [exact H|].
  destruct (isLineTerminator c); [exact H|].
  now destruct (dotstar s k).
Qed.

Lemma dotstar_suffix {A B} s u (k : string -> option A) (k' : string -> option B) :
  (forall rest, k rest <> None -> k' (rest +:+ u) <> None) ->
  dotstar s k <> None -> dotstar (s +:+ u) k' <> None.
Proof.
  intros Hk. induction s as [|c s IH]; simpl; intros H.
  - apply dotstar_stop. now apply (Hk "").
  - destruct (isLineTerminator c); [now apply (Hk (String c s))|].
    destruct (dotstar s k) eqn:E.
    + assert (Hs : dotstar (s +:+ u) k' <> None) by (apply IH; discriminate).
      now destruct (dotstar (s +:+ u) k').
    + destruct (dotstar (s +:+ u) k'); [discriminate|].
      now apply (Hk (String c s)).
Qed.

(** A match of the start of a text is a match of the start of every
    extension of the text, for continuations that agree. *)
Lemma run_suffix ic r : forall {A B} s u (k : string -> option A)
    (k' : string -> option B),
  (forall rest, k rest <> None -> k' (rest +:+ u) <> None) ->
  run ic r s k <> None -> run ic r (s +:+ u) k' <> None.
Proof.
  induction r as [l| |r1 IH1 r2 IH2|r1 IH1 r2 IH2]; intros A B s u k k' Hk H;
    simpl in *.
  - destruct (lit_prefix ic l s) as [rest|] eqn:E; [|contradiction].
    rewrite (lit_prefix_suffix _ _ _ _ u E). now apply Hk.
  - now apply (dotstar_suffix s u k k').
  - apply (IH1 _ _ s u (fun s' => run ic r2 s' k)); [|exact H].
    intros rest Hr. now apply (IH2 _ _ rest u k k').
  - destruct (run ic r1 s k) eqn:E1.
    + assert (H1 : run ic r1 (s +:+ u) k' <> None)
        by (apply (IH1 _ _ s u k k' Hk); rewrite E1; discriminate).
      now destruct (run ic r1 (s +:+ u) k').
    + destruct (run ic r1 (s +:+ u) k'); [discriminate|].
      now apply (IH2 _ _ s u k k').
Qed.

Lemma drop_chars_suffix i s u :
  i <= String.length s -> drop_chars i (s +:+ u) = drop_chars i s +:+ u.
Proof.
  revert s. induction i as [|i IH]; intros s Hi; [reflexivity|].
  destruct s as [|c s]; simpl in *; [lia|]. apply IH. lia.
Qed.

Lemma drop_chars_prefix p s i :
  drop_chars (String.length p + i) (p +:+ s) = drop_chars i s.
Proof. induction p as [|c p IH]; simpl; [reflexivity | exact IH]. Qed.

Lemma scan_sound R S : forall fuel i e,
  scan R S i fuel = Some e ->
  exists j, i <= j <= i + fuel /\ match_at R S j <> None.
Proof.
  induction fuel as [|fuel IH]; intros i e H; simpl in H.
  - destruct (match_at R S i) eqn:E; [|discriminate].
    exists i. split; [lia | congruence].
  - destruct (match_at R S i) eqn:E.
    + exists i. split; [lia | congruence].
    + destruct (IH _ _ H) as (j & Hj & Hm). exists j. split; [lia | exact Hm].
Qed.

(** If a pattern is found in a text it is found in every text that
    contains that text. *)
Lemma search_more_text R p s u :
  search R s = true -> search R (p +:+ s +:+ u) = true.
Proof.
  unfold search. intros H.
  destruct (scan R s 0 (String.length s)) as [e|] eqn:E; [|discriminate].
  destruct (scan_sound _ _ _ _ _ E) as (j & Hj & Hm).
  destruct (scan R (p +:+ s +:+ u) 0 _) eqn:E'; [reflexivity|exfalso].
  revert E'. apply scan_finds with (i := String.length p + j).
  - unfold match_at in *. rewrite drop_chars_prefix.
    rewrite drop_chars_suffix by lia.
    apply (run_suffix _ _ _ u (fun rest => Some (String.length s - String.length rest)));
      [discriminate | exact Hm].
  - rewrite !length_app_string. lia.
Qed.

Lemma search_suffix R s u : search R s = true -> search R (s +:+ u) = true.
Proof. exact (search_more_text R "" s u). Qed.

End SearchMonotone.

Lemma matches_suffix n text u :
  TodoGenerator.matches n text = true ->
  TodoGenerator.matches n (text +:+ u) = true.
Proof. apply search_suffix. Qed.

(** X7: the patterns have no anchors, so a failure text that matches one
    of [failurePatterns] still matches it when text is put before or after
    it.  Hence a failure whose priority is critical stays critical when
    text is appended to its message, and one whose category is
    crisis-system stays so when text is appended to its name. *)
Theorem more_text_keeps_the_alarm :
  (forall n p text u,
     TodoGenerator.matches n text = true ->
     TodoGenerator.matches n (p +:+ text +:+ u) = true) /\
  (forall e m n sev blk u,
     let failure := {| TodoGenerator.error := e; TodoGenerator.message := Some m;
                       TodoGenerator.name := n; TodoGenerator.severity := sev;
                       TodoGenerator.blocking := blk |} in
     let longer := {| TodoGenerator.error := e; TodoGenerator.message := Some (m +:+ u);
                      TodoGenerator.name := n; TodoGenerator.severity := sev;
                      TodoGenerator.blocking := blk |} in
     fst (TodoGenerator.determinePriority failure TodoGenerator.new) = "critical" ->
     fst (TodoGenerator.determinePriority longer TodoGenerator.new) = "critical") /\
  (forall e m n sev blk u,
     let failure := {| TodoGenerator.error := e; TodoGenerator.message := m;
                       TodoGenerator.name := Some n; TodoGenerator.severity := sev;
                       TodoGenerator.blocking := blk |} in
     let longer := {| TodoGenerator.error := e; TodoGenerator.message := m;
                      TodoGenerator.name := Some (n +:+ u); TodoGenerator.severity := sev;
                      TodoGenerator.blocking := blk |} in
     fst (TodoGenerator.determineCategory failure TodoGenerator.new) = "crisis-system" ->
     fst (TodoGenerator.determineCategory longer TodoGenerator.new) = "crisis-system").
Proof.
  split; [|split].
  - intros n p text u. apply search_more_text.
  - intros e m n sev blk u failure longer.
    rewrite !determinePriority_new. simpl fst.
    assert (Htext : TodoGenerator.priorityText longer
                    = TodoGenerator.priorityText failure +:+ Js.toLowerCase u).
    { unfold TodoGenerator.priorityText, longer, failure. simpl.
      rewrite <- toLowerCase_app. f_equal. now rewrite !append_assoc. }
    destruct (TodoGenerator.matches TodoGenerator.Crisis
                (TodoGenerator.priorityText failure)) eqn:Hc.
    + intros _. rewrite Htext.
      now rewrite (matches_suffix _ _ (Js.toLowerCase u) Hc).
    + destruct (TodoGenerator.matches TodoGenerator.Security
                  (TodoGenerator.priorityText failure)) eqn:Hs.
      * intros _. rewrite Htext.
        rewrite (matches_suffix _ _ (Js.toLowerCase u) Hs).
        now match goal with |- (if ?c then _ else _) = _ => destruct c end.
      * destruct (TodoGenerator.flagged failure); [discriminate|].
        now destruct (TodoGenerator.matches TodoGenerator.Performance _).
  - intros e m n sev blk u failure longer.
    rewrite !determineCategory_new. simpl fst.
    assert (Htext : TodoGenerator.categoryText longer
                    = TodoGenerator.categoryText failure +:+ Js.toLowerCase u).
    { unfold TodoGenerator.categoryText, longer, failure. simpl.
      rewrite <- toLowerCase_app. f_equal. now rewrite !append_assoc. }
    destruct (TodoGenerator.matches TodoGenerator.Crisis
                (TodoGenerator.categoryText failure)) eqn:Hc.
    + intros _. rewrite Htext.
      now rewrite (matches_suffix _ _ (Js.toLowerCase u) Hc).
    + destruct (TodoGenerator.matches TodoGenerator.Security _); [discriminate|].
      destruct (TodoGenerator.matches TodoGenerator.Performance _); [discriminate|].
      now destruct (TodoGenerator.matches TodoGenerator.Build _).
Qed.

Lemma more_text_keeps_the_alarm_witness :
  fst (TodoGenerator.determineCategory
         {| TodoGenerator.error := Some "button missing";
            TodoGenerator.message := None;
            TodoGenerator.name := Some ("Hotline link" +:+ " is slow");
            TodoGenerator.severity := None; TodoGenerator.blocking := false |}
         TodoGenerator.new) = "crisis-system".
Proof.
  apply (proj2 (proj2 more_text_keeps_the_alarm)
           (Some "button missing") None "Hotline link" None false " is slow").
  vm_compute. reflexivity.
Defined.

(** X8: the text that decides the category extends the text that decides
    the priority (lines 206 and 227), so a failure with priority critical
    always has category crisis-system or security. *)
Theorem critical_priority_has_critical_category failure :
  fst (TodoGenerator.determinePriority failure TodoGenerator.new) = "critical" ->
  fst (TodoGenerator.determineCategory failure TodoGenerator.new) = "crisis-system" \/
  fst (TodoGenerator.determineCategory failure TodoGenerator.new) = "security".
Proof.
  rewrite determinePriority_new, determineCategory_new. simpl fst.
  assert (Htext : TodoGenerator.categoryText failure
                  = TodoGenerator.priorityText failure
                    +:+ Js.toLowerCase (" " +:+ Js.interpolate (TodoGenerator.name failure))).
  { unfold TodoGenerator.categoryText, TodoGenerator.priorityText.
    rewrite <- toLowerCase_app. f_equal. now rewrite !append_assoc. }
  destruct (TodoGenerator.matches TodoGenerator.Crisis
              (TodoGenerator.priorityText failure)) eqn:Hc.
  - intros _. left. rewrite Htext.
    now rewrite (matches_suffix _ _ _ Hc).
  - destruct (TodoGenerator.matches TodoGenerator.Security
                (TodoGenerator.priorityText failure)) eqn:Hs.
    + intros _. rewrite Htext.
      rewrite (matches_suffix _ _ _ Hs).
      match goal with
      | |- (if ?c then _ else _) = _ \/ _ => destruct c
      end; [now left | now right].
    + destruct (TodoGenerator.flagged failure); [discriminate|].
      now destruct (TodoGenerator.matches TodoGenerator.Performance _).
Qed.

Lemma critical_priority_has_critical_category_witness :
  fst (TodoGenerator.determineCategory
         {| TodoGenerator.error := Some "Unsafe redirect";
            TodoGenerator.message := Some "timeout";
            TodoGenerator.name := None;
            TodoGenerator.severity := None; TodoGenerator.blocking := false |}
         TodoGenerator.new) = "crisis-system" \/
  fst (TodoGenerator.determineCategory
         {| TodoGenerator.error := Some "Unsafe redirect";
            TodoGenerator.message := Some "timeout";
            TodoGenerator.name := None;
            TodoGenerator.severity := None; TodoGenerator.blocking := false |}
         TodoGenerator.new) = "security".
Proof.
  apply critical_priority_has_critical_category. vm_compute. reflexivity.
Defined.

(** The converse fails: a crisis term in the test name alone gives category
    crisis-system with priority low. *)
Example crisis_named_test_has_low_priority :
  TodoGenerator.classify
    {| TodoGenerator.error := Some "element not found";
       TodoGenerator.message := None;
       TodoGenerator.name := Some "Crisis button should be accessible";
       TodoGenerator.severity := None; TodoGenerator.blocking := false |}
    TodoGenerator.new = (("low", "crisis-system"), TodoGenerator.new).
Proof. vm_compute. reflexivity. Qed.

(** ** Bug reports: files, TODO text and statistics *)

Section Strings.

Lemma append_inj_l a s1 s2 : a +:+ s1 = a +:+ s2 -> s1 = s2.
Proof.
  induction a as [|c a IH]; [trivial|].
  rewrite !append_cons. intros [= H]. now apply IH.
Qed.

Lemma append_inj_r t : forall s1 s2, s1 +:+ t = s2 +:+ t -> s1 = s2.
Proof.
  assert (Hlen : forall c s, String.length (String c s +:+ t) <> String.length t).
  { intros c s. rewrite length_app_string. simpl. lia. }
  induction s1 as [|c s1 IH]; intros [|d s2] H.
  - reflexivity.
  - exfalso. apply (Hlen d s2). change ("" +:+ t) with t in H. now rewrite <- H.
  - exfalso. apply (Hlen c s1). change ("" +:+ t) with t in H. now rewrite H.
  - rewrite !append_cons in H. injection H as -> H. f_equal. now apply IH.
Qed.

Lemma substring_prefix m : forall s,
  String.length (String.substring 0 m s) = Nat.min m (String.length s) /\
  exists rest, s = String.substring 0 m s +:+ rest.
Proof.
  induction m as [|m IH]; intros s.
  - destruct s; simpl; (split; [reflexivity | eexists; reflexivity]).
  - destruct s as [|c s]; simpl.
    + split; [reflexivity | now exists ""].
    + destruct (IH s) as [Hlen [rest Hrest]]. split; [now rewrite Hlen|].
      exists rest. rewrite append_cons. now f_equal.
Qed.

End Strings.

(** X9: the TODO made from a bug report (lines 245-256) carries the
    report's priority and category, its third label is the category, and
    its description is the first 500 characters of the body: a prefix of
    the body, the whole body when that is no longer than 500. *)
Theorem todo_from_bug_is_bounded b created :
  let todo := EmailBugMonitor.todoFromBug b created in
  String.length (EmailBugMonitor.todo_description todo)
    = Nat.min 500 (String.length (EmailBugMonitor.br_body b)) /\
  (exists rest,
     EmailBugMonitor.br_body b = EmailBugMonitor.todo_description todo +:+ rest) /\
  (String.length (EmailBugMonitor.br_body b) <= 500 ->
     EmailBugMonitor.todo_description todo = EmailBugMonitor.br_body b) /\
  EmailBugMonitor.todo_priority todo = EmailBugMonitor.br_priority b /\
  nth_error (EmailBugMonitor.todo_labels todo) 2 = Some (EmailBugMonitor.todo_category todo).
Proof.
  intros todo. unfold todo, EmailBugMonitor.todoFromBug.
  cbn [EmailBugMonitor.todo_description EmailBugMonitor.todo_priority
       EmailBugMonitor.todo_labels EmailBugMonitor.todo_category].
  destruct (substring_prefix 500 (EmailBugMonitor.br_body b)) as [Hlen [rest Hrest]].
  split; [exact Hlen|]. split; [now exists rest|]. split; [|split; reflexivity].
  intros Hshort.
  assert (Hr : rest = "").
  { apply (f_equal String.length) in Hrest.
    rewrite length_app_string, Hlen in Hrest.
    destruct rest as [|a rest]; [reflexivity|].
    change (String.length (String a rest)) with (S (String.length rest)) in Hrest.
    lia. }
  rewrite Hr, append_nil_r in Hrest. now symmetry.
Qed.

Lemma todo_from_bug_is_bounded_witness :
  EmailBugMonitor.todo_description
    (EmailBugMonitor.todoFromBug
       (EmailBugMonitor.newBugReport "BUG-1" "now"
          {| EmailBugMonitor.from_text := None;
             EmailBugMonitor.subject := Some "Crash";
             EmailBugMonitor.date := None;
             EmailBugMonitor.text := Some "The app crashed on login.";
             EmailBugMonitor.html := None;
             EmailBugMonitor.attachments := None |}) "later")
  = "The app crashed on login.".
Proof.
  change "The app crashed on login."
    with (EmailBugMonitor.br_body
            (EmailBugMonitor.newBugReport "BUG-1" "now"
               {| EmailBugMonitor.from_text := None;
                  EmailBugMonitor.subject := Some "Crash";
                  EmailBugMonitor.date := None;
                  EmailBugMonitor.text := Some "The app crashed on login.";
                  EmailBugMonitor.html := None;
                  EmailBugMonitor.attachments := None |})) at 2.
  apply (proj1 (proj2 (proj2 (todo_from_bug_is_bounded _ "later")))).
  simpl. lia.
Defined.

Section ReportFiles.
Import Js EmailBugMonitor BugStatistics.

Lemma bugReportPath_inj id1 id2 : bugReportPath id1 = bugReportPath id2 -> id1 = id2.
Proof.
  unfold bugReportPath, join. intros H.
  apply append_inj_l, append_inj_l in H. now apply append_inj_r in H.
Qed.

Lemma todoPath_inj id1 id2 : todoPath id1 = todoPath id2 -> id1 = id2.
Proof.
  unfold todoPath, join. intros H.
  apply append_inj_l, append_inj_l, append_inj_l in H. now apply append_inj_r in H.
Qed.

Lemma ackPath_inj id1 id2 : ackPath id1 = ackPath id2 -> id1 = id2.
Proof.
  unfold ackPath, join. intros H.
  apply append_inj_l, append_inj_l in H. now apply append_inj_r in H.
Qed.

Lemma bugReportPath_not_ackPath id1 id2 :
  generated id1 -> bugReportPath id1 <> ackPath id2.
Proof.
  intros (ts & rnd & ->). unfold bugReportPath, ackPath, generateBugId, join.
  intros H. apply (append_inj_l "bug-reports/") in H. discriminate H.
Qed.

Lemma bugReportPath_not_todoPath id1 id2 : bugReportPath id1 <> todoPath id2.
Proof. unfold bugReportPath, todoPath, join. discriminate. Qed.

Lemma todoPath_not_ackPath id1 id2 : todoPath id1 <> ackPath id2.
Proof. unfold todoPath, ackPath, join. discriminate. Qed.

(** [processEmail] writes to the three files of its own report only. *)
Lemma processEmail_writes_own_files env id now created email w path :
  patterns w = MONITOR_CONFIG_patterns ->
  path <> bugReportPath id -> path <> todoPath id -> path <> ackPath id ->
  files (snd (processEmail env id now created email w)) !! path = files w !! path.
Proof.
  intros Hw Hb Ht Ha. rewrite (processEmail_unfold _ _ _ _ _ _ Hw). cbv zeta.
  destruct (matches Bug _); [|reflexivity].
  assert (Hid : forall b, br_id (classified b) = br_id b).
  { intros b. unfold classified.
    repeat match goal with |- context [if ?c then _ else _] => destruct c end;
      reflexivity. }
  unfold saveBugReport, createTodoFromBug, sendAcknowledgment, bind, mkdir,
    writeFile, push_bugReport, sendNotification.
  rewrite !Hid. cbn [br_id newBugReport].
  repeat match goal with
         | |- context [env ?op] => destruct (env op)
         end;
    cbn [files snd fst]; rewrite ?lookup_insert_ne by congruence; reflexivity.
Qed.

End ReportFiles.

(** X10: the three files of a bug report are named by its identifier
    (lines 228, 258, 305).  For identifiers as [generateBugId] makes them,
    files of different reports and of different kinds never have the same
    name, so processing a mail leaves the files of every other report as
    they are, whatever happens to its own writes. *)
Theorem reports_keep_their_files env id1 id2 now created email w :
  BugStatistics.generated id1 -> BugStatistics.generated id2 -> id1 <> id2 ->
  EmailBugMonitor.patterns w = EmailBugMonitor.MONITOR_CONFIG_patterns ->
  let mine := [EmailBugMonitor.bugReportPath id1; EmailBugMonitor.todoPath id1;
               EmailBugMonitor.ackPath id1] in
  let theirs := [EmailBugMonitor.bugReportPath id2; EmailBugMonitor.todoPath id2;
                 EmailBugMonitor.ackPath id2] in
  List.NoDup mine /\
  (forall path, In path mine -> ~ In path theirs) /\
  (forall path, In path mine ->
     EmailBugMonitor.files
       (snd (EmailBugMonitor.processEmail env id2 now created email w)) !! path
     = EmailBugMonitor.files w !! path).
Proof.
  intros G1 G2 Hne Hw mine theirs.
  assert (Hdisj : forall path, In path mine -> ~ In path theirs).
  { intros path [<-|[<-|[<-|[]]]] [H|[H|[H|[]]]].
    - apply Hne. symmetry. now apply bugReportPath_inj.
    - now apply (bugReportPath_not_todoPath id1 id2).
    - now apply (bugReportPath_not_ackPath id1 id2).
    - now apply (bugReportPath_not_todoPath id2 id1).
    - apply Hne. symmetry. now apply todoPath_inj.
    - now apply (todoPath_not_ackPath id1 id2).
    - now apply (bugReportPath_not_ackPath id2 id1).
    - now apply (todoPath_not_ackPath id2 id1).
    - apply Hne. symmetry. now apply ackPath_inj. }
  split; [|split; [exact Hdisj|]].
  - repeat constructor; simpl.
    + intros [H|[H|[]]].
      * now apply (bugReportPath_not_todoPath id1 id1).
      * now apply (bugReportPath_not_ackPath id1 id1).
    + intros [H|[]]. now apply (todoPath_not_ackPath id1 id1).
    + intros [].
  - intros path Hin. apply processEmail_writes_own_files; [exact Hw| | |];
      intros ->; apply (Hdisj _ Hin); simpl; tauto.
Qed.

Lemma reports_keep_their_files_witness :
  EmailBugMonitor.files
    (snd (EmailBugMonitor.processEmail (fun _ => true)
            (BugStatistics.generateBugId "1700000000001" "k3x9ab") "now" "later"
            {| EmailBugMonitor.from_text := None;
               EmailBugMonitor.subject := Some "Crash on start";
               EmailBugMonitor.date := None; EmailBugMonitor.text := None;
               EmailBugMonitor.html := None;
               EmailBugMonitor.attachments := None |}
            EmailBugMonitor.new_world))
    !! EmailBugMonitor.ackPath (BugStatistics.generateBugId "1700000000000" "q7r2cd")
  = None.
Proof.
  apply (proj2 (proj2 (reports_keep_their_files (fun _ => true)
                         (BugStatistics.generateBugId "1700000000000" "q7r2cd")
                         (BugStatistics.generateBugId "1700000000001" "k3x9ab")
                         "now" "later" _ EmailBugMonitor.new_world
                         (ex_intro _ "1700000000000" (ex_intro _ "q7r2cd" eq_refl))
                         (ex_intro _ "1700000000001" (ex_intro _ "k3x9ab" eq_refl))
                         ltac:(discriminate) eq_refl))).
  simpl. tauto.
Defined.

Section Tallies.
Import Js EmailBugMonitor BugStatistics.

Lemma foldl_pair {A B C} (f : A -> C -> A) (g : B -> C -> B) l : forall a b,
  foldl (fun acc x => (f (fst acc) x, g (snd acc) x)) (a, b) l
  = (foldl f a l, foldl g b l).
Proof. induction l as [|x l IH]; intros a b; simpl; [reflexivity | apply IH]. Qed.

Lemma shown_S n : shown (S n) = Some (Count (S n)).
Proof. reflexivity. Qed.

(** Counting ordinary keys: the counter of a key shows how often it came. *)
Lemma tally_counts (keys : list string) :
  Forall ordinary keys ->
  forall k, foldl tally ∅ keys !! k = shown (count_occ string_dec keys k).
Proof.
  induction keys as [|k0 keys IH] using rev_ind; intros Hord k.
  - apply lookup_empty.
  - apply Forall_app in Hord as [Hord Hk0].
    apply Forall_cons in Hk0 as [Hk0 _].
    rewrite foldl_app, count_occ_app. simpl. unfold tally at 1.
    rewrite (IH Hord k0).
    assert (Hproto : k0 <> "__proto__").
    { intros ->. apply Hk0. simpl. tauto. }
    assert (Hplain : ~ k0 ∈ EmailNotifications.Object_prototype).
    { intros Hin. apply Hk0. now apply list_elem_of_In. }
    destruct (string_dec k0 k) as [->|Hne].
    + destruct (count_occ string_dec keys k) as [|n]; simpl.
      * rewrite bool_decide_eq_false_2 by exact Hproto.
        rewrite bool_decide_eq_false_2 by exact Hplain.
        now rewrite lookup_insert_eq.
      * now rewrite lookup_insert_eq, !Nat.add_1_r.
    + rewrite Nat.add_0_r.
      destruct (count_occ string_dec keys k0) as [|n]; simpl.
      * rewrite bool_decide_eq_false_2 by exact Hproto.
        rewrite bool_decide_eq_false_2 by exact Hplain.
        rewrite lookup_insert_ne by exact Hne. apply IH, Hord.
      * rewrite lookup_insert_ne by exact Hne. apply IH, Hord.
Qed.

Lemma slice_last_spec {A} n (l : list A) :
  length (slice_last n l) = Nat.min n (length l) /\
  exists older, l = older ++ slice_last n l.
Proof.
  unfold slice_last. split.
  - rewrite length_drop. lia.
  - exists (take (length l - n) l). now rewrite take_drop.
Qed.

(** The priorities and categories that [processEmail] assigns. *)
Lemma classified_ordinary id now email :
  let b := classified (newBugReport id now email) in
  ordinary (br_priority b) /\ ordinary (br_category b).
Proof.
  unfold classified.
  repeat match goal with |- context [if ?c then _ else _] => destruct c end;
    simpl; split; unfold ordinary; simpl; intuition discriminate.
Qed.

End Tallies.

(** X11: [getStatistics] (lines 334-348) counts every remembered report
    once: [total] is their number, the counter of a priority (of a
    category) is absent when no report has it and otherwise shows how many
    have it, and [recent] holds the last five reports, or all of them when
    there are fewer, in their order.  This needs priorities and categories
    that are not names of built-ins of [Object.prototype], as those that
    [processEmail] assigns are. *)
Theorem statistics_count_every_report w :
  Forall (fun b => BugStatistics.ordinary (EmailBugMonitor.br_priority b) /\
                   BugStatistics.ordinary (EmailBugMonitor.br_category b))
         (EmailBugMonitor.bugReports w) ->
  let stats := BugStatistics.getStatistics w in
  BugStatistics.total stats = length (EmailBugMonitor.bugReports w) /\
  (forall p, BugStatistics.byPriority stats !! p =
             BugStatistics.shown
               (count_occ string_dec
                  (map EmailBugMonitor.br_priority (EmailBugMonitor.bugReports w)) p)) /\
  (forall c, BugStatistics.byCategory stats !! c =
             BugStatistics.shown
               (count_occ string_dec
                  (map EmailBugMonitor.br_category (EmailBugMonitor.bugReports w)) c)) /\
  length (BugStatistics.recent stats) = Nat.min 5 (BugStatistics.total stats) /\
  exists older, EmailBugMonitor.bugReports w = older ++ BugStatistics.recent stats.
Proof.
  intros Hord stats. unfold stats, BugStatistics.getStatistics.
  cbn [BugStatistics.total BugStatistics.byPriority BugStatistics.byCategory
       BugStatistics.recent].
  rewrite (foldl_pair (fun m b => BugStatistics.tally m (EmailBugMonitor.br_priority b))
                      (fun m b => BugStatistics.tally m (EmailBugMonitor.br_category b))).
  cbn [fst snd].
  assert (Hmap : forall (f : EmailBugMonitor.BugReport -> string) l m,
            foldl (fun m b => BugStatistics.tally m (f b)) m l
            = foldl BugStatistics.tally m (map f l)).
  { intros f l. induction l as [|x l IH]; intros m; simpl; [reflexivity | apply IH]. }
  split; [reflexivity|]. split; [|split].
  - intros p. rewrite Hmap. apply tally_counts.
    apply Forall_map. eapply Forall_impl; [exact Hord|]. now intros b [? _].
  - intros c. rewrite Hmap. apply tally_counts.
    apply Forall_map. eapply Forall_impl; [exact Hord|]. now intros b [_ ?].
  - apply slice_last_spec.
Qed.

Lemma statistics_count_every_report_witness :
  BugStatistics.byPriority
    (BugStatistics.getStatistics
       (snd (EmailBugMonitor.processEmail (fun _ => true) "BUG-1-abc" "now" "later"
               {| EmailBugMonitor.from_text := None;
                  EmailBugMonitor.subject := Some "Urgent: crash on start";
                  EmailBugMonitor.date := None; EmailBugMonitor.text := None;
                  EmailBugMonitor.html := None;
                  EmailBugMonitor.attachments := None |}
               EmailBugMonitor.new_world))) !! "critical"
  = Some (BugStatistics.Count 1).
Proof.
  match goal with
  | |- BugStatistics.byPriority (BugStatistics.getStatistics ?w) !! _ = _ =>
      assert (Hord : Forall
                (fun b => BugStatistics.ordinary (EmailBugMonitor.br_priority b) /\
                          BugStatistics.ordinary (EmailBugMonitor.br_category b))
                (EmailBugMonitor.bugReports w));
      [|rewrite (proj1 (proj2 (statistics_count_every_report w Hord)));
        vm_compute; reflexivity]
  end.
  match goal with
  | |- Forall ?P ?l => let l' := eval vm_compute in l in change (Forall P l')
  end.
  constructor; [|constructor].
  exact (classified_ordinary "BUG-1-abc" "now"
           {| EmailBugMonitor.from_text := None;
              EmailBugMonitor.subject := Some "Urgent: crash on start";
              EmailBugMonitor.date := None; EmailBugMonitor.text := None;
              EmailBugMonitor.html := None;
              EmailBugMonitor.attachments := None |}).
Defined.

(** X12: a mail that [processEmail] takes for a bug report, with every
    awaited call resolving, is counted by [getStatistics] from then on:
    [total] grows by one, and by nothing for any other mail; the priorities
    and categories of the remembered reports stay countable. *)
Theorem processed_bug_reports_are_counted env id now created email w :
  EmailBugMonitor.patterns w = EmailBugMonitor.MONITOR_CONFIG_patterns ->
  (forall op, env op = true) ->
  Forall (fun b => BugStatistics.ordinary (EmailBugMonitor.br_priority b) /\
                   BugStatistics.ordinary (EmailBugMonitor.br_category b))
         (EmailBugMonitor.bugReports w) ->
  let w' := snd (EmailBugMonitor.processEmail env id now created email w) in
  let content := EmailBugMonitor.contentOf (EmailBugMonitor.newBugReport id now email) in
  EmailBugMonitor.patterns w' = EmailBugMonitor.MONITOR_CONFIG_patterns /\
  Forall (fun b => BugStatistics.ordinary (EmailBugMonitor.br_priority b) /\
                   BugStatistics.ordinary (EmailBugMonitor.br_category b))
         (EmailBugMonitor.bugReports w') /\
  BugStatistics.total (BugStatistics.getStatistics w') =
    BugStatistics.total (BugStatistics.getStatistics w)
    + (if EmailBugMonitor.matches EmailBugMonitor.Bug content then 1 else 0).
Proof.
  intros Hw Henv Hord w' content. unfold w'.
  rewrite (processEmail_unfold _ _ _ _ _ _ Hw). cbv zeta. fold content.
  destruct (EmailBugMonitor.matches EmailBugMonitor.Bug content).
  - unfold EmailBugMonitor.saveBugReport, EmailBugMonitor.createTodoFromBug,
      EmailBugMonitor.sendAcknowledgment, EmailBugMonitor.bind,
      EmailBugMonitor.mkdir, EmailBugMonitor.writeFile,
      EmailBugMonitor.push_bugReport, EmailBugMonitor.sendNotification.
    rewrite !Henv.
    cbn [snd fst EmailBugMonitor.patterns EmailBugMonitor.bugReports].
    rewrite ?Henv.
    cbn [snd fst EmailBugMonitor.patterns EmailBugMonitor.bugReports
         BugStatistics.getStatistics BugStatistics.total].
    split; [exact Hw|]. split.
    + apply Forall_app. split; [exact Hord|].
      constructor; [apply classified_ordinary | constructor].
    + now rewrite length_app.
  - cbn [snd]. split; [exact Hw|]. split; [exact Hord|].
    now rewrite Nat.add_0_r.
Qed.

Lemma processed_bug_reports_are_counted_witness :
  BugStatistics.total
    (BugStatistics.getStatistics
       (snd (EmailBugMonitor.processEmail (fun _ => true) "BUG-1-abc" "now" "later"
               {| EmailBugMonitor.from_text := None;
                  EmailBugMonitor.subject := Some "Login fails";
                  EmailBugMonitor.date := None; EmailBugMonitor.text := None;
                  EmailBugMonitor.html := None;
                  EmailBugMonitor.attachments := None |}
               EmailBugMonitor.new_world))) = 1.
Proof.
  rewrite (proj2 (proj2 (processed_bug_reports_are_counted (fun _ => true) "BUG-1-abc"
                           "now" "later" _ EmailBugMonitor.new_world eq_refl
                           (fun _ => eq_refl) (List.Forall_nil _)))).
  reflexivity.
Defined.

(** ** TODO items of the generator *)

Section TodoFiles.
Import Js TodoGenerator TodoItems.

Lemma append_last_char c1 c2 : forall s1 s2,
  s1 +:+ String c1 "" = s2 +:+ String c2 "" -> c1 = c2.
Proof.
  induction s1 as [|a s1 IH]; intros [|b s2] H.
  - now injection H.
  - rewrite append_cons in H. injection H as _ H. destruct s2; discriminate H.
  - rewrite append_cons in H. injection H as _ H. destruct s1; discriminate H.
  - rewrite !append_cons in H. injection H as _ H. now apply IH in H.
Qed.

Lemma jsonPath_inj this id1 id2 : jsonPath this id1 = jsonPath this id2 -> id1 = id2.
Proof.
  unfold jsonPath. intros H.
  apply append_inj_l, append_inj_l in H. now apply append_inj_r in H.
Qed.

Lemma mdPath_inj this id1 id2 : mdPath this id1 = mdPath this id2 -> id1 = id2.
Proof.
  unfold mdPath. intros H.
  apply append_inj_l, append_inj_l in H. now apply append_inj_r in H.
Qed.

Lemma jsonPath_not_mdPath this id1 id2 : jsonPath this id1 <> mdPath this id2.
Proof.
  unfold jsonPath, mdPath. intros H.
  apply append_inj_l, append_inj_l in H.
  change ".json" with (".jso" +:+ "n") in H.
  change ".md" with (".m" +:+ "d") in H.
  rewrite <- !append_assoc in H.
  apply append_last_char in H. discriminate H.
Qed.

Lemma eachFailure_cons env clock testResult failure rest i todos w :
  generator w = TodoGenerator.new ->
  eachFailure env clock testResult i (failure :: rest) todos w =
    let todo := todoOf clock testResult i failure in
    if env (WriteFile (jsonPath TodoGenerator.new (id todo))) then
      if env (WriteFile (mdPath TodoGenerator.new (id todo))) then
        eachFailure env clock testResult (S i) rest (todos ++ [todo])
          {| generator := TodoGenerator.new;
             files := <[mdPath TodoGenerator.new (id todo) := TodoMarkdown todo]>
                        (<[jsonPath TodoGenerator.new (id todo) := TodoJson todo]>
                           (files w));
             notifications := notifications w |}
      else (None,
            {| generator := TodoGenerator.new;
               files := <[jsonPath TodoGenerator.new (id todo) := TodoJson todo]>
                          (files w);
               notifications := notifications w |})
    else (None, {| generator := TodoGenerator.new; files := files w;
                   notifications := notifications w |}).
Proof.
  destruct w as [g fs ns]. cbn [generator files notifications]. intros ->.
  cbv zeta. unfold todoOf.
  cbn [eachFailure]. unfold bind at 1. unfold lift at 1.
  cbn [generator files notifications].
  rewrite !determinePriority_new. cbn [fst]. cbv beta iota.
  unfold bind at 1. unfold lift at 1. cbn [generator files notifications].
  rewrite !determineCategory_new. cbn [fst]. cbv beta iota.
  unfold bind at 1. unfold saveTodo, bind, writeFile.
  cbn [generator files notifications].
  destruct (env (WriteFile (jsonPath _ _))); [|reflexivity].
  cbn [generator files notifications].
  destruct (env (WriteFile (mdPath _ _))); reflexivity.
Qed.

Lemma eachFailure_notifications env clock testResult : forall failures i todos w,
  notifications (snd (eachFailure env clock testResult i failures todos w))
  = notifications w.
Proof.
  induction failures as [|failure rest IH]; intros i todos w; [reflexivity|].
  cbn [eachFailure]. unfold bind at 1. unfold lift at 1.
  destruct (determinePriority (text failure) (generator w)) as [p g1].
  unfold bind at 1. unfold lift at 1. cbn [generator files notifications].
  destruct (determineCategory (text failure) g1) as [c g2].
  unfold bind at 1. unfold saveTodo, bind, writeFile.
  cbn [generator files notifications].
  destruct (env (WriteFile (jsonPath g2 _))); [|reflexivity].
  cbn [generator files notifications].
  destruct (env (WriteFile (mdPath g2 _))); [|reflexivity].
  now rewrite IH.
Qed.

Lemma eachFailure_run env clock testResult : forall failures i todos w,
  generator w = TodoGenerator.new ->
  let r := eachFailure env clock testResult i failures todos w in
  (forall made, fst r = Some made ->
     made = todos ++ todosFrom clock testResult i failures /\
     generator (snd r) = TodoGenerator.new /\
     files (snd r) = saved (todosFrom clock testResult i failures) (files w)) /\
  ((forall path, env (WriteFile path) = true) -> fst r <> None).
Proof.
  induction failures as [|failure rest IH]; intros i todos w Hw.
  - cbn. split; [|discriminate].
    intros made [= <-]. now rewrite app_nil_r.
  - cbv zeta. rewrite (eachFailure_cons _ _ _ _ _ _ _ _ Hw). cbv zeta.
    cbn [todosFrom].
    set (todo := todoOf clock testResult i failure).
    destruct (env (WriteFile (jsonPath _ _))) eqn:Ej;
      [|split; [discriminate | intros Hall; now rewrite Hall in Ej]].
    destruct (env (WriteFile (mdPath _ _))) eqn:Em;
      [|split; [discriminate | intros Hall; now rewrite Hall in Em]].
    match goal with
    | |- context [eachFailure _ _ _ _ _ _ ?w'] =>
        destruct (IH (S i) (todos ++ [todo]) w' eq_refl) as [IH1 IH2]
    end.
    split; [|exact IH2].
    intros made Hmade. destruct (IH1 made Hmade) as (-> & Hg & Hf).
    split; [now rewrite <- app_assoc|]. split; [exact Hg|].
    rewrite Hf. reflexivity.
Qed.

Lemma saved_cons t todos fs :
  saved (t :: todos) fs =
    saved todos (<[mdPath TodoGenerator.new (id t) := TodoMarkdown t]>
                   (<[jsonPath TodoGenerator.new (id t) := TodoJson t]> fs)).
Proof. reflexivity. Qed.

Lemma saved_other todos : forall fs path,
  (forall t, In t todos ->
     path <> jsonPath TodoGenerator.new (id t) /\
     path <> mdPath TodoGenerator.new (id t)) ->
  saved todos fs !! path = fs !! path.
Proof.
  induction todos as [|t todos IH]; intros fs path H; [reflexivity|].
  rewrite saved_cons.
  rewrite IH by (intros t' Ht'; apply H; now right).
  destruct (H t (or_introl eq_refl)) as [Hj Hm].
  now rewrite !lookup_insert_ne by congruence.
Qed.

Lemma saved_lookup todos : forall fs t,
  List.NoDup (map id todos) -> In t todos ->
  saved todos fs !! jsonPath TodoGenerator.new (id t) = Some (TodoJson t) /\
  saved todos fs !! mdPath TodoGenerator.new (id t) = Some (TodoMarkdown t).
Proof.
  induction todos as [|t0 todos IH]; intros fs t Hnd Hin; [destruct Hin|].
  cbn [map] in Hnd. apply List.NoDup_cons_iff in Hnd as [Hnotin Hnd].
  rewrite saved_cons.
  destruct Hin as [->|Hin]; [|now apply IH].
  assert (Hother : forall t', In t' todos -> id t' <> id t).
  { intros t' Ht' Heq. apply Hnotin. rewrite <- Heq. now apply in_map. }
  split; rewrite saved_other.
  - rewrite lookup_insert_ne by (intros H; symmetry in H; now apply jsonPath_not_mdPath in H).
    apply lookup_insert_eq.
  - intros t' Ht'. split.
    + intros H. apply jsonPath_inj in H. now apply (Hother t').
    + apply jsonPath_not_mdPath.
  - apply lookup_insert_eq.
  - intros t' Ht'. split.
    + intros H. symmetry in H. now apply jsonPath_not_mdPath in H.
    + intros H. apply mdPath_inj in H. now apply (Hother t').
Qed.

Lemma todosFrom_length clock testResult : forall failures i,
  length (todosFrom clock testResult i failures) = length failures.
Proof. induction failures as [|f fs IH]; intros i; cbn; [|rewrite IH]; reflexivity. Qed.

Lemma filter_length_le {A} (p : A -> bool) (l : list A) :
  (length (List.filter p l) <= length l)%nat.
Proof. induction l as [|a l IH]; cbn; [lia|]. destruct (p a); cbn; lia. Qed.

End TodoFiles.

Section TodoRuns.
Import Js TodoGenerator TodoItems.

Lemma todosFrom_lookup clock testResult : forall failures i k failure,
  failures !! k = Some failure ->
  todosFrom clock testResult i failures !! k
  = Some (todoOf clock testResult (i + k) failure).
Proof.
  induction failures as [|f fs IH]; intros i [|k] failure H; try discriminate H.
  - cbn in H. injection H as ->. cbn. now rewrite Nat.add_0_r.
  - change ((f :: fs) !! S k) with (fs !! k) in H. cbn [todosFrom].
    change ((todoOf clock testResult i f :: todosFrom clock testResult (S i) fs) !! S k)
      with (todosFrom clock testResult (S i) fs !! k).
    rewrite (IH (S i) k failure H). now rewrite Nat.add_succ_r.
Qed.

Lemma rank_of_bools (a b : bool) (hi mid hi' mid' : bool) :
  (hi = true -> hi' = true) -> (mid = true -> mid' = true) ->
  effort_rank (if a || hi then "high" else if b || mid then "medium" else "low")
  <= effort_rank (if a || hi' then "high" else if b || mid' then "medium" else "low").
Proof.
  intros H1 H2.
  destruct a, b, hi, mid; cbn; try rewrite (H1 eq_refl); try rewrite (H2 eq_refl);
    destruct hi', mid'; cbn; unfold effort_rank; cbn; lia.
Qed.

End TodoRuns.

(** X13: the effort estimate (lines 247-255) is one of low, medium and
    high, and never drops when a failure has more dependencies: with the
    same complexity, more dependencies give the same or a higher
    estimate.  More than three dependencies always give high. *)
Theorem effort_grows_with_dependencies (f f' : TodoItems.TestFailure) (d d' : Z) :
  TodoItems.complexity f = TodoItems.complexity f' ->
  TodoItems.dependencies f = Some d ->
  TodoItems.dependencies f' = Some d' ->
  (d <= d')%Z ->
  TodoItems.effort_rank (TodoItems.estimateEffort f)
    <= TodoItems.effort_rank (TodoItems.estimateEffort f') /\
  In (TodoItems.estimateEffort f') ["low"; "medium"; "high"] /\
  ((3 < d')%Z -> TodoItems.estimateEffort f' = "high").
Proof.
  intros Hc Hd Hd' Hle. unfold TodoItems.estimateEffort.
  rewrite Hc, Hd, Hd'. cbn [TodoItems.greater]. split; [|split].
  - apply rank_of_bools; intros H; apply Z.ltb_lt in H; apply Z.ltb_lt; lia.
  - destruct (_ || _); [cbn; tauto|]. destruct (_ || _); cbn; tauto.
  - intros H. apply Z.ltb_lt in H. rewrite H. now rewrite orb_true_r.
Qed.

Lemma effort_grows_with_dependencies_witness :
  TodoItems.effort_rank
    (TodoItems.estimateEffort
       {| TodoItems.text := {| TodoGenerator.error := None; TodoGenerator.message := None;
                               TodoGenerator.name := None; TodoGenerator.severity := None;
                               TodoGenerator.blocking := false |};
          TodoItems.test := None; TodoItems.file := None; TodoItems.line := None;
          TodoItems.stack := None; TodoItems.suite := None;
          TodoItems.complexity := None; TodoItems.dependencies := Some 2%Z |})
  <= TodoItems.effort_rank
       (TodoItems.estimateEffort
          {| TodoItems.text := {| TodoGenerator.error := None; TodoGenerator.message := None;
                                  TodoGenerator.name := None; TodoGenerator.severity := None;
                                  TodoGenerator.blocking := false |};
             TodoItems.test := None; TodoItems.file := None; TodoItems.line := None;
             TodoItems.stack := None; TodoItems.suite := None;
             TodoItems.complexity := None; TodoItems.dependencies := Some 5%Z |}).
Proof.
  match goal with
  | |- TodoItems.effort_rank (TodoItems.estimateEffort ?f)
       <= TodoItems.effort_rank (TodoItems.estimateEffort ?f') =>
      exact (proj1 (effort_grows_with_dependencies f f' 2 5 eq_refl eq_refl eq_refl
                      ltac:(lia)))
  end.
Defined.

(** X14: the deadline of a severity (lines 260-269).  The call throws
    exactly for a severity that names a built-in of [Object.prototype];
    otherwise the deadline lies between one hour and one week after now,
    one hour exactly for critical, and three days for a missing severity
    and for every severity that is none of critical, high, medium, low. *)
Theorem deadline_window (now : Z) (severity : option string) :
  (TodoItems.calculateDeadline now severity = None <->
   exists s, severity = Some s /\ In s EmailNotifications.Object_prototype) /\
  (forall d, TodoItems.calculateDeadline now severity = Some d ->
     (now + 3600000 <= d <= now + 604800000)%Z /\
     (d = (now + 3600000)%Z <-> severity = Some "critical") /\
     (~ (exists s, severity = Some s /\ In s ["critical"; "high"; "medium"; "low"]) ->
      d = (now + 259200000)%Z)).
Proof.
  unfold TodoItems.calculateDeadline. destruct severity as [s|].
  - destruct (TodoItems.deadlines !! s) as [ms|] eqn:E.
    + apply elem_of_list_to_map_2 in E. apply list_elem_of_In in E.
      cbn in E. destruct E as [E|[E|[E|[E|[]]]]]; injection E as <- <-.
      all: split;
        [ split; [discriminate|];
          intros (s' & [= <-] & Hin); vm_compute in Hin; intuition discriminate
        | intros d [= <-]; split; [lia|]; split;
          [ split; intros H; [try reflexivity; lia | try lia; discriminate H]
          | intros Hno; exfalso; apply Hno; eexists; split; [reflexivity|];
            cbn; tauto ] ].
    + destruct (bool_decide (s ∈ EmailNotifications.Object_prototype)) eqn:B.
      * apply bool_decide_eq_true in B. apply list_elem_of_In in B.
        split; [|discriminate]. split; [|reflexivity].
        intros _. now exists s.
      * apply bool_decide_eq_false in B. rewrite list_elem_of_In in B.
        split.
        -- split; [discriminate|]. intros (s' & [= <-] & Hin). contradiction.
        -- intros d [= <-]. split; [lia|]. split; [|reflexivity].
           split; [lia|]. intros [= ->]. vm_compute in E. discriminate E.
  - split.
    + split; [discriminate|]. intros (s & H & _). discriminate H.
    + intros d [= <-]. split; [lia|]. split; [|reflexivity].
      split; [lia|discriminate].
Qed.

(** X15: [generateFromTestFailure] (lines 34-79) when every awaited call
    resolves: it returns one TODO per failure, in order, the [i]-th with
    the priority and category the classifiers give the [i]-th failure; the
    two files of each TODO are written; and it sends one test_failure
    notification exactly when some TODO has priority critical or high,
    reporting the number of failures and the critical or high TODOs.  A
    result without [failures] gives no TODO, no file and no notification. *)
Theorem test_failure_todos (env : TodoItems.Env) (clock : TodoItems.Clock)
    (testResult : TodoItems.TestResult) (w : TodoItems.World) :
  TodoItems.generator w = TodoGenerator.new ->
  (forall op, env op = true) ->
  let failures := match TodoItems.r_failures testResult with
                  | Some l => l
                  | None => []
                  end in
  exists todos w',
    TodoItems.generateFromTestFailure env clock testResult w = (Some todos, w') /\
    length todos = length failures /\
    (forall i failure, failures !! i = Some failure ->
       exists todo, todos !! i = Some todo /\
         TodoItems.priority todo
           = fst (TodoGenerator.determinePriority (TodoItems.text failure)
                    TodoGenerator.new) /\
         TodoItems.category todo
           = fst (TodoGenerator.determineCategory (TodoItems.text failure)
                    TodoGenerator.new) /\
         TodoItems.id todo
           = TodoItems.generateTodoId "TEST" (fst (fst (clock i))) (snd (fst (clock i))) /\
         TodoItems.estimatedEffort todo = TodoItems.estimateEffort failure) /\
    TodoItems.generator w' = TodoGenerator.new /\
    TodoItems.files w' = TodoItems.saved todos (TodoItems.files w) /\
    let urgent := List.filter TodoItems.isHighPriority todos in
    length urgent <= length failures /\
    TodoItems.notifications w' =
      TodoItems.notifications w ++
      match urgent with
      | [] => []
      | _ :: _ =>
          [("test_failure",
            {| TodoItems.d_suite := TodoItems.r_suite testResult;
               TodoItems.d_failed := length failures;
               TodoItems.d_highPriorityCount := length urgent;
               TodoItems.d_todos :=
                 map (fun t => (TodoItems.id t, TodoItems.title t)) urgent |})]
      end.
Proof.
  intros Hw Henv failures.
  exists (TodoItems.todosFrom clock testResult 0 failures).
  unfold TodoItems.generateFromTestFailure. fold failures.
  pose proof (eachFailure_run env clock testResult failures 0 [] w Hw) as [H1 H2].
  pose proof (eachFailure_notifications env clock testResult failures 0 [] w) as Hn.
  cbv zeta in H1, H2.
  unfold TodoItems.bind at 1.
  destruct (TodoItems.eachFailure env clock testResult 0 failures [] w)
    as [[made|] w1] eqn:E; cbn [fst snd] in *;
    [|exfalso; apply H2; [intros; apply Henv | reflexivity]].
  destruct (H1 made eq_refl) as (-> & Hg & Hf). cbn [app] in *.
  set (todos := TodoItems.todosFrom clock testResult 0 failures) in *.
  assert (Hlen : length todos = length failures) by apply todosFrom_length.
  assert (Hith : forall i failure, failures !! i = Some failure ->
            exists todo, todos !! i = Some todo /\
              TodoItems.priority todo
                = fst (TodoGenerator.determinePriority (TodoItems.text failure)
                         TodoGenerator.new) /\
              TodoItems.category todo
                = fst (TodoGenerator.determineCategory (TodoItems.text failure)
                         TodoGenerator.new) /\
              TodoItems.id todo
                = TodoItems.generateTodoId "TEST" (fst (fst (clock i)))
                    (snd (fst (clock i))) /\
              TodoItems.estimatedEffort todo = TodoItems.estimateEffort failure).
  { intros i failure Hi. eexists. split.
    - unfold todos. rewrite (todosFrom_lookup _ _ _ 0 i failure Hi). reflexivity.
    - cbn [Nat.add]. unfold TodoItems.todoOf, TodoItems.testTodo.
      destruct (clock i) as [[ts rnd] now]. cbn. tauto. }
  assert (Hurg : length (List.filter TodoItems.isHighPriority todos) <= length failures).
  { rewrite <- Hlen. apply filter_length_le. }
  destruct (List.filter TodoItems.isHighPriority todos) as [|u urgent] eqn:Eu.
  - cbn [length Nat.ltb Nat.leb]. unfold TodoItems.ret.
    exists w1. split; [reflexivity|]. split; [exact Hlen|]. split; [exact Hith|].
    split; [exact Hg|]. split; [exact Hf|]. cbv zeta. split; [exact Hurg|].
    now rewrite app_nil_r.
  - cbn [length Nat.ltb Nat.leb]. unfold TodoItems.bind, TodoItems.sendNotification,
      TodoItems.ret. rewrite Henv.
    eexists. split; [reflexivity|]. split; [exact Hlen|]. split; [exact Hith|].
    cbn [TodoItems.generator TodoItems.files TodoItems.notifications].
    split; [exact Hg|]. split; [exact Hf|]. cbv zeta. split; [exact Hurg|].
    now rewrite Hn.
Qed.

Lemma test_failure_todos_witness :
  exists todos w',
    TodoItems.generateFromTestFailure (fun _ => true)
      (fun i => ("1700000000000", "A1B2", "2023-11-14T22:13:20.000Z"))
      {| TodoItems.r_suite := Some "e2e";
         TodoItems.r_failures :=
           Some [{| TodoItems.text :=
                      {| TodoGenerator.error := Some "988 link does not open";
                         TodoGenerator.message := None;
                         TodoGenerator.name := Some "crisis page";
                         TodoGenerator.severity := None;
                         TodoGenerator.blocking := false |};
                    TodoItems.test := None; TodoItems.file := None;
                    TodoItems.line := None; TodoItems.stack := None;
                    TodoItems.suite := None; TodoItems.complexity := None;
                    TodoItems.dependencies := None |}] |}
      TodoItems.new_world = (Some todos, w') /\
    length todos = 1 /\ length (TodoItems.notifications w') = 1.
Proof.
  match goal with
  | |- exists todos w', TodoItems.generateFromTestFailure ?env ?clock ?tr ?w = _ /\ _ =>
      destruct (test_failure_todos env clock tr w eq_refl (fun _ => eq_refl))
        as (todos & w' & Hrun & Hlen & _ & _ & _ & _ & Hnote)
  end.
  exists todos, w'. split; [exact Hrun|]. split; [exact Hlen|].
  vm_compute in Hrun. injection Hrun as <- <-. reflexivity.
Defined.

(** X16: a rejected file write ends [generateFromTestFailure] before the
    notification of line 70: whenever the call is rejected although the
    notification call itself would resolve, nothing has been sent, whatever
    the priorities of the TODOs already written. *)
Theorem rejected_write_sends_no_notification (env : TodoItems.Env)
    (clock : TodoItems.Clock) (testResult : TodoItems.TestResult)
    (w : TodoItems.World) :
  env (TodoItems.SendNotification "test_failure") = true ->
  fst (TodoItems.generateFromTestFailure env clock testResult w) = None ->
  TodoItems.notifications
    (snd (TodoItems.generateFromTestFailure env clock testResult w))
  = TodoItems.notifications w.
Proof.
  intros Henv. unfold TodoItems.generateFromTestFailure.
  set (failures := match TodoItems.r_failures testResult with
                   | Some l => l
                   | None => []
                   end).
  pose proof (eachFailure_notifications env clock testResult failures 0 [] w) as Hn.
  unfold TodoItems.bind at 1 3.
  destruct (TodoItems.eachFailure env clock testResult 0 failures [] w)
    as [[made|] w1]; cbn [fst snd] in *; [|intros _; exact Hn].
  destruct (0 <? _)%nat.
  - unfold TodoItems.bind, TodoItems.sendNotification, TodoItems.ret.
    rewrite Henv. discriminate.
  - discriminate.
Qed.

Lemma rejected_write_sends_no_notification_witness :
  TodoItems.notifications
    (snd (TodoItems.generateFromTestFailure
            (fun op => match op with
                       | TodoItems.WriteFile _ => false
                       | TodoItems.SendNotification _ => true
                       end)
            (fun i => ("1700000000000", "A1B2", "2023-11-14T22:13:20.000Z"))
            {| TodoItems.r_suite := Some "e2e";
               TodoItems.r_failures :=
                 Some [{| TodoItems.text :=
                            {| TodoGenerator.error := Some "988 link does not open";
                               TodoGenerator.message := None;
                               TodoGenerator.name := Some "crisis page";
                               TodoGenerator.severity := None;
                               TodoGenerator.blocking := false |};
                          TodoItems.test := None; TodoItems.file := None;
                          TodoItems.line := None; TodoItems.stack := None;
                          TodoItems.suite := None; TodoItems.complexity := None;
                          TodoItems.dependencies := None |}] |}
            TodoItems.new_world))
  = [].
Proof.
  match goal with
  | |- TodoItems.notifications
         (snd (TodoItems.generateFromTestFailure ?env ?clock ?tr ?w)) = _ =>
      exact (rejected_write_sends_no_notification env clock tr w eq_refl
               ltac:(vm_compute; reflexivity))
  end.
Defined.

(** X17: when [generateFromTestFailure] returns its TODOs and their
    identifiers are pairwise distinct, every returned TODO is on disk in
    both renderings, each under the name made from its identifier (lines
    456-465): no TODO file was replaced by that of another failure. *)
Theorem returned_todos_are_on_disk (env : TodoItems.Env) (clock : TodoItems.Clock)
    (testResult : TodoItems.TestResult) (w w' : TodoItems.World)
    (todos : list TodoItems.Todo) :
  TodoItems.generator w = TodoGenerator.new ->
  TodoItems.generateFromTestFailure env clock testResult w = (Some todos, w') ->
  List.NoDup (map TodoItems.id todos) ->
  forall todo, In todo todos ->
    TodoItems.files w' !! TodoItems.jsonPath TodoGenerator.new (TodoItems.id todo)
      = Some (TodoItems.TodoJson todo) /\
    TodoItems.files w' !! TodoItems.mdPath TodoGenerator.new (TodoItems.id todo)
      = Some (TodoItems.TodoMarkdown todo).
Proof.
  intros Hw Hrun Hnd todo Hin. unfold TodoItems.generateFromTestFailure in Hrun.
  set (failures := match TodoItems.r_failures testResult with
                   | Some l => l
                   | None => []
                   end) in Hrun.
  pose proof (eachFailure_run env clock testResult failures 0 [] w Hw) as [H1 _].
  cbv zeta in H1. unfold TodoItems.bind at 1 in Hrun.
  destruct (TodoItems.eachFailure env clock testResult 0 failures [] w)
    as [[made|] w1]; cbn [fst snd] in *; [|discriminate Hrun].
  destruct (H1 made eq_refl) as (-> & _ & Hf). cbn [app] in *.
  assert (Hfiles : TodoItems.files w' = TodoItems.files w1 /\
                   todos = TodoItems.todosFrom clock testResult 0 failures).
  { destruct (0 <? _)%nat.
    - unfold TodoItems.bind, TodoItems.sendNotification, TodoItems.ret in Hrun.
      destruct (env _); [|discriminate Hrun].
      injection Hrun as <- <-. now split.
    - unfold TodoItems.ret in Hrun. injection Hrun as <- <-. now split. }
  destruct Hfiles as [-> ->]. rewrite Hf. now apply saved_lookup.
Qed.

Lemma returned_todos_are_on_disk_witness :
  exists todos w',
    TodoItems.generateFromTestFailure (fun _ => true)
      (fun i => match i with
                | 0 => ("1700000000000", "A1B2", "2023-11-14T22:13:20.000Z")
                | _ => ("1700000000001", "C3D4", "2023-11-14T22:13:20.001Z")
                end)
      {| TodoItems.r_suite := Some "e2e";
         TodoItems.r_failures :=
           Some [{| TodoItems.text :=
                      {| TodoGenerator.error := Some "988 link does not open";
                         TodoGenerator.message := None;
                         TodoGenerator.name := Some "crisis page";
                         TodoGenerator.severity := None;
                         TodoGenerator.blocking := false |};
                    TodoItems.test := None; TodoItems.file := None;
                    TodoItems.line := None; TodoItems.stack := None;
                    TodoItems.suite := None; TodoItems.complexity := None;
                    TodoItems.dependencies := None |};
                 {| TodoItems.text :=
                      {| TodoGenerator.error := Some "timeout";
                         TodoGenerator.message := None;
                         TodoGenerator.name := Some "login";
                         TodoGenerator.severity := None;
                         TodoGenerator.blocking := false |};
                    TodoItems.test := None; TodoItems.file := None;
                    TodoItems.line := None; TodoItems.stack := None;
                    TodoItems.suite := None; TodoItems.complexity := None;
                    TodoItems.dependencies := None |}] |}
      TodoItems.new_world = (Some todos, w') /\
    List.NoDup (map TodoItems.id todos) /\
    forall todo, In todo todos ->
      TodoItems.files w' !! TodoItems.jsonPath TodoGenerator.new (TodoItems.id todo)
        = Some (TodoItems.TodoJson todo) /\
      TodoItems.files w' !! TodoItems.mdPath TodoGenerator.new (TodoItems.id todo)
        = Some (TodoItems.TodoMarkdown todo).
Proof.
  match goal with
  | |- exists todos w', TodoItems.generateFromTestFailure ?env ?clock ?tr ?w = _ /\ _ =>
      eexists; eexists; split; [vm_compute; reflexivity|];
      match goal with
      | |- List.NoDup ?ids /\ _ =>
          assert (Hnd : List.NoDup ids)
            by (repeat constructor; cbn; intuition discriminate);
          split; [exact Hnd|];
          exact (returned_todos_are_on_disk env clock tr w _ _ eq_refl
                   ltac:(vm_compute; reflexivity) Hnd)
      end
  end.
Defined.
